(** * dadafilterbank: ring buffer pages to per-beam filterbank files

    A shallow embedding of [src/main.c].  The program connects to a PSRDADA
    ring buffer, reads the observation parameters from the header block,
    opens one filterbank file per tied-array beam and then, page by page,
    transposes [tab][channel][padded time] into [time][reversed channel]
    and writes the result to the beam's file.

    The C code is a single translation unit with process-wide variables and
    calls to [exit] scattered through it.  The embedding keeps that shape:
    - the globals of the C file are one record, [globals], threaded
      explicitly;
    - every call into libc, PSRDADA or the filterbank writer that is visible
      from outside the process is an [event]; a computation yields the list
      of events it performed together with how it ended ([Ret], [Exit] or
      [Fault]);
    - what the outside world answers (does the connection succeed, which
      descriptor does the writer hand out, which pages arrive) is an [env];
    - [int] and [unsigned int] are [Z] with the 32-bit wrap-around of
      unsigned arithmetic written out ([u32]); [double] is binary64
      ([PrimFloat.float]); memory reached through a [char *] is a function
      from offsets to bytes. *)

From Stdlib Require Import ZArith List String Ascii Lia Bool ZifyBool.
From Stdlib Require Import Floats.PrimFloat.
From Stdlib Require Import Init.Byte DecimalString.
From stdpp Require Import base list strings.

Set Warnings "-inexact-float".
Open Scope Z_scope.

(* ===================================================================== *)
(** * Machine integers and memory *)

(** Conversion to [unsigned int]: reduction modulo 2^32. *)
Definition u32 (x : Z) : Z := x mod 2 ^ 32.

(** Unsigned 32-bit arithmetic, as C performs it once one operand is
    [unsigned int]: both operands are converted, the result wraps. *)
Definition uadd (x y : Z) : Z := u32 (u32 x + u32 y).
Definition usub (x y : Z) : Z := u32 (u32 x - u32 y).
Definition umul (x y : Z) : Z := u32 (u32 x * u32 y).

(** Bytes reachable from a [char *], indexed by offset. *)
Definition mem := Z -> byte.

(** [p[i] = v]. *)
Definition store (m : mem) (i : Z) (v : byte) : mem :=
  fun j => if Z.eqb j i then v else m j.

(** The first [n] bytes at a pointer, as [write] sees them. *)
Definition bytes_of (m : mem) (n : Z) : list byte :=
  List.map (fun k => m (Z.of_nat k)) (seq 0 (Z.to_nat n)).

(** [for (i = start; ...; i++) s = body(i, s)], [count] iterations. *)
Fixpoint for_from {S : Type} (start : Z) (count : nat)
    (body : Z -> S -> S) (s : S) : S :=
  match count with
  | O => s
  | Datatypes.S count' => for_from (start + 1) count' body (body start s)
  end.

(** [for (i = 0; i < bound; i++) s = body(i, s)]. *)
Definition for_lt {S : Type} (bound : Z) (body : Z -> S -> S) (s : S) : S :=
  for_from 0 (Z.to_nat bound) body s.

(* ===================================================================== *)
(** * Events, outcomes and the program monad *)

Definition EXIT_SUCCESS : Z := 0.
Definition EXIT_FAILURE : Z := 1.

(** Value found under a key of the ASCII header block, as the conversion
    named in [ascii_header_get] would scan it. *)
Inductive hvalue :=
| HInt (z : Z)
| HDouble (f : float)
| HString (s : string).

(** The header block of the ring buffer: [KEY value] lines. *)
Definition header := list (string * hvalue).

(** Arguments of a [printf]-style call. *)
Inductive fmt_arg :=
| AInt (z : Z)
| AChar (c : ascii)
| AStr (s : string)
| AHeader (h : header).

(** Arguments of [filterbank_create], in the order of the call. *)
Record fb_header := {
  fb_telescope_id : Z;
  fb_machine_id : Z;
  fb_source_name : string;
  fb_az_start : float;
  fb_za_start : float;
  fb_src_raj : float;
  fb_src_dej : float;
  fb_tstart : float;
  fb_tsamp : float;
  fb_nbits : Z;
  fb_fch1 : float;
  fb_foff : float;
  fb_nchans : Z;
  fb_nbeams : Z;
  fb_ibeam : Z;
  fb_nifs : Z
}.

Inductive event :=
| Stdout (fmt : string) (args : list fmt_arg)
| Stderr (fmt : string) (args : list fmt_arg)
| Runlog (fmt : string) (args : list fmt_arg)
| HduConnect (key : string)
| HduLockRead
| HeaderCleared
| FbCreate (fname : string) (hdr : fb_header) (fd : Z)
| SignalInstall
| PageCleared
| Write (fd : Z) (data : list byte)
| Fsync (fd : Z)
| FbClose (fd : Z)
| HduUnlockRead
| HduDisconnect.

(** How a computation ends: it returns, it calls [exit], or it runs into
    undefined behaviour. *)
Inductive outcome (A : Type) :=
| Ret (a : A)
| Exit (code : Z)
| Fault.
Arguments Ret {A} a.
Arguments Exit {A} code.
Arguments Fault {A}.

(** A computation: the events it performs, then its outcome. *)
Definition prog (A : Type) : Type := list event * outcome A.

Definition emit (e : event) : prog unit := ([e], Ret tt).
Definition exit {A} (code : Z) : prog A := ([], Exit code).
Definition fault {A} : prog A := ([], Fault).

#[global] Instance prog_ret : MRet prog := fun A a => ([], Ret a).

#[global] Instance prog_bind : MBind prog := fun A B k m =>
  match m with
  | (t, Ret a) => let (t', o) := k a in (t ++ t', o)
  | (t, Exit c) => (t, Exit c)
  | (t, Fault) => (t, Fault)
  end.

Definition trace {A} (m : prog A) : list event := fst m.
Definition result {A} (m : prog A) : outcome A := snd m.

(** Monadic [for (i = start; ...; i++)]: stops at the first [exit]. *)
Fixpoint forM_from {S : Type} (start : Z) (count : nat)
    (body : Z -> S -> prog S) (s : S) : prog S :=
  match count with
  | O => mret s
  | Datatypes.S count' =>
      s' ← body start s; forM_from (start + 1) count' body s'
  end.

Definition forM_lt {S : Type} (bound : Z) (body : Z -> S -> prog S) (s : S)
  : prog S :=
  forM_from 0 (Z.to_nat bound) body s.

(* ===================================================================== *)
(** * Globals of [main.c] *)

Definition MAXTABS : Z := 12.

(** Hardcoded parameters. *)
Definition nchannels : Z := 1536.
Definition nbit : Z := 8.

(** The file-scope variables.  [output] is the array of [MAXTABS]
    descriptors; [runlog] records whether the log stream is open. *)
Record globals := {
  output : list Z;
  runlog : bool;
  science_case : Z;
  science_mode : Z;
  padded_size : Z;
  min_frequency : float;
  bandwidth : float;
  ra : float;
  dec : float;
  source_name : string;
  az_start : float;
  za_start : float;
  mjd_start : float;
  tsamp : float;
  ntimes : Z;
  ntabs : Z
}.

(** The initializers of the file: objects without one start at zero. *)
Definition globals0 : globals := {|
  output := replicate (Z.to_nat MAXTABS) 0;
  runlog := false;
  science_case := 3;
  science_mode := 2;
  padded_size := 12500;
  min_frequency := 0%float;
  bandwidth := 0%float;
  ra := 0%float;
  dec := 0%float;
  source_name := EmptyString;
  az_start := 0%float;
  za_start := 0%float;
  mjd_start := 0%float;
  tsamp := (1.024 / 12500)%float;
  ntimes := 12500;
  ntabs := 1
|}.

Definition set_output (v : list Z) (g : globals) : globals :=
  {| output := v; runlog := runlog g; science_case := science_case g;
     science_mode := science_mode g; padded_size := padded_size g;
     min_frequency := min_frequency g; bandwidth := bandwidth g;
     ra := ra g; dec := dec g; source_name := source_name g;
     az_start := az_start g; za_start := za_start g;
     mjd_start := mjd_start g; tsamp := tsamp g; ntimes := ntimes g;
     ntabs := ntabs g |}.

Definition set_runlog (v : bool) (g : globals) : globals :=
  {| output := output g; runlog := v; science_case := science_case g;
     science_mode := science_mode g; padded_size := padded_size g;
     min_frequency := min_frequency g; bandwidth := bandwidth g;
     ra := ra g; dec := dec g; source_name := source_name g;
     az_start := az_start g; za_start := za_start g;
     mjd_start := mjd_start g; tsamp := tsamp g; ntimes := ntimes g;
     ntabs := ntabs g |}.

(** [ntimes = n; tsamp = ts;] *)
Definition set_sampling (n : Z) (ts : float) (g : globals) : globals :=
  {| output := output g; runlog := runlog g; science_case := science_case g;
     science_mode := science_mode g; padded_size := padded_size g;
     min_frequency := min_frequency g; bandwidth := bandwidth g;
     ra := ra g; dec := dec g; source_name := source_name g;
     az_start := az_start g; za_start := za_start g;
     mjd_start := mjd_start g; tsamp := ts; ntimes := n;
     ntabs := ntabs g |}.

Definition set_ntabs (v : Z) (g : globals) : globals :=
  {| output := output g; runlog := runlog g; science_case := science_case g;
     science_mode := science_mode g; padded_size := padded_size g;
     min_frequency := min_frequency g; bandwidth := bandwidth g;
     ra := ra g; dec := dec g; source_name := source_name g;
     az_start := az_start g; za_start := za_start g;
     mjd_start := mjd_start g; tsamp := tsamp g; ntimes := ntimes g;
     ntabs := v |}.

(** [LOG(...)]: the same text to stdout and to the log stream.  Before the
    log stream is open [fprintf(runlog, ...)] dereferences a null pointer. *)
Definition LOG (g : globals) (fmt : string) (args : list fmt_arg)
  : prog unit :=
  emit (Stdout fmt args);;
  if runlog g then emit (Runlog fmt args) else fault.

(* ===================================================================== *)
(** * The outside world *)

(** What the ring buffer does at each turn of the loop of [main]:
    - [RbEod]: [ipcbuf_eod] answers true;
    - [RbNull eod]: [ipcbuf_eod] answers false and [ipcbuf_get_next_read]
      returns [NULL]; [eod] is the answer to the test after the loop;
    - [RbPage p rest]: [ipcbuf_eod] answers false and
      [ipcbuf_get_next_read] returns the page [p]. *)
Inductive rb_script :=
| RbEod
| RbNull (eod : bool)
| RbPage (page : mem) (rest : rb_script).

Record env := {
  (** the [VERSION] macro of the build *)
  env_VERSION : string;
  (** [fopen(logfile, "w")] returns a stream *)
  env_logfile_ok : bool;
  (** [dada_hdu_connect] succeeds *)
  env_connect_ok : bool;
  (** [dada_hdu_lock_read] succeeds *)
  env_lock_ok : bool;
  (** the header block, [None] when the pointer or its size is null *)
  env_header : option header;
  (** [ipcbuf_mark_cleared] on the header block succeeds *)
  env_header_clear_ok : bool;
  (** descriptor returned by the k-th call of [filterbank_create] *)
  env_fds : nat -> Z;
  (** contents of the block returned by [malloc] *)
  env_heap : mem;
  (** the data pages *)
  env_script : rb_script
}.

(* ===================================================================== *)
(** * Command line *)

(** Print commandline options. *)
Definition printOptions : prog unit :=
  emit (Stdout "usage: dadafilterbank -k <hexadecimal key> -l <logfile> -n <filename prefix for dumps>\n" []);;
  emit (Stdout "e.g. dadafits -k dada -l log.txt -n myobs\n" []).

(** The locals of [parseOptions] and the three strings it hands back. *)
Record opts := {
  key : option string;
  prefix : option string;
  logfile : option string;
  setk : bool;
  setl : bool;
  setn : bool
}.

Definition opts0 : opts :=
  {| key := None; prefix := None; logfile := None;
     setk := false; setl := false; setn := false |}.

(** The option string handed to [getopt]. *)
Definition optstring : string := "b:c:m:k:l:n:".

(** [getopt]'s search of the option string: [None] when the character is
    not an option, otherwise whether it takes an argument.  A colon is
    never an option. *)
Fixpoint optstring_find (c : ascii) (os : string) : option bool :=
  match os with
  | EmptyString => None
  | String o rest =>
      if (Ascii.eqb o c && negb (Ascii.eqb c ":") && negb (Ascii.eqb c ";"))%bool
      then Some (match rest with
                 | String ":" _ => true
                 | _ => false
                 end)
      else optstring_find c rest
  end.

(** The [switch] of [parseOptions] on the value returned by [getopt]. *)
Definition parseOptions_switch (c : ascii) (optarg : string) (o : opts)
  : prog opts :=
  if Ascii.eqb c "k" then
    mret {| key := Some optarg; prefix := prefix o; logfile := logfile o;
            setk := true; setl := setl o; setn := setn o |}
  else if Ascii.eqb c "l" then
    mret {| key := key o; prefix := prefix o; logfile := Some optarg;
            setk := setk o; setl := true; setn := setn o |}
  else if Ascii.eqb c "n" then
    mret {| key := key o; prefix := Some optarg; logfile := logfile o;
            setk := setk o; setl := setl o; setn := true |}
  else if Ascii.eqb c "h" then
    printOptions;; exit EXIT_SUCCESS
  else
    emit (Stderr "Unknow option '%c'\n" [AChar c]);; exit EXIT_FAILURE.

(** [while ((c = getopt(argc, argv, optstring)) != -1) switch (c) ...].

    [getopt] is the C library's (GNU behaviour, [opterr] left at 1): an
    element that does not start with a dash, or is a lone dash, is not an
    option and is skipped; [--] ends the options; otherwise the characters
    after the dash are options, one per call.  A character missing from the
    option string is reported on stderr and [getopt] returns ['?'].  An
    option with an argument takes the rest of its element or, when that is
    empty, the next element; when there is none [getopt] reports it and
    returns ['?'].

    [getopt_cluster] runs the loop over the option characters [c], [s] of
    one element; [rest_k] is the loop over the elements that follow and
    [arg_k] gives the next element, if any, with the loop over what follows
    it. *)
Fixpoint getopt_cluster (argv0 : string) (rest_k : opts -> prog opts)
    (arg_k : option (string * (opts -> prog opts)))
    (c : ascii) (s : string) (o : opts) {struct s} : prog opts :=
  let next o' :=
    match s with
    | EmptyString => rest_k o'
    | String c' s' => getopt_cluster argv0 rest_k arg_k c' s' o'
    end in
  match optstring_find c optstring with
  | None =>
      emit (Stderr "%s: invalid option -- '%c'\n" [AStr argv0; AChar c]);;
      o' ← parseOptions_switch "?" "" o; next o'
  | Some false =>
      o' ← parseOptions_switch c "" o; next o'
  | Some true =>
      match s with
      | String _ _ => o' ← parseOptions_switch c s o; rest_k o'
      | EmptyString =>
          match arg_k with
          | None =>
              emit (Stderr "%s: option requires an argument -- '%c'\n"
                      [AStr argv0; AChar c]);;
              parseOptions_switch "?" "" o
          | Some (optarg, after_k) =>
              o' ← parseOptions_switch c optarg o; after_k o'
          end
      end
  end.

Fixpoint getopt_loop (argv0 : string) (args : list string) (o : opts)
    {struct args} : prog opts :=
  match args with
  | [] => mret o
  | a :: rest =>
      match a with
      | String dash (String c s) =>
          if negb (Ascii.eqb dash "-") then getopt_loop argv0 rest o
          else if (Ascii.eqb c "-" && String.eqb s "")%bool then mret o
          else
            getopt_cluster argv0 (getopt_loop argv0 rest)
              match rest with
              | [] => None
              | optarg :: rest' => Some (optarg, getopt_loop argv0 rest')
              end c s o
      | _ => getopt_loop argv0 rest o
      end
  end.

(** Parse commandline. *)
Definition parseOptions (argv : list string) : prog opts :=
  o ← match argv with
      | [] => mret opts0
      | argv0 :: args => getopt_loop argv0 args opts0
      end;
  (* All arguments are required *)
  if (negb (setk o) || negb (setl o) || negb (setn o))%bool then
    (if setk o then mret tt
     else emit (Stderr "Error: DADA key not set\n" []));;
    (if setl o then mret tt
     else emit (Stderr "Error: Log file not set\n" []));;
    (if setn o then mret tt
     else emit (Stderr "Error: DADA key not set\n" []));;
    exit EXIT_FAILURE
  else mret o.

(* ===================================================================== *)
(** * Ring buffer header *)

(** First value stored under a key of the header block. *)
Fixpoint header_find (h : header) (k : string) : option hvalue :=
  match h with
  | [] => None
  | (k', v) :: h' => if String.eqb k' k then Some v else header_find h' k
  end.

(** [ascii_header_get(header, key, format, &var)] of PSRDADA, one function
    per conversion: the variable is assigned when the key is present and its
    value scans under the format, and is left as it was otherwise. *)
Definition ascii_header_get_lf (h : header) (k : string) (var : float)
  : float :=
  match header_find h k with
  | Some (HDouble f) => f
  | _ => var
  end.

(** The conversion [%s] into an array of [size] bytes.  The scanned word
    and its terminating null byte are stored whatever the size of the
    array: a word of [size] characters or more is written past its end,
    into whatever lies behind it.  [None] stands for that. *)
Definition ascii_header_get_s (h : header) (k : string) (size : nat)
    (var : string) : option string :=
  match header_find h k with
  | Some (HString s) =>
      if (String.length s <? size)%nat then Some s else None
  | _ => Some var
  end.

Definition ascii_header_get_i (h : header) (k : string) (var : Z) : Z :=
  match header_find h k with
  | Some (HInt z) => z
  | _ => var
  end.

(** The eleven [ascii_header_get] calls of [init_ringbuffer].  The one for
    SOURCE scans into [char source_name[256]]; the others assign a
    [double] or an [int].  [None]: the source name did not fit its array
    and the behaviour is undefined from there. *)
Definition parse_header (h : header) (g : globals) : option globals :=
  name ← ascii_header_get_s h "SOURCE" 256 (source_name g);
  Some
    {| output := output g;
       runlog := runlog g;
       science_case := ascii_header_get_i h "SCIENCE_CASE" (science_case g);
       science_mode := ascii_header_get_i h "SCIENCE_MODE" (science_mode g);
       padded_size := ascii_header_get_i h "PADDED_SIZE" (padded_size g);
       min_frequency
       := ascii_header_get_lf h "MIN_FREQUENCY" (min_frequency g);
       bandwidth := ascii_header_get_lf h "BW" (bandwidth g);
       ra := ascii_header_get_lf h "RA" (ra g);
       dec := ascii_header_get_lf h "DEC" (dec g);
       source_name := name;
       az_start := ascii_header_get_lf h "AZ_START" (az_start g);
       za_start := ascii_header_get_lf h "ZA_START" (za_start g);
       mjd_start := ascii_header_get_lf h "MJD_START" (mjd_start g);
       tsamp := tsamp g;
       ntimes := ntimes g;
       ntabs := ntabs g |}.

(** Open a connection to the ringbuffer. *)
Definition init_ringbuffer (e : env) (key : string) (g : globals)
  : prog globals :=
  LOG g "dadafilterbank SHMKEY: %s\n" [AStr key];;
  (* connect *)
  emit (HduConnect key);;
  (if env_connect_ok e then mret tt
   else LOG g "ERROR in dada_hdu_connect\n" [];; exit EXIT_FAILURE);;
  (* Make data buffers readable *)
  emit HduLockRead;;
  (if env_lock_ok e then mret tt
   else LOG g "ERROR in dada_hdu_open_view\n" [];; exit EXIT_FAILURE);;
  (* get write address *)
  match env_header e with
  | None => LOG g "ERROR. Get next header block error\n" [];; exit EXIT_FAILURE
  | Some h =>
      (* parse header *)
      match parse_header h g with
      | None => fault
      | Some g' =>
          (* tell the ringbuffer the header has been read *)
          emit HeaderCleared;;
          (if env_header_clear_ok e then mret tt
           else LOG g' "ERROR. Cannot mark the header as cleared\n" [];;
                exit EXIT_FAILURE);;
          LOG g' "psrdada HEADER:\n%s\n" [AHeader h];;
          mret g'
      end
  end.

(* ===================================================================== *)
(** * Output files *)

(** The first [n] characters of a string. *)
Fixpoint string_take (n : nat) (s : string) : string :=
  match n, s with
  | Datatypes.S n', String c s' => String c (string_take n' s')
  | _, _ => EmptyString
  end.

(** [snprintf(buf, size, ...)]: at most [size - 1] characters of the
    formatted text are stored. *)
Definition snprintf (size : Z) (text : string) : string :=
  string_take (Z.to_nat (size - 1)) text.

(** [%i]. *)
Definition fmt_i (z : Z) : string := NilZero.string_of_int (Z.to_int z).

(** [%02i]: padded with zeros on the left to two characters. *)
Definition fmt_02i (z : Z) : string :=
  let s := fmt_i z in
  if (String.length s <? 2)%nat then String "0" s else s.

(** [output[i]]; the array has [MAXTABS] elements. *)
Definition output_at (g : globals) (i : Z) : Z :=
  default 0 (output g !! Z.to_nat i).

(** The file name chosen in the loop of [open_files]. *)
Definition fname_of (prefix : string) (ntabs tab : Z) : string :=
  if ntabs =? 1 then snprintf 256 (prefix +:+ ".fil")
  else snprintf 256 (prefix +:+ "_" +:+ fmt_02i (tab + 1) +:+ ".fil").

(** The arguments after the file name in the call of
    [filterbank_create]. *)
Definition fb_header_of (g : globals) (ntabs tab : Z) : fb_header :=
  {| fb_telescope_id := 10;
     fb_machine_id := 15;
     fb_source_name := source_name g;
     fb_az_start := az_start g;
     fb_za_start := za_start g;
     fb_src_raj := ra g;
     fb_src_dej := dec g;
     fb_tstart := mjd_start g;
     fb_tsamp := tsamp g;
     fb_nbits := nbit;
     fb_fch1 := min_frequency g;
     fb_foff := (-1 * bandwidth g / 1536)%float;
     fb_nchans := nchannels;
     fb_nbeams := ntabs;
     fb_ibeam := tab + 1;
     fb_nifs := 1 |}.

(** One turn of the loop of [open_files]: open filterbank file, keep its
    descriptor in [output[tab]].  Storing past the end of the array is
    undefined. *)
Definition open_file (e : env) (prefix : string) (ntabs tab : Z)
    (g : globals) : prog globals :=
  let fd := env_fds e (Z.to_nat tab) in
  emit (FbCreate (fname_of prefix ntabs tab) (fb_header_of g ntabs tab) fd);;
  if tab <? MAXTABS
  then mret (set_output (<[Z.to_nat tab := fd]> (output g)) g)
  else fault.

(** [open_files(prefix, ntabs)]. *)
Definition open_files (e : env) (prefix : string) (ntabs : Z) (g : globals)
  : prog globals :=
  forM_lt ntabs (open_file e prefix ntabs) g.

(** [close_files()]. No caller in [main.c]. *)
Definition close_files (g : globals) : prog unit :=
  forM_lt (ntabs g) (fun tab _ => emit (FbClose (output_at g tab))) tt.

(** One turn of the loop of [sigint_handler]:
    [if (output[i]) { fsync(output[i]); filterbank_close(output[i]); }]. *)
Definition sigint_close (g : globals) (i : Z) (_ : unit) : prog unit :=
  if output_at g i =? 0 then mret tt
  else emit (Fsync (output_at g i));; emit (FbClose (output_at g i)).

(** Catch SIGINT then sync and close files before exiting. *)
Definition sigint_handler (g : globals) : prog unit :=
  LOG g "SIGINT received, aborting\n" [];;
  forM_lt (ntabs g) (sigint_close g) tt;;
  exit EXIT_FAILURE.

(* ===================================================================== *)
(** * Parameters derived from the header *)

(** [main], the branch on [science_case]. *)
Definition main_science_case (g : globals) : prog globals :=
  if science_case g =? 3 then
    (* NTIMES (12500) per 1.024 seconds -> 0.00008192 [s] *)
    mret (set_sampling 12500 (1.024 / 12500)%float g)
  else if science_case g =? 4 then
    (* NTIMES (25000) per 1.024 seconds -> 0.00004096 [s] *)
    mret (set_sampling 25000 (1.024 / 25000)%float g)
  else
    LOG g "Error: Illegal science case '%i'" [AInt (science_mode g)];;
    exit EXIT_FAILURE.

(** [main], the branch on [science_mode]. *)
Definition main_science_mode (g : globals) : prog globals :=
  if science_mode g =? 0 then
    (* I + TAB *)
    let g' := set_ntabs 12 g in
    LOG g' "Science mode: I + TAB\n" [];; mret g'
  else if science_mode g =? 2 then
    (* I + IAB *)
    let g' := set_ntabs 1 g in
    LOG g' "Science mode: I + IAB\n" [];; mret g'
  else if ((science_mode g =? 1) || (science_mode g =? 3))%bool then
    LOG g "Error: modes IQUV+TAB / IQUV+IAB not supported" [];;
    exit EXIT_FAILURE
  else
    LOG g "Error: Illegal science mode '%i'" [AInt (science_mode g)];;
    exit EXIT_FAILURE.

(** [main] from the first test of [science_case] to the last of
    [science_mode]. *)
Definition main_resolve (e : env) (file_prefix : string) (g : globals)
  : prog globals :=
  g ← main_science_case g;
  LOG g "dadafilterbank version: %s\n" [AStr (env_VERSION e)];;
  LOG g "Science case = %i\n" [AInt (science_case g)];;
  LOG g "Filename prefix = %s\n" [AStr file_prefix];;
  main_science_mode g.

(* ===================================================================== *)
(** * Processing a page *)

(** Index written in [buffer]: [time*nchannels+nchannels-channel-1]. *)
Definition buffer_index (time channel : Z) : Z :=
  usub (usub (uadd (umul time nchannels) nchannels) channel) 1.

(** Index read in [page]:
    [(tab*nchannels + channel) * padded_size + time]. *)
Definition page_index (g : globals) (tab channel time : Z) : Z :=
  uadd (umul (uadd (umul tab nchannels) channel) (padded_size g)) time.

(** The loops over [channel] and [time] for one [tab]:
    page [NTABS, nchannels, time(padded_size)] to file [time, nchannels],
    frequency order reversed. *)
Definition transcode (g : globals) (tab : Z) (page buffer : mem) : mem :=
  for_lt nchannels (fun channel buffer =>
    for_lt (ntimes g) (fun time buffer =>
      store buffer (buffer_index time channel)
            (page (page_index g tab channel time))) buffer) buffer.

(** What [write(output[tab], buffer, sizeof(char) * ntimes * nchannels)]
    is handed. *)
Definition block_of (g : globals) (buffer : mem) : list byte :=
  bytes_of buffer (ntimes g * nchannels).

(** One turn of the loop over [tab]: fill [buffer], write it out. *)
Definition process_tab (g : globals) (page : mem) (tab : Z) (buffer : mem)
  : prog mem :=
  let buffer' := transcode g tab page buffer in
  emit (Write (output_at g tab) (block_of g buffer'));;
  mret buffer'.

(** The loop over [tab] for one page; [buffer] is reused from beam to
    beam. *)
Definition process_page (g : globals) (page buffer : mem) : prog mem :=
  forM_lt (ntabs g) (process_tab g page) buffer.

(** State left by the [while] loop of [main]. *)
Record loop_state := {
  ls_buffer : mem;
  ls_page_count : Z;
  (** answer of the [ipcbuf_eod] test that follows the loop *)
  ls_eod : bool
}.

(** [while (!quit && !ipcbuf_eod(data_block)) ...]. *)
Fixpoint main_loop (g : globals) (script : rb_script) (buffer : mem)
    (page_count : Z) : prog loop_state :=
  match script with
  | RbEod =>
      mret {| ls_buffer := buffer; ls_page_count := page_count;
              ls_eod := true |}
  | RbNull eod =>
      mret {| ls_buffer := buffer; ls_page_count := page_count;
              ls_eod := eod |}
  | RbPage page rest =>
      buffer' ← process_page g page buffer;
      emit PageCleared;;
      main_loop g rest buffer' (page_count + 1)
  end.

(** [main] after [signal(SIGINT, sigint_handler)]; falling off the end of
    [main] is exit status 0. *)
Definition main_stream (e : env) (g : globals) : prog Z :=
  st ← main_loop g (env_script e) (env_heap e) 0;
  (if ls_eod st then LOG g "End of data received\n" [] else mret tt);;
  emit HduUnlockRead;;
  emit HduDisconnect;;
  LOG g "Read %i pages\n" [AInt (ls_page_count st)];;
  mret 0.

(** [main]: set up logging.  Yields the key, the file prefix and the
    globals.  The three strings are set once [parseOptions] returns. *)
Definition main_logging (e : env) (o : opts)
  : prog (string * string * globals) :=
  match key o, prefix o, logfile o with
  | Some key, Some file_prefix, Some logfile =>
      if env_logfile_ok e then
        let g := set_runlog true globals0 in
        LOG g "Logging to logfile: %s\n" [AStr logfile];;
        mret (key, file_prefix, g)
      else
        LOG globals0 "ERROR opening logfile: %s\n" [AStr logfile];;
        exit EXIT_FAILURE
  | _, _, _ => fault
  end.

(** [main]: parse commandline, set up logging. *)
Definition main_startup (e : env) (argv : list string)
  : prog (string * string * globals) :=
  o ← parseOptions argv;
  main_logging e o.

(** [main] from [init_ringbuffer] up to and including
    [signal(SIGINT, sigint_handler)]. *)
Definition main_setup (e : env) (key file_prefix : string) (g : globals)
  : prog globals :=
  (* connect to ring buffer *)
  g ← init_ringbuffer e key g;
  g ← main_resolve e file_prefix g;
  (* create filterbank files, and close files on C-c *)
  g ← open_files e file_prefix (ntabs g) g;
  emit SignalInstall;;
  mret g.

(** [main] from [init_ringbuffer] to its end, when no signal arrives. *)
Definition main_run (e : env) (key file_prefix : string) (g : globals)
  : prog Z :=
  g ← main_setup e key file_prefix g;
  main_stream e g.

(** [main] once [init_ringbuffer] has returned, when no signal arrives. *)
Definition main_tail (e : env) (file_prefix : string) (g : globals) : prog Z :=
  (g ← main_resolve e file_prefix g;
   g ← open_files e file_prefix (ntabs g) g;
   emit SignalInstall;;
   mret g) ≫= main_stream e.

(** The program, when no signal arrives. *)
Definition main (e : env) (argv : list string) : prog Z :=
  '(key, file_prefix, g) ← main_startup e argv;
  main_run e key file_prefix g.

(** SIGINT delivered once the handler is installed, after [k] further
    events of [main]: the handler runs there, and the rest of [main] would
    follow if it returned.  A signal that comes after the last event finds
    the process gone. *)
Definition interrupted {A} (k : nat) (m : prog A) (handler : prog unit)
  : prog A :=
  if (k <? length (trace m))%nat then
    match handler with
    | (th, Ret _) => (take k (trace m) ++ th ++ drop k (trace m), result m)
    | (th, Exit c) => (take k (trace m) ++ th, Exit c)
    | (th, Fault) => (take k (trace m) ++ th, Fault)
    end
  else m.

Definition main_sigint (e : env) (argv : list string) (k : nat) : prog Z :=
  '(key, file_prefix, g) ← main_startup e argv;
  g ← main_setup e key file_prefix g;
  interrupted k (main_stream e g) (sigint_handler g).

(* ===================================================================== *)
(** * Observations on traces *)

(** The [write] calls of a trace, in order. *)
Fixpoint writes (tr : list event) : list (Z * list byte) :=
  match tr with
  | [] => []
  | Write fd data :: tr' => (fd, data) :: writes tr'
  | _ :: tr' => writes tr'
  end.

(** The blocks written to one descriptor, in order. *)
Fixpoint writes_to (fd : Z) (tr : list event) : list (list byte) :=
  match tr with
  | [] => []
  | Write fd' data :: tr' =>
      if fd' =? fd then data :: writes_to fd tr' else writes_to fd tr'
  | _ :: tr' => writes_to fd tr'
  end.

(** The names handed to [filterbank_create], in order. *)
Fixpoint created (tr : list event) : list string :=
  match tr with
  | [] => []
  | FbCreate fname _ _ :: tr' => fname :: created tr'
  | _ :: tr' => created tr'
  end.

(** The descriptors returned by [filterbank_create], in order. *)
Fixpoint opened (tr : list event) : list Z :=
  match tr with
  | [] => []
  | FbCreate _ _ fd :: tr' => fd :: opened tr'
  | _ :: tr' => opened tr'
  end.

(** Number of [filterbank_close] calls on a descriptor. *)
Fixpoint closes (fd : Z) (tr : list event) : nat :=
  match tr with
  | [] => O
  | FbClose fd' :: tr' =>
      if fd' =? fd then Datatypes.S (closes fd tr') else closes fd tr'
  | _ :: tr' => closes fd tr'
  end.

(** Number of [fsync] calls on a descriptor. *)
Fixpoint syncs (fd : Z) (tr : list event) : nat :=
  match tr with
  | [] => O
  | Fsync fd' :: tr' =>
      if fd' =? fd then Datatypes.S (syncs fd tr') else syncs fd tr'
  | _ :: tr' => syncs fd tr'
  end.

(** Events on the output files. *)
Definition is_file_event (ev : event) : bool :=
  match ev with
  | FbCreate _ _ _ | Write _ _ | Fsync _ | FbClose _ => true
  | _ => false
  end.

Definition file_events (tr : list event) : list event :=
  List.filter is_file_event tr.

(** Classes of events. *)
Definition is_stderr (ev : event) : Prop :=
  match ev with
  | Stderr _ _ => True
  | _ => False
  end.

Definition is_console (ev : event) : Prop :=
  match ev with
  | Stdout _ _ | Stderr _ _ | Runlog _ _ => True
  | _ => False
  end.

(** Neither [fsync] nor [filterbank_close]. *)
Definition keeps_open (ev : event) : Prop :=
  match ev with
  | Fsync _ | FbClose _ => False
  | _ => True
  end.

(** No call of [filterbank_create]. *)
Definition creates_nothing (ev : event) : Prop :=
  match ev with
  | FbCreate _ _ _ => False
  | _ => True
  end.

(** What [main] does once the handler is installed: logging, writing,
    releasing pages, leaving the ring buffer. *)
Definition is_stream_event (ev : event) : Prop :=
  match ev with
  | Stdout _ _ | Runlog _ _ | Write _ _ | PageCleared
  | HduUnlockRead | HduDisconnect => True
  | _ => False
  end.

(** The computation ends in failure: [exit(EXIT_FAILURE)] or a fault. *)
Definition fails {A} (m : prog A) : Prop :=
  result m = Exit EXIT_FAILURE \/ result m = Fault.

(** A computation of the command line parser behaves: it writes to stderr
    only, and it returns or exits with failure. *)
Definition cmdline_ok {A} (m : prog A) : Prop :=
  Forall is_stderr (trace m) /\
  ((exists a, result m = Ret a) \/ result m = Exit EXIT_FAILURE).

(** Events that leave the output files alone. *)
Definition off_file (ev : event) : Prop := is_file_event ev = false.

(** The ring buffer hands over the given pages, then signals end of data. *)
Definition pages_then_eod (pages : list mem) : rb_script :=
  fold_right RbPage RbEod pages.

(** The blocks written for one page, one per beam, in the order of the
    loop over [tab]. *)
Definition page_blocks (g : globals) (page buffer : mem) : list (list byte) :=
  List.map snd (writes (trace (process_page g page buffer))).

(** The block of one beam for one page, computed in a zeroed buffer. *)
Definition beam_block (g : globals) (tab : Z) (page : mem) : list byte :=
  block_of g (transcode g tab page (fun _ => x00)).

(** The [write] of a beam's block of a page. *)
Definition write_beam (g : globals) (page : mem) (tab : Z) : event :=
  Write (output_at g tab) (beam_block g tab page).

(** Cell (c, t) of beam [b] as laid out in the page shows up in the block
    written for beam [b] at time [t], channel [nchannels - 1 - c]. *)
Definition gathers (g : globals) (page buffer : mem) (b c t : Z) : Prop :=
  exists block,
    page_blocks g page buffer !! Z.to_nat b = Some block /\
    block !! Z.to_nat (t * nchannels + (nchannels - 1 - c))
    = Some (page ((b * nchannels + c) * padded_size g + t)).

(** Two pages hold the same samples: they agree on every cell (b, c, t)
    with [t < ntimes]; what lies between [ntimes] and [padded_size] is
    free. *)
Definition same_samples (g : globals) (page1 page2 : mem) : Prop :=
  forall b c t,
    0 <= b < ntabs g -> 0 <= c < nchannels -> 0 <= t < ntimes g ->
    page1 ((b * nchannels + c) * padded_size g + t)
    = page2 ((b * nchannels + c) * padded_size g + t).

(** What [main] derives from the science case and mode. *)
Definition samples_for (sc : Z) : Z := if sc =? 3 then 12500 else 25000.
Definition interval_for (sc : Z) : float :=
  if sc =? 3 then (1.024 / 12500)%float else (1.024 / 25000)%float.
Definition beams_for (sm : Z) : Z := if sm =? 0 then 12 else 1.

(** The science case and mode are among those [main] accepts. *)
Definition supported (g : globals) : Prop :=
  (science_case g = 3 \/ science_case g = 4) /\
  (science_mode g = 0 \/ science_mode g = 2).

(** The array [output] once [open_files] has stored [count] descriptors
    from index [start] on. *)
Definition outputs_from (e : env) (start : Z) (count : nat) (out : list Z)
  : list Z :=
  for_from start count
    (fun tab out => <[Z.to_nat tab := env_fds e (Z.to_nat tab)]> out) out.

(** The [filterbank_create] of a beam. *)
Definition create_beam (e : env) (prefix : string) (g : globals)
    (ntabs tab : Z) : event :=
  FbCreate (fname_of prefix ntabs tab) (fb_header_of g ntabs tab)
           (env_fds e (Z.to_nat tab)).

(** The header block has no line for a key. *)
Definition omits (h : header) (k : string) : Prop := header_find h k = None.

(** The initial values of the three integers read from the header,
    written as header lines. *)
Definition default_fields : header :=
  [("SCIENCE_CASE"%string, HInt 3); ("SCIENCE_MODE"%string, HInt 2);
   ("PADDED_SIZE"%string, HInt 12500)].

(** The header with those lines added after its own: a key the header
    already has keeps its line, a key it omits gets the default. *)
Definition supply_defaults (h : header) : header := h ++ default_fields.

(** The same world with another header block. *)
Definition with_header (e : env) (h : header) : env :=
  {| env_VERSION := env_VERSION e;
     env_logfile_ok := env_logfile_ok e;
     env_connect_ok := env_connect_ok e;
     env_lock_ok := env_lock_ok e;
     env_header := Some h;
     env_header_clear_ok := env_header_clear_ok e;
     env_fds := env_fds e;
     env_heap := env_heap e;
     env_script := env_script e |}.

(** The calls on the ring buffer made before the pages succeed. *)
Definition transport_ready (e : env) : Prop :=
  env_connect_ok e = true /\ env_lock_ok e = true /\
  env_header_clear_ok e = true.

(** The descriptors of the beams are pairwise distinct. *)
Definition distinct_outputs (g : globals) : Prop :=
  forall b b', 0 <= b < ntabs g -> 0 <= b' < ntabs g ->
               output_at g b = output_at g b' -> b = b'.

(* ===================================================================== *)
(** * Further observations *)

(** An element of the command line that [getopt] does not read as
    options: it is empty, a single character, or starts with something
    else than a dash. *)
Definition is_operand (a : string) : bool :=
  match a with
  | String dash (String _ _) => negb (Ascii.eqb dash "-")
  | _ => true
  end.

(** The strings set by the options seen so far are there. *)
Definition opts_consistent (o : opts) : Prop :=
  (setk o = true -> is_Some (key o)) /\
  (setl o = true -> is_Some (logfile o)) /\
  (setn o = true -> is_Some (prefix o)).

(** A computation of the parser that, when it returns, has printed
    nothing and hands back consistent options. *)
Definition returns_quietly (m : prog opts) : Prop :=
  forall o, result m = Ret o -> opts_consistent o /\ trace m = [].

(** The pages a script delivers, and the answer of [ipcbuf_eod] after the
    loop. *)
Fixpoint pages_of (script : rb_script) : list mem :=
  match script with
  | RbEod | RbNull _ => []
  | RbPage page rest => page :: pages_of rest
  end.

Fixpoint ends_with_eod (script : rb_script) : bool :=
  match script with
  | RbEod => true
  | RbNull eod => eod
  | RbPage _ rest => ends_with_eod rest
  end.

(** What the loop of [main] does with one page: one [write] per beam, then
    the page is marked cleared. *)
Definition page_events (g : globals) (page : mem) : list event :=
  List.map (write_beam g page) (seqZ 0 (ntabs g)) ++ [PageCleared].

(** What [main] does after the loop. *)
Definition closing_events (eod : bool) (page_count : Z) : list event :=
  (if eod
   then [Stdout "End of data received\n" []; Runlog "End of data received\n" []]
   else [])
  ++ [HduUnlockRead; HduDisconnect;
      Stdout "Read %i pages\n" [AInt page_count];
      Runlog "Read %i pages\n" [AInt page_count]].

(** What the handler does for one beam. *)
Definition handler_events (g : globals) (i : Z) : list event :=
  if output_at g i =? 0 then []
  else [Fsync (output_at g i); FbClose (output_at g i)].

(** Number of [ipcbuf_mark_cleared] calls on the data block. *)
Fixpoint cleared (tr : list event) : nat :=
  match tr with
  | [] => O
  | PageCleared :: tr' => Datatypes.S (cleared tr')
  | _ :: tr' => cleared tr'
  end.

(** Neither [dada_hdu_unlock_read] nor [dada_hdu_disconnect]. *)
Definition stays_connected (ev : event) : Prop :=
  match ev with
  | HduUnlockRead | HduDisconnect => False
  | _ => True
  end.

(** No [write]. *)
Definition writes_nothing (ev : event) : Prop :=
  match ev with
  | Write _ _ => False
  | _ => True
  end.

(** A beam below [r] counts one. *)
Definition one_if_below (b r : Z) : nat := if b <? r then 1%nat else 0%nat.

(* ===================================================================== *)
(** * Sample inputs *)

(** Globals as [main] has them once the header is parsed and resolved, for
    a header whose source name fits. *)
Definition resolved (h : header) (n : Z) (ts : float) (tabs : Z) : globals :=
  set_ntabs tabs
    (set_sampling n ts
       (default (set_runlog true globals0)
          (parse_header h (set_runlog true globals0)))).

(** A header with nothing but the source name: every parameter is left at
    its initial value. *)
Definition bare_header : header := [("SOURCE"%string, HString "B0329+54")].
Definition bare_globals : globals :=
  resolved bare_header 12500 (1.024 / 12500)%float 1.

(** One beam, rows padded to 25088 bytes. *)
Definition padded_header : header :=
  [("SCIENCE_CASE"%string, HInt 3); ("SCIENCE_MODE"%string, HInt 2);
   ("PADDED_SIZE"%string, HInt 25088)].
Definition padded_globals : globals :=
  resolved padded_header 12500 (1.024 / 12500)%float 1.

(** Twelve beams, rows padded to 262145 bytes: a page of 4.8 GB. *)
Definition wide_header : header :=
  [("SCIENCE_CASE"%string, HInt 3); ("SCIENCE_MODE"%string, HInt 0);
   ("PADDED_SIZE"%string, HInt 262145)].
Definition wide_globals : globals :=
  resolved wide_header 12500 (1.024 / 12500)%float 12.

(** A world where every call succeeds and descriptors are handed out from
    4 upwards. *)
Definition sample_env (h : header) (script : rb_script) : env :=
  {| env_VERSION := "1.0";
     env_logfile_ok := true;
     env_connect_ok := true;
     env_lock_ok := true;
     env_header := Some h;
     env_header_clear_ok := true;
     env_fds := fun k => 4 + Z.of_nat k;
     env_heap := fun _ => x00;
     env_script := script |}.

Definition sample_argv : list string :=
  ["dadafilterbank"; "-k"; "dada"; "-l"; "log.txt"; "-n"; "test"]%string.

(** The globals of the twelve-beam run once its files are open. *)
Definition wide_open_globals : globals :=
  set_output [4; 5; 6; 7; 8; 9; 10; 11; 12; 13; 14; 15] wide_globals.

(** A string of [n] copies of a character. *)
Fixpoint string_repeat (c : ascii) (n : nat) : string :=
  match n with
  | O => EmptyString
  | Datatypes.S n' => String c (string_repeat c n')
  end.

(** A header whose source name has 256 characters, one more than
    [source_name] holds beside its terminating null byte. *)
Definition long_source_header : header :=
  [("SOURCE"%string, HString (string_repeat "x" 256))].

(** Science mode 1 with a supported, and with an unsupported, science
    case. *)
Definition polarization_header : header :=
  [("SCIENCE_CASE"%string, HInt 4); ("SCIENCE_MODE"%string, HInt 1)].
Definition illegal_case_header : header :=
  [("SCIENCE_CASE"%string, HInt 5); ("SCIENCE_MODE"%string, HInt 1)].

(** A world where the log file cannot be opened. *)
Definition no_log_env : env :=
  {| env_VERSION := "1.0";
     env_logfile_ok := false;
     env_connect_ok := true;
     env_lock_ok := true;
     env_header := Some bare_header;
     env_header_clear_ok := true;
     env_fds := fun k => 4 + Z.of_nat k;
     env_heap := fun _ => x00;
     env_script := RbEod |}.

(** A page of zeros, and one with a single byte set. *)
Definition blank_page : mem := fun _ => x00.
Definition marked_page (at_offset : Z) : mem :=
  fun i => if i =? at_offset then x01 else x00.

(* ===================================================================== *)
(** * The definitions at work *)

Example parseOptions_sample :
  parseOptions sample_argv
  = ([], Ret {| key := Some "dada"; prefix := Some "test";
                logfile := Some "log.txt";
                setk := true; setl := true; setn := true |}%string).
Proof. reflexivity. Qed.

Example parseOptions_attached_and_skipped :
  result (parseOptions ["dadafilterbank"; "x"; "-kdada"; "-l"; "-n"; "-nobs";
                        "--"; "-b"]%string)
  = Ret {| key := Some "dada"; prefix := Some "obs"; logfile := Some "-n";
           setk := true; setl := true; setn := true |}%string.
Proof. reflexivity. Qed.

Example parseOptions_missing_log :
  parseOptions ["dadafilterbank"; "-k"; "dada"; "-n"; "obs"]%string
  = ([Stderr "Error: Log file not set\n" []], Exit EXIT_FAILURE).
Proof. reflexivity. Qed.

Example fmt_02i_pads : fmt_02i 7 = "07"%string /\ fmt_02i 12 = "12"%string.
Proof. split; reflexivity. Qed.

Example fname_of_beams :
  fname_of "obs" 1 0 = "obs.fil"%string /\
  fname_of "obs" 12 0 = "obs_01.fil"%string /\
  fname_of "obs" 12 11 = "obs_12.fil"%string.
Proof. repeat split; reflexivity. Qed.

Example buffer_index_corners :
  buffer_index 0 0 = 1535 /\ buffer_index 0 1535 = 0 /\
  buffer_index 12499 0 = 19199999.
Proof. repeat split; reflexivity. Qed.

Example page_index_rows :
  page_index padded_globals 0 0 12499 = 12499 /\
  page_index padded_globals 0 1 0 = 25088 /\
  page_index wide_globals 11 1535 12499 = 536639698.
Proof. repeat split; reflexivity. Qed.

(** The three loops run on a page of two samples per channel, rows of three
    bytes: the byte of channel 5 at time 1 lands at time 1, channel
    [1535 - 5]; its neighbour is overwritten by a zero of the page, and the
    byte after the block is left as it was. *)
Example transcode_two_samples :
  let g := set_sampling 2 (1.024 / 12500)%float
             (default globals0
                (parse_header [("PADDED_SIZE"%string, HInt 3)] globals0)) in
  let buffer := transcode g 0 (marked_page (5 * 3 + 1)) (fun _ => x02) in
  buffer (1 * 1536 + 1530) = x01 /\ buffer (1 * 1536 + 1529) = x00 /\
  buffer (2 * 1536) = x02.
Proof. vm_compute. repeat split; reflexivity. Qed.

Example main_sample_run :
  result (main (sample_env bare_header RbEod) sample_argv) = Ret 0 /\
  file_events (trace (main (sample_env bare_header RbEod) sample_argv))
  = [FbCreate "test.fil" (fb_header_of bare_globals 1 0) 4].
Proof. vm_compute. split; reflexivity. Qed.

(** A source name of 255 characters fits; with one of 256 the scan writes
    past the array, and the run ends there: the ring buffer is connected
    and locked, the header block is not marked cleared. *)
Example parse_header_source_bound :
  is_Some (parse_header [("SOURCE"%string, HString (string_repeat "x" 255))]
             globals0) /\
  parse_header long_source_header globals0 = None.
Proof. split; [eexists|]; vm_compute; reflexivity. Qed.

Example main_long_source :
  main (sample_env long_source_header RbEod) sample_argv
  = ([Stdout "Logging to logfile: %s\n" [AStr "log.txt"];
      Runlog "Logging to logfile: %s\n" [AStr "log.txt"];
      Stdout "dadafilterbank SHMKEY: %s\n" [AStr "dada"];
      Runlog "dadafilterbank SHMKEY: %s\n" [AStr "dada"];
      HduConnect "dada"; HduLockRead], Fault).
Proof. vm_compute. reflexivity. Qed.

(* ===================================================================== *)
(** * Lemmas: the program monad *)

Section ProgMonad.
Context {A B : Type}.

Lemma bind_ret (t : list event) (a : A) (k : A -> prog B) :
  ((t, Ret a) : prog A) ≫= k = (t ++ trace (k a), result (k a)).
Proof.
  unfold mbind, prog_bind, trace, result. destruct (k a); reflexivity.
Qed.

Lemma bind_exit (t : list event) (c : Z) (k : A -> prog B) :
  ((t, Exit c) : prog A) ≫= k = (t, Exit c).
Proof. reflexivity. Qed.

Lemma bind_fault (t : list event) (k : A -> prog B) :
  ((t, Fault) : prog A) ≫= k = (t, Fault).
Proof. reflexivity. Qed.

Lemma mret_bind (a : A) (k : A -> prog B) : mret a ≫= k = k a.
Proof.
  unfold mret, prog_ret. rewrite bind_ret.
  unfold trace, result. destruct (k a); reflexivity.
Qed.

(** What a sequence does, once the first part is known to return. *)
Lemma bind_returns (m : prog A) (k : A -> prog B) (a : A) :
  result m = Ret a ->
  trace (m ≫= k) = trace m ++ trace (k a) /\
  result (m ≫= k) = result (k a).
Proof.
  intros H. destruct m as [t o]. simpl in H. subst o.
  rewrite bind_ret. auto.
Qed.

Lemma trace_bind_ret (m : prog A) (k : A -> prog B) (a : A) :
  result m = Ret a -> trace (m ≫= k) = trace m ++ trace (k a).
Proof. intros H. now apply bind_returns. Qed.

Lemma result_bind_ret (m : prog A) (k : A -> prog B) (a : A) :
  result m = Ret a -> result (m ≫= k) = result (k a).
Proof. intros H. now apply bind_returns. Qed.

Lemma trace_bind_exit (m : prog A) (k : A -> prog B) (c : Z) :
  result m = Exit c -> trace (m ≫= k) = trace m.
Proof. destruct m as [t o]. simpl. now intros ->. Qed.

Lemma result_bind_exit (m : prog A) (k : A -> prog B) (c : Z) :
  result m = Exit c -> result (m ≫= k) = Exit c.
Proof. destruct m as [t o]. simpl. now intros ->. Qed.

Lemma trace_bind_fault (m : prog A) (k : A -> prog B) :
  result m = Fault -> trace (m ≫= k) = trace m.
Proof. destruct m as [t o]. simpl. now intros ->. Qed.

Lemma result_bind_fault (m : prog A) (k : A -> prog B) :
  result m = Fault -> result (m ≫= k) = Fault.
Proof. destruct m as [t o]. simpl. now intros ->. Qed.

End ProgMonad.

Lemma emit_bind {B} (ev : event) (k : prog B) :
  emit ev ≫= (fun _ => k) = (ev :: trace k, result k).
Proof. unfold emit. rewrite bind_ret. reflexivity. Qed.

Lemma LOG_open {B} (g : globals) fmt args (k : prog B) :
  runlog g = true ->
  LOG g fmt args ≫= (fun _ => k)
  = (Stdout fmt args :: Runlog fmt args :: trace k, result k).
Proof.
  intros H. unfold LOG. rewrite H. destruct k; reflexivity.
Qed.

(* ===================================================================== *)
(** * Lemmas: 32-bit wrap-around *)

Lemma u32_small (x : Z) : 0 <= x < 2 ^ 32 -> u32 x = x.
Proof. intros H. unfold u32. apply Z.mod_small. exact H. Qed.

Lemma uadd_mod (x y : Z) : uadd x y = u32 (x + y).
Proof. unfold uadd, u32. now rewrite <- Zplus_mod. Qed.

Lemma usub_mod (x y : Z) : usub x y = u32 (x - y).
Proof. unfold usub, u32. now rewrite <- Zminus_mod. Qed.

Lemma umul_mod (x y : Z) : umul x y = u32 (x * y).
Proof. unfold umul, u32. now rewrite <- Zmult_mod. Qed.

Lemma u32_add_l (x y : Z) : u32 (u32 x + y) = u32 (x + y).
Proof. unfold u32. apply Zplus_mod_idemp_l. Qed.

Lemma u32_sub_l (x y : Z) : u32 (u32 x - y) = u32 (x - y).
Proof. unfold u32. apply Zminus_mod_idemp_l. Qed.

Lemma u32_mul_l (x y : Z) : u32 (u32 x * y) = u32 (x * y).
Proof. unfold u32. apply Zmult_mod_idemp_l. Qed.

(** The index written in [buffer], up to wrap-around. *)
Lemma buffer_index_mod (time channel : Z) :
  buffer_index time channel
  = u32 (time * nchannels + nchannels - channel - 1).
Proof.
  unfold buffer_index.
  rewrite !usub_mod, uadd_mod, umul_mod.
  rewrite (u32_add_l (time * nchannels) nchannels).
  rewrite (u32_sub_l (time * nchannels + nchannels) channel).
  apply u32_sub_l.
Qed.

(** The index read in [page], up to wrap-around. *)
Lemma page_index_mod (g : globals) (tab channel time : Z) :
  page_index g tab channel time
  = u32 ((tab * nchannels + channel) * padded_size g + time).
Proof.
  unfold page_index.
  rewrite !uadd_mod, !umul_mod.
  rewrite (u32_add_l (tab * nchannels) channel).
  rewrite (u32_mul_l (tab * nchannels + channel) (padded_size g)).
  apply u32_add_l.
Qed.

(** No wrap-around in [buffer] while the block is at most 2^32 bytes. *)
Lemma buffer_index_exact (n time channel : Z) :
  n * nchannels <= 2 ^ 32 ->
  0 <= time < n -> 0 <= channel < nchannels ->
  buffer_index time channel = time * nchannels + (nchannels - 1 - channel).
Proof.
  intros Hn Ht Hc. rewrite buffer_index_mod.
  unfold nchannels in *. rewrite u32_small; lia.
Qed.

(** No wrap-around in [page] for a cell below offset 2^32. *)
Lemma page_index_exact (g : globals) (tab channel time : Z) :
  0 <= (tab * nchannels + channel) * padded_size g + time < 2 ^ 32 ->
  page_index g tab channel time
  = (tab * nchannels + channel) * padded_size g + time.
Proof. intros H. rewrite page_index_mod. now apply u32_small. Qed.

(* ===================================================================== *)
(** * Lemmas: loops that store into a buffer *)

Lemma store_eq (m : mem) (i : Z) (v : byte) : store m i v i = v.
Proof. unfold store. now rewrite Z.eqb_refl. Qed.

Lemma store_ne (m : mem) (i j : Z) (v : byte) : j <> i -> store m i v j = m j.
Proof. intros H. unfold store. now apply Z.eqb_neq in H as ->. Qed.

(** A cell no iteration touches keeps its value. *)
Lemma for_from_frame (body : Z -> mem -> mem) (j : Z) :
  forall (count : nat) (start : Z) (buf : mem),
    (forall i b, start <= i < start + Z.of_nat count -> body i b j = b j) ->
    for_from start count body buf j = buf j.
Proof.
  induction count as [|count IH]; intros start buf H; simpl.
  - reflexivity.
  - rewrite IH.
    + apply H. lia.
    + intros i b Hi. apply H. lia.
Qed.

(** A cell holds what the last iteration touching it left there. *)
Lemma for_from_last (body : Z -> mem -> mem) (j : Z) (x : byte) (i0 : Z) :
  forall (count : nat) (start : Z) (buf : mem),
    start <= i0 < start + Z.of_nat count ->
    (forall b, body i0 b j = x) ->
    (forall i b, i0 < i < start + Z.of_nat count -> body i b j = b j) ->
    for_from start count body buf j = x.
Proof.
  induction count as [|count IH]; intros start buf Hi0 Hhit Hlater; simpl.
  - lia.
  - destruct (Z.eq_dec i0 start) as [->|Hne].
    + rewrite for_from_frame.
      * apply Hhit.
      * intros i b Hi. apply Hlater. lia.
    + apply IH.
      * lia.
      * exact Hhit.
      * intros i b Hi. apply Hlater. lia.
Qed.

Lemma bytes_of_length (m : mem) (n : Z) :
  length (bytes_of m n) = Z.to_nat n.
Proof. unfold bytes_of. now rewrite length_map, length_seq. Qed.

Lemma bytes_of_lookup (m : mem) (n j : Z) :
  0 <= j < n -> bytes_of m n !! Z.to_nat j = Some (m j).
Proof.
  intros Hj. unfold bytes_of.
  rewrite list_lookup_fmap, lookup_seq_lt by lia.
  simpl. f_equal. f_equal. lia.
Qed.

Lemma bytes_of_ext (m1 m2 : mem) (n : Z) :
  (forall j, 0 <= j < n -> m1 j = m2 j) -> bytes_of m1 n = bytes_of m2 n.
Proof.
  intros H. unfold bytes_of. apply map_ext_in.
  intros k Hk. apply in_seq in Hk. apply H. lia.
Qed.

(* ===================================================================== *)
(** * Lemmas: the transcoder *)

Section Transcode.
Variable g : globals.
Hypothesis ntimes_fits : ntimes g * nchannels <= 2 ^ 32.

(** Distinct (channel, time) pairs write distinct cells of [buffer]. *)
Lemma buffer_index_inj (t t' c c' : Z) :
  0 <= t < ntimes g -> 0 <= t' < ntimes g ->
  0 <= c < nchannels -> 0 <= c' < nchannels ->
  buffer_index t c = buffer_index t' c' -> t = t' /\ c = c'.
Proof.
  intros Ht Ht' Hc Hc'.
  rewrite (buffer_index_exact (ntimes g)), (buffer_index_exact (ntimes g))
    by assumption.
  unfold nchannels in *. lia.
Qed.

(** After the loops for one beam, the cell of (channel, time) holds the
    byte the code read for it. *)
Lemma transcode_hit (tab : Z) (page buffer : mem) (c t : Z) :
  0 <= c < nchannels -> 0 <= t < ntimes g ->
  transcode g tab page buffer (t * nchannels + (nchannels - 1 - c))
  = page (page_index g tab c t).
Proof.
  intros Hc Ht. unfold transcode, for_lt.
  rewrite <- (buffer_index_exact (ntimes g)) by assumption.
  apply for_from_last with (i0 := c).
  - unfold nchannels in *. lia.
  - intros b. apply for_from_last with (i0 := t).
    + lia.
    + intros b'. apply store_eq.
    + intros i b' Hi. apply store_ne. intros E.
      apply buffer_index_inj in E; [lia | | | |]; try assumption; lia.
  - intros i b Hi. apply for_from_frame. intros i' b' Hi'.
    apply store_ne. intros E.
    apply buffer_index_inj in E; try assumption.
    + lia.
    + lia.
    + unfold nchannels in *. lia.
Qed.

(** Every cell of the block is written: cell [j] holds the byte read for
    channel [nchannels - 1 - j mod nchannels] at time [j / nchannels]. *)
Lemma transcode_cover (tab : Z) (page buffer : mem) (j : Z) :
  0 <= j < ntimes g * nchannels ->
  transcode g tab page buffer j
  = page (page_index g tab (nchannels - 1 - j mod nchannels)
                     (j / nchannels)).
Proof.
  intros Hj.
  assert (Hpos : 0 < nchannels) by reflexivity.
  pose proof (Z.mod_pos_bound j nchannels Hpos) as Hm.
  pose proof (Z.div_mod j nchannels ltac:(lia)) as Hd.
  assert (Ht : 0 <= j / nchannels < ntimes g).
  { split.
    - apply Z.div_pos; lia.
    - apply Z.div_lt_upper_bound; lia. }
  rewrite <- (transcode_hit tab page buffer
                (nchannels - 1 - j mod nchannels) (j / nchannels))
    by lia.
  f_equal. lia.
Qed.

(** The block of a beam does not depend on what [buffer] held before. *)
Lemma block_of_fresh (tab : Z) (page buffer buffer' : mem) :
  block_of g (transcode g tab page buffer)
  = block_of g (transcode g tab page buffer').
Proof.
  unfold block_of. apply bytes_of_ext. intros j Hj.
  now rewrite !transcode_cover.
Qed.
End Transcode.

(* ===================================================================== *)
(** * Lemmas: one page, all pages *)

Section Pages.
Variable g : globals.
Hypothesis ntimes_fits : ntimes g * nchannels <= 2 ^ 32.

Lemma process_tab_run (page : mem) (tab : Z) (buffer : mem) :
  process_tab g page tab buffer
  = ([Write (output_at g tab)
        (block_of g (transcode g tab page buffer))],
     Ret (transcode g tab page buffer)).
Proof. reflexivity. Qed.

(** The loop over [tab], started anywhere: one [write] per beam, each of
    the beam's block, and the loop returns. *)
Lemma process_page_from (page : mem) :
  forall (count : nat) (start : Z) (buffer : mem),
  exists buffer',
    forM_from start count (process_tab g page) buffer
    = (List.map (write_beam g page) (seqZ start (Z.of_nat count)),
       Ret buffer').
Proof.
  induction count as [|count IH]; intros start buffer.
  - exists buffer. reflexivity.
  - destruct (IH (start + 1) (transcode g start page buffer))
      as [buffer' E].
    exists buffer'. cbn [forM_from].
    rewrite process_tab_run, bind_ret, E. cbn [trace result fst snd].
    rewrite Nat2Z.inj_succ.
    rewrite (seqZ_cons start (Z.succ (Z.of_nat count))) by lia.
    cbn [List.map app]. unfold write_beam at 2, beam_block.
    rewrite (block_of_fresh g ntimes_fits start page buffer (fun _ => x00)).
    rewrite Z.pred_succ. now replace (Z.succ start) with (start + 1) by lia.
Qed.

Lemma process_page_run (page buffer : mem) :
  exists buffer',
    process_page g page buffer
    = (List.map (write_beam g page) (seqZ 0 (ntabs g)), Ret buffer').
Proof.
  unfold process_page, forM_lt.
  destruct (process_page_from page (Z.to_nat (ntabs g)) 0 buffer)
    as [buffer' E].
  exists buffer'. rewrite E. f_equal.
  destruct (Z_le_gt_dec 0 (ntabs g)).
  - now rewrite Z2Nat.id.
  - unfold seqZ. rewrite Nat2Z.id.
    now rewrite (Z2Nat.nonpos (ntabs g)) by lia.
Qed.

Lemma writes_write_beam (page : mem) (tabs : list Z) :
  writes (List.map (write_beam g page) tabs)
  = List.map (fun tab => (output_at g tab, beam_block g tab page)) tabs.
Proof. induction tabs as [|tab tabs IH]; simpl; congruence. Qed.

(** The blocks of a page are the blocks of its beams. *)
Lemma page_blocks_eq (page buffer : mem) :
  page_blocks g page buffer
  = List.map (fun tab => beam_block g tab page) (seqZ 0 (ntabs g)).
Proof.
  unfold page_blocks.
  destruct (process_page_run page buffer) as [buffer' ->].
  cbn [trace fst]. rewrite writes_write_beam, List.map_map.
  reflexivity.
Qed.

Lemma page_blocks_lookup (page buffer : mem) (b : Z) :
  0 <= b < ntabs g ->
  page_blocks g page buffer !! Z.to_nat b = Some (beam_block g b page).
Proof.
  intros Hb. rewrite page_blocks_eq.
  change List.map with (@fmap list _). rewrite list_lookup_fmap.
  rewrite (lookup_seqZ_lt 0 (ntabs g) (Z.to_nat b)) by lia.
  cbn [fmap option_fmap option_map].
  now replace (0 + Z.of_nat (Z.to_nat b)) with b by lia.
Qed.

(** What the loop of [main] does with pages followed by end of data. *)
Lemma main_loop_pages (pages : list mem) :
  forall (buffer : mem) (page_count : Z),
  exists buffer',
    main_loop g (pages_then_eod pages) buffer page_count
    = (flat_map (fun page =>
         List.map (write_beam g page) (seqZ 0 (ntabs g)) ++ [PageCleared])
         pages,
       Ret {| ls_buffer := buffer';
              ls_page_count := page_count + Z.of_nat (length pages);
              ls_eod := true |}).
Proof.
  induction pages as [|page pages IH]; intros buffer page_count.
  - exists buffer. simpl. now rewrite Z.add_0_r.
  - destruct (process_page_run page buffer) as [buffer1 E1].
    destruct (IH buffer1 (page_count + 1)) as [buffer' E].
    exists buffer'. cbn [pages_then_eod fold_right main_loop].
    rewrite E1, bind_ret. cbn [trace result fst snd].
    rewrite emit_bind. fold (pages_then_eod pages). rewrite E.
    cbn [trace result fst snd flat_map length].
    rewrite <- app_assoc. cbn [app].
    now replace (page_count + 1 + Z.of_nat (length pages))
      with (page_count + Z.of_nat (Datatypes.S (length pages))) by lia.
Qed.

Lemma writes_to_app (fd : Z) (tr1 tr2 : list event) :
  writes_to fd (tr1 ++ tr2) = writes_to fd tr1 ++ writes_to fd tr2.
Proof.
  induction tr1 as [|ev tr1 IH]; simpl.
  - reflexivity.
  - destruct ev; try exact IH.
    destruct (_ =? _); simpl; congruence.
Qed.

(** Among the writes of one page, a beam's descriptor receives that
    beam's block and nothing else. *)
Lemma writes_to_beams (page : mem) (b : Z) :
  forall (count : nat) (start : Z),
    0 <= start -> start + Z.of_nat count <= ntabs g ->
    0 <= b < ntabs g -> distinct_outputs g ->
    writes_to (output_at g b)
      (List.map (write_beam g page) (seqZ start (Z.of_nat count)))
    = if ((start <=? b) && (b <? start + Z.of_nat count))%bool
      then [beam_block g b page] else [].
Proof.
  induction count as [|count IH]; intros start H0 Hn Hb Hd.
  - replace ((start <=? b) && (b <? start + Z.of_nat 0))%bool
      with false by lia.
    reflexivity.
  - rewrite Nat2Z.inj_succ.
    rewrite (seqZ_cons start (Z.succ (Z.of_nat count))) by lia.
    cbn [List.map writes_to].
    unfold write_beam at 1.
    replace (Z.pred (Z.succ (Z.of_nat count))) with (Z.of_nat count)
      by lia.
    replace (Z.succ start) with (start + 1) by lia.
    rewrite IH by (assumption || lia).
    destruct (output_at g start =? output_at g b) eqn:E.
    + apply Z.eqb_eq in E. apply Hd in E; [|lia|lia]. subst start.
      replace ((b + 1 <=? b) && (b <? b + 1 + Z.of_nat count))%bool
        with false by lia.
      replace ((b <=? b) && (b <? b + Z.succ (Z.of_nat count)))%bool
        with true by lia.
      reflexivity.
    + assert (start <> b) by (intros ->; rewrite Z.eqb_refl in E; lia).
      replace ((start <=? b) && (b <? start + Z.succ (Z.of_nat count)))%bool
        with ((start + 1 <=? b) && (b <? start + 1 + Z.of_nat count))%bool
        by lia.
      reflexivity.
Qed.
End Pages.

(* ===================================================================== *)
(** * The transcoder: gather, padding, coverage *)

Lemma sample_globals_resolved (e : env) (file_prefix : string) :
  (g ← parse_header bare_header (set_runlog true globals0);
   Some (result (main_resolve e file_prefix g)))
  = Some (Ret bare_globals) /\
  (g ← parse_header padded_header (set_runlog true globals0);
   Some (result (main_resolve e file_prefix g)))
  = Some (Ret padded_globals) /\
  (g ← parse_header wide_header (set_runlog true globals0);
   Some (result (main_resolve e file_prefix g)))
  = Some (Ret wide_globals).
Proof. repeat split; reflexivity. Qed.

(** What the block of a beam holds at the cell of (channel, time): the
    byte at the index the code computes, wrap-around included. *)
Lemma beam_block_lookup (g : globals) (page : mem) (b c t : Z) :
  ntimes g * nchannels <= 2 ^ 32 ->
  0 <= c < nchannels -> 0 <= t < ntimes g ->
  beam_block g b page !! Z.to_nat (t * nchannels + (nchannels - 1 - c))
  = Some (page (page_index g b c t)).
Proof.
  intros Hfit Hc Ht. unfold beam_block, block_of.
  rewrite bytes_of_lookup by (unfold nchannels in *; lia).
  now rewrite transcode_hit.
Qed.

(** The same, seen from the blocks written for the page. *)
Lemma page_blocks_cell (g : globals) (page buffer : mem) (b c t : Z) :
  ntimes g * nchannels <= 2 ^ 32 ->
  0 <= b < ntabs g -> 0 <= c < nchannels -> 0 <= t < ntimes g ->
  match page_blocks g page buffer !! Z.to_nat b with
  | Some block =>
      block !! Z.to_nat (t * nchannels + (nchannels - 1 - c))
  | None => None
  end = Some (page (page_index g b c t)).
Proof.
  intros Hfit Hb Hc Ht.
  rewrite page_blocks_lookup by assumption.
  now apply beam_block_lookup.
Qed.

(** X24.  For beam b < ntabs, channel c < nchannels and time t < ntimes,
    the block written for beam b holds, at
    [t*nchannels + (nchannels-1-c)], the page byte at
    [(b*nchannels + c)*padded_size + t], when that offset is below 2^32
    and the block itself is at most 2^32 bytes, which both values of
    [ntimes] that [main] assigns satisfy.  For such cells the loops do
    gather the page [NTABS, NCHANNELS, padded_size] of the comment at the
    head of the file. *)
Theorem transcode_gathers (g : globals) (page buffer : mem) (b c t : Z) :
  ntimes g * nchannels <= 2 ^ 32 ->
  0 <= b < ntabs g -> 0 <= c < nchannels -> 0 <= t < ntimes g ->
  0 <= padded_size g ->
  (b * nchannels + c) * padded_size g + t < 2 ^ 32 ->
  gathers g page buffer b c t.
Proof.
  intros Hfit Hb Hc Ht Hp Hoff.
  exists (beam_block g b page). split.
  - now apply page_blocks_lookup.
  - rewrite beam_block_lookup by assumption.
    rewrite page_index_exact; [reflexivity|].
    split; [|assumption].
    assert (0 <= (b * nchannels + c) * padded_size g).
    { apply Z.mul_nonneg_nonneg; unfold nchannels in *; lia. }
    lia.
Qed.

Lemma transcode_gathers_witness :
  ntimes bare_globals * nchannels <= 2 ^ 32 /\
  0 <= 0 < ntabs bare_globals /\ 0 <= 7 < nchannels /\
  0 <= 7 < ntimes bare_globals /\ 0 <= padded_size bare_globals /\
  (0 * nchannels + 7) * padded_size bare_globals + 7 < 2 ^ 32 /\
  gathers bare_globals (marked_page 87507) blank_page 0 7 7.
Proof.
  assert (H1 : ntimes bare_globals * nchannels <= 2 ^ 32)
    by (vm_compute; discriminate).
  assert (H2 : 0 <= 0 < ntabs bare_globals)
    by (vm_compute; split; [discriminate | reflexivity]).
  assert (H3 : 0 <= 7 < nchannels)
    by (vm_compute; split; [discriminate | reflexivity]).
  assert (H4 : 0 <= 7 < ntimes bare_globals)
    by (vm_compute; split; [discriminate | reflexivity]).
  assert (H5 : 0 <= padded_size bare_globals)
    by (vm_compute; discriminate).
  assert (H6 : (0 * nchannels + 7) * padded_size bare_globals + 7 < 2 ^ 32)
    by (vm_compute; reflexivity).
  split; [exact H1|]. split; [exact H2|]. split; [exact H3|].
  split; [exact H4|]. split; [exact H5|]. split; [exact H6|].
  exact (transcode_gathers bare_globals (marked_page 87507) blank_page 0 7 7
           H1 H2 H3 H4 H5 H6).
Defined.

(** C1: the failing input.  The page is [NTABS, NCHANNELS, padded_size],
    and the index into it is computed in [unsigned int]: it wraps at 2^32.
    With twelve beams and [padded_size = 262145], the cell
    (b, c, t) = (10, 1024, 0) lies at offset 2^32 + 16384 of the page; the
    index the code computes for it is 16384, and the block written for beam
    10 holds the byte of offset 16384, a byte of the first row of beam 0,
    where the byte of the cell belongs. *)
Lemma transcode_gathers_counterexample :
  0 <= 10 < ntabs wide_globals /\ 0 <= 1024 < nchannels /\
  0 <= 0 < ntimes wide_globals /\
  (10 * nchannels + 1024) * padded_size wide_globals + 0 = 2 ^ 32 + 16384 /\
  page_index wide_globals 10 1024 0 = 16384 /\
  ~ gathers wide_globals (marked_page 16384) blank_page 10 1024 0.
Proof.
  split; [vm_compute; split; [discriminate | reflexivity]|].
  split; [vm_compute; split; [discriminate | reflexivity]|].
  split; [vm_compute; split; [discriminate | reflexivity]|].
  split; [reflexivity|]. split; [reflexivity|].
  intros [block [Hblock Hcell]].
  assert (Hfit : ntimes wide_globals * nchannels <= 2 ^ 32)
    by (vm_compute; discriminate).
  rewrite page_blocks_lookup in Hblock
    by (assumption || (vm_compute; split; [discriminate | reflexivity])).
  injection Hblock as <-.
  rewrite beam_block_lookup in Hcell
    by (assumption || (vm_compute; split; [discriminate | reflexivity])).
  vm_compute in Hcell. discriminate Hcell.
Qed.

(** The cell read for position [j] of a block is a cell of the page. *)
Lemma cell_of_position (g : globals) (j : Z) :
  0 <= j < ntimes g * nchannels ->
  0 <= nchannels - 1 - j mod nchannels < nchannels /\
  0 <= j / nchannels < ntimes g.
Proof.
  intros Hj.
  assert (Hpos : 0 < nchannels) by reflexivity.
  pose proof (Z.mod_pos_bound j nchannels Hpos).
  repeat split; try lia.
  - apply Z.div_pos; lia.
  - apply Z.div_lt_upper_bound; lia.
Qed.

(** The largest offset of a sample bounds them all. *)
Lemma sample_offset_bound (g : globals) (b c t : Z) :
  0 <= padded_size g ->
  0 <= b < ntabs g -> 0 <= c < nchannels -> 0 <= t < ntimes g ->
  0 <= (b * nchannels + c) * padded_size g + t
  <= (ntabs g * nchannels - 1) * padded_size g + ntimes g - 1.
Proof.
  intros Hp Hb Hc Ht.
  assert (0 <= (b * nchannels + c) * padded_size g).
  { apply Z.mul_nonneg_nonneg; unfold nchannels in *; lia. }
  assert ((b * nchannels + c) * padded_size g
          <= (ntabs g * nchannels - 1) * padded_size g).
  { apply Z.mul_le_mono_nonneg_r; unfold nchannels in *; lia. }
  lia.
Qed.

(** X25.  Two pages that agree on every cell (b, c, t) with t < ntimes
    give the same blocks, whatever they hold between [ntimes] and
    [padded_size] and whatever the buffer held, when the last sample of
    the page lies below offset 2^32: on such pages no padding byte is
    read. *)
Theorem padding_not_read (g : globals) (page1 page2 buffer1 buffer2 : mem) :
  ntimes g * nchannels <= 2 ^ 32 ->
  0 <= padded_size g ->
  (ntabs g * nchannels - 1) * padded_size g + ntimes g <= 2 ^ 32 ->
  same_samples g page1 page2 ->
  page_blocks g page1 buffer1 = page_blocks g page2 buffer2.
Proof.
  intros Hfit Hp Hlast Hsame.
  rewrite !page_blocks_eq by assumption.
  apply map_ext_in. intros b Hb.
  apply list_elem_of_In, elem_of_seqZ in Hb.
  unfold beam_block, block_of. apply bytes_of_ext. intros j Hj.
  rewrite !transcode_cover by assumption.
  destruct (cell_of_position g j Hj) as [Hc Ht].
  pose proof (sample_offset_bound g b _ _ Hp ltac:(lia) Hc Ht) as Hoff.
  rewrite page_index_exact by lia.
  apply Hsame; (assumption || lia).
Qed.

Lemma padded_pages_same_samples :
  same_samples padded_globals blank_page (marked_page 20000).
Proof.
  intros b c t Hb Hc Ht. unfold blank_page, marked_page.
  change (padded_size padded_globals) with 25088.
  change (ntimes padded_globals) with 12500 in Ht.
  change (ntabs padded_globals) with 1 in Hb.
  unfold nchannels in *.
  destruct (Z.eqb_spec ((b * 1536 + c) * 25088 + t) 20000) as [E|E].
  - lia.
  - reflexivity.
Defined.

Lemma padding_not_read_witness :
  ntimes padded_globals * nchannels <= 2 ^ 32 /\
  0 <= padded_size padded_globals /\
  (ntabs padded_globals * nchannels - 1) * padded_size padded_globals
    + ntimes padded_globals <= 2 ^ 32 /\
  same_samples padded_globals blank_page (marked_page 20000) /\
  page_blocks padded_globals blank_page blank_page
  = page_blocks padded_globals (marked_page 20000) blank_page.
Proof.
  assert (H1 : ntimes padded_globals * nchannels <= 2 ^ 32)
    by (vm_compute; discriminate).
  assert (H2 : 0 <= padded_size padded_globals)
    by (vm_compute; discriminate).
  assert (H3 : (ntabs padded_globals * nchannels - 1)
               * padded_size padded_globals
               + ntimes padded_globals <= 2 ^ 32)
    by (vm_compute; discriminate).
  split; [exact H1|]. split; [exact H2|]. split; [exact H3|].
  split; [exact padded_pages_same_samples|].
  exact (padding_not_read padded_globals blank_page (marked_page 20000)
           blank_page blank_page H1 H2 H3 padded_pages_same_samples).
Defined.

(** C5: the failing input.  The index into the page is computed in
    [unsigned int] and wraps at 2^32 (the defect of C1).  With twelve beams
    and [padded_size = 262145], offset 16384 is padding of the first row,
    yet it is what the code reads for the cell (10, 1024, 0): two pages
    that differ there and nowhere else give different blocks for beam
    10. *)
Lemma padding_not_read_counterexample :
  same_samples wide_globals blank_page (marked_page 16384) /\
  blank_page (0 * padded_size wide_globals + 16384)
  <> marked_page 16384 (0 * padded_size wide_globals + 16384) /\
  ntimes wide_globals <= 16384 < padded_size wide_globals /\
  page_blocks wide_globals blank_page blank_page
  <> page_blocks wide_globals (marked_page 16384) blank_page.
Proof.
  assert (Hfit : ntimes wide_globals * nchannels <= 2 ^ 32)
    by (vm_compute; discriminate).
  split; [|split; [|split]].
  - intros b c t Hb Hc Ht. unfold blank_page, marked_page.
    change (padded_size wide_globals) with 262145.
    change (ntimes wide_globals) with 12500 in Ht.
    change (ntabs wide_globals) with 12 in Hb.
    unfold nchannels in *.
    destruct (Z.eqb_spec ((b * 1536 + c) * 262145 + t) 16384) as [E|E].
    + lia.
    + reflexivity.
  - vm_compute. discriminate.
  - vm_compute. split; [discriminate | reflexivity].
  - intros E.
    assert (Hin : 0 <= 10 < ntabs wide_globals /\ 0 <= 1024 < nchannels /\
                  0 <= 0 < ntimes wide_globals).
    { vm_compute. repeat split; discriminate. }
    destruct Hin as [Hb [Hc Ht]].
    pose proof (page_blocks_cell wide_globals blank_page blank_page
                  10 1024 0 Hfit Hb Hc Ht) as H1.
    pose proof (page_blocks_cell wide_globals (marked_page 16384) blank_page
                  10 1024 0 Hfit Hb Hc Ht) as H2.
    rewrite E, H2 in H1.
    vm_compute in H1. discriminate H1.
Qed.

(** C10.  For [ntimes] samples per page (a block of at most 2^32 bytes,
    as for both values [main] assigns), the index written by the code is
    [t*nchannels + (nchannels-1-c)], and (c, t) -> that index is a
    bijection from [0, nchannels) x [0, ntimes) onto
    [0, ntimes*nchannels): into the range, one-to-one, and onto.  Hence the
    block written for a beam is the same whatever the buffer held before,
    and each of its bytes is a byte read from the page for that beam. *)
Theorem buffer_fully_overwritten (g : globals) :
  ntimes g * nchannels <= 2 ^ 32 ->
  (forall c t, 0 <= c < nchannels -> 0 <= t < ntimes g ->
     buffer_index t c = t * nchannels + (nchannels - 1 - c) /\
     0 <= t * nchannels + (nchannels - 1 - c) < ntimes g * nchannels) /\
  (forall c t c' t',
     0 <= c < nchannels -> 0 <= t < ntimes g ->
     0 <= c' < nchannels -> 0 <= t' < ntimes g ->
     t * nchannels + (nchannels - 1 - c)
     = t' * nchannels + (nchannels - 1 - c') ->
     c = c' /\ t = t') /\
  (forall j, 0 <= j < ntimes g * nchannels ->
     exists c t, 0 <= c < nchannels /\ 0 <= t < ntimes g /\
                 t * nchannels + (nchannels - 1 - c) = j) /\
  (forall tab page buffer buffer',
     block_of g (transcode g tab page buffer)
     = block_of g (transcode g tab page buffer')) /\
  (forall tab page buffer j, 0 <= j < ntimes g * nchannels ->
     exists c t, 0 <= c < nchannels /\ 0 <= t < ntimes g /\
       block_of g (transcode g tab page buffer) !! Z.to_nat j
       = Some (page (page_index g tab c t))).
Proof.
  intros Hfit. repeat split.
  - now apply (buffer_index_exact (ntimes g)).
  - unfold nchannels in *. lia.
  - unfold nchannels in *. lia.
  - unfold nchannels in *. lia.
  - unfold nchannels in *. lia.
  - intros j Hj. destruct (cell_of_position g j Hj) as [Hc Ht].
    exists (nchannels - 1 - j mod nchannels), (j / nchannels).
    repeat split; try lia.
    pose proof (Z.div_mod j nchannels ltac:(unfold nchannels; lia)). lia.
  - intros tab page buffer buffer'. now apply block_of_fresh.
  - intros tab page buffer j Hj.
    destruct (cell_of_position g j Hj) as [Hc Ht].
    exists (nchannels - 1 - j mod nchannels), (j / nchannels).
    repeat split; try lia.
    unfold block_of. rewrite bytes_of_lookup by assumption.
    now rewrite transcode_cover.
Qed.

Lemma buffer_fully_overwritten_witness :
  ntimes bare_globals * nchannels <= 2 ^ 32 /\
  block_of bare_globals (transcode bare_globals 0 (marked_page 3) blank_page)
  = block_of bare_globals
      (transcode bare_globals 0 (marked_page 3) (marked_page 0)).
Proof.
  assert (H : ntimes bare_globals * nchannels <= 2 ^ 32)
    by (vm_compute; discriminate).
  split; [exact H|].
  destruct (buffer_fully_overwritten bare_globals H)
    as [_ [_ [_ [Hfresh _]]]].
  exact (Hfresh 0 (marked_page 3) blank_page (marked_page 0)).
Defined.

(* ===================================================================== *)
(** * The loop of [main]: pages in, blocks out *)

Section Stream.
Variable g : globals.
Hypothesis ntimes_fits : ntimes g * nchannels <= 2 ^ 32.

Lemma beam_block_length (b : Z) (page : mem) :
  length (beam_block g b page) = Z.to_nat (ntimes g * nchannels).
Proof. unfold beam_block, block_of. apply bytes_of_length. Qed.

(** Over a whole run of pages, a beam's descriptor receives the beam's
    block of each page, in the order of the pages. *)
Lemma writes_to_pages (b : Z) (pages : list mem) :
  0 <= b < ntabs g -> distinct_outputs g ->
  writes_to (output_at g b)
    (flat_map (fun page =>
       List.map (write_beam g page) (seqZ 0 (ntabs g)) ++ [PageCleared])
       pages)
  = List.map (beam_block g b) pages.
Proof.
  intros Hb Hd. induction pages as [|page pages IH].
  - reflexivity.
  - cbn [flat_map List.map]. rewrite !writes_to_app, IH.
    replace (seqZ 0 (ntabs g))
      with (seqZ 0 (Z.of_nat (Z.to_nat (ntabs g))))
      by (now rewrite Z2Nat.id by lia).
    rewrite (writes_to_beams g page b) by (assumption || lia).
    replace ((0 <=? b) && (b <? 0 + Z.of_nat (Z.to_nat (ntabs g))))%bool
      with true by lia.
    reflexivity.
Qed.

Lemma main_stream_pages (e : env) (pages : list mem) :
  runlog g = true ->
  env_script e = pages_then_eod pages ->
  main_stream e g
  = (flat_map (fun page =>
       List.map (write_beam g page) (seqZ 0 (ntabs g)) ++ [PageCleared])
       pages
     ++ [Stdout "End of data received\n" [];
         Runlog "End of data received\n" [];
         HduUnlockRead; HduDisconnect;
         Stdout "Read %i pages\n" [AInt (Z.of_nat (length pages))];
         Runlog "Read %i pages\n" [AInt (Z.of_nat (length pages))]],
     Ret 0).
Proof.
  intros Hlog Hscript. unfold main_stream. rewrite Hscript.
  destruct (main_loop_pages g ntimes_fits pages (env_heap e) 0)
    as [buffer' ->].
  rewrite bind_ret. cbn [ls_eod ls_page_count].
  rewrite (LOG_open g) by assumption.
  rewrite emit_bind, emit_bind, (LOG_open g) by assumption.
  rewrite Z.add_0_l. reflexivity.
Qed.
End Stream.

(** C4.  When the ring buffer hands over N pages and then signals end of
    data, and no signal arrives, [main] returns 0 and the descriptor of
    each beam has received exactly N blocks: the beam's block of each page,
    each [ntimes*nchannels] bytes long, in the order the pages arrived. *)
Theorem blocks_in_page_order (e : env) (g : globals) (pages : list mem)
    (b : Z) :
  ntimes g * nchannels <= 2 ^ 32 ->
  runlog g = true ->
  distinct_outputs g ->
  env_script e = pages_then_eod pages ->
  0 <= b < ntabs g ->
  result (main_stream e g) = Ret 0 /\
  writes_to (output_at g b) (trace (main_stream e g))
  = List.map (beam_block g b) pages /\
  length (writes_to (output_at g b) (trace (main_stream e g)))
  = length pages /\
  Forall (fun block => length block = Z.to_nat (ntimes g * nchannels))
         (writes_to (output_at g b) (trace (main_stream e g))).
Proof.
  intros Hfit Hlog Hd Hscript Hb.
  rewrite (main_stream_pages g Hfit e pages Hlog Hscript).
  cbn [trace result fst snd].
  rewrite writes_to_app, (writes_to_pages g b pages Hb Hd).
  cbn [writes_to]. rewrite app_nil_r.
  split; [reflexivity|]. split; [reflexivity|]. split.
  - now rewrite length_map.
  - apply Forall_forall. intros block Hin.
    apply list_elem_of_In, in_map_iff in Hin as [page [<- _]].
    apply beam_block_length.
Qed.

(* ===================================================================== *)
(** * Lemmas: classes of events *)

Section EventClass.
Variable P : event -> Prop.

Lemma all_mret {A} (a : A) : Forall P (trace (mret a : prog A)).
Proof. constructor. Qed.

Lemma all_exit {A} (c : Z) : Forall P (trace (exit c : prog A)).
Proof. constructor. Qed.

Lemma all_fault {A} : Forall P (trace (fault : prog A)).
Proof. constructor. Qed.

Lemma all_emit (ev : event) : P ev -> Forall P (trace (emit ev)).
Proof. intros H. repeat constructor. exact H. Qed.

Lemma all_bind {A B} (m : prog A) (k : A -> prog B) :
  Forall P (trace m) ->
  (forall a, result m = Ret a -> Forall P (trace (k a))) ->
  Forall P (trace (m ≫= k)).
Proof.
  destruct m as [t [a|c|]]; intros Hm Hk.
  - rewrite bind_ret. cbn [trace fst]. apply Forall_app.
    split; [exact Hm | now apply Hk].
  - exact Hm.
  - exact Hm.
Qed.

Lemma all_LOG (g : globals) fmt args :
  P (Stdout fmt args) -> P (Runlog fmt args) ->
  Forall P (trace (LOG g fmt args)).
Proof.
  intros H1 H2. unfold LOG. apply all_bind.
  - now apply all_emit.
  - intros _ _. destruct (runlog g).
    + now apply all_emit.
    + apply all_fault.
Qed.

Lemma all_forM_from {S} (body : Z -> S -> prog S) :
  (forall i s, Forall P (trace (body i s))) ->
  forall count start s, Forall P (trace (forM_from start count body s)).
Proof.
  intros Hbody. induction count as [|count IH]; intros start s; simpl.
  - constructor.
  - apply all_bind; [apply Hbody|]. intros s' _. apply IH.
Qed.
End EventClass.

Lemma created_nothing (tr : list event) :
  Forall creates_nothing tr -> created tr = [].
Proof.
  induction 1 as [|ev tr Hev _ IH]; simpl.
  - reflexivity.
  - destruct ev; simpl in Hev; try exact IH. contradiction.
Qed.

Lemma closes_nothing (fd : Z) (tr : list event) :
  Forall keeps_open tr -> closes fd tr = O /\ syncs fd tr = O.
Proof.
  induction 1 as [|ev tr Hev _ [IH1 IH2]]; simpl.
  - auto.
  - destruct ev; simpl in Hev; auto; contradiction.
Qed.

Lemma console_keeps_open (ev : event) : is_console ev -> keeps_open ev.
Proof. destruct ev; simpl; auto. Qed.

Lemma console_creates_nothing (ev : event) :
  is_console ev -> creates_nothing ev.
Proof. destruct ev; simpl; auto. Qed.

Lemma stderr_is_console (ev : event) : is_stderr ev -> is_console ev.
Proof. destruct ev; simpl; auto. Qed.

(* ===================================================================== *)
(** * Lemmas: the command line *)

Lemma cmdline_ok_mret {A} (a : A) : cmdline_ok (mret a : prog A).
Proof. split; [constructor | left; now exists a]. Qed.

Lemma cmdline_ok_bind {A B} (m : prog A) (k : A -> prog B) :
  cmdline_ok m -> (forall a, cmdline_ok (k a)) -> cmdline_ok (m ≫= k).
Proof.
  intros [Hm Hr] Hk. split.
  - apply all_bind; [exact Hm|]. intros a _. apply Hk.
  - destruct Hr as [[a Hr]|Hr].
    + destruct (bind_returns m k a Hr) as [_ ->]. apply Hk.
    + right. destruct m as [t o]. simpl in Hr. subst o. reflexivity.
Qed.

Lemma cmdline_ok_stderr {A} fmt args (k : prog A) :
  cmdline_ok k -> cmdline_ok (emit (Stderr fmt args) ≫= (fun _ => k)).
Proof.
  intros Hk. apply cmdline_ok_bind; [|intros _; exact Hk].
  split; [now apply all_emit | left; now exists tt].
Qed.

(** ['h'] is not in the option string. *)
Lemma optstring_find_h : optstring_find "h" optstring = None.
Proof. reflexivity. Qed.

(** The [switch] behaves on everything but ['h']. *)
Lemma parseOptions_switch_ok (c : ascii) (optarg : string) (o : opts) :
  c <> "h"%char -> cmdline_ok (parseOptions_switch c optarg o).
Proof.
  intros Hc. unfold parseOptions_switch.
  destruct (Ascii.eqb c "k"); [apply cmdline_ok_mret|].
  destruct (Ascii.eqb c "l"); [apply cmdline_ok_mret|].
  destruct (Ascii.eqb c "n"); [apply cmdline_ok_mret|].
  destruct (Ascii.eqb_spec c "h") as [E|_]; [contradiction|].
  apply cmdline_ok_stderr. split; [constructor | now right].
Qed.

Lemma getopt_cluster_ok (argv0 : string) (rest_k : opts -> prog opts)
    (arg_k : option (string * (opts -> prog opts))) :
  (forall o, cmdline_ok (rest_k o)) ->
  (forall optarg after_k, arg_k = Some (optarg, after_k) ->
                          forall o, cmdline_ok (after_k o)) ->
  forall s c o, cmdline_ok (getopt_cluster argv0 rest_k arg_k c s o).
Proof.
  intros Hrest Harg.
  assert (Hq : forall o, cmdline_ok (parseOptions_switch "?" "" o)).
  { intros o. apply parseOptions_switch_ok. discriminate. }
  assert (Hopt : forall c b optarg o,
             optstring_find c optstring = Some b ->
             cmdline_ok (parseOptions_switch c optarg o)).
  { intros c b optarg o E. apply parseOptions_switch_ok.
    intros ->. rewrite optstring_find_h in E. discriminate E. }
  induction s as [|c' s' IH]; intros c o; cbn [getopt_cluster];
    destruct (optstring_find c optstring) as [[|]|] eqn:E.
  - destruct arg_k as [[optarg after_k]|].
    + apply cmdline_ok_bind; [now apply (Hopt c true)|].
      now apply (Harg optarg after_k).
    + apply cmdline_ok_stderr, Hq.
  - apply cmdline_ok_bind; [now apply (Hopt c false) | exact Hrest].
  - apply cmdline_ok_stderr, cmdline_ok_bind; [apply Hq | exact Hrest].
  - apply cmdline_ok_bind; [now apply (Hopt c true) | exact Hrest].
  - apply cmdline_ok_bind; [now apply (Hopt c false) | apply IH].
  - apply cmdline_ok_stderr, cmdline_ok_bind; [apply Hq | apply IH].
Qed.

Lemma getopt_loop_ok (argv0 : string) :
  forall args o, cmdline_ok (getopt_loop argv0 args o).
Proof.
  assert (H : forall n args, (length args <= n)%nat ->
                             forall o, cmdline_ok (getopt_loop argv0 args o)).
  { induction n as [|n IH]; intros args Hlen o.
    - destruct args; [apply cmdline_ok_mret | simpl in Hlen; lia].
    - destruct args as [|a rest]; [apply cmdline_ok_mret|].
      simpl in Hlen. cbn [getopt_loop].
      destruct a as [|dash [|c s]]; try (apply IH; lia).
      destruct (negb (Ascii.eqb dash "-")); [apply IH; lia|].
      destruct (Ascii.eqb c "-" && String.eqb s "")%bool;
        [apply cmdline_ok_mret|].
      apply getopt_cluster_ok.
      + intros o'. apply IH. lia.
      + intros optarg after_k E o'. destruct rest as [|b rest']; [discriminate E|].
        injection E as _ <-. apply IH. simpl in Hlen. lia. }
  intros args o. now apply (H (length args)).
Qed.

(** [parseOptions] never prints the usage text and never exits with
    status 0: it returns or it exits with failure, after writing to stderr
    only. *)
Lemma parseOptions_ok (argv : list string) : cmdline_ok (parseOptions argv).
Proof.
  unfold parseOptions. apply cmdline_ok_bind.
  - destruct argv; [apply cmdline_ok_mret | apply getopt_loop_ok].
  - intros o.
    destruct (setk o), (setl o), (setn o); cbn [negb orb];
      try apply cmdline_ok_mret;
      (split; [repeat constructor | now right]).
Qed.

(* ===================================================================== *)
(** * Lemmas: the stages of [main] *)

Lemma console_off_file (ev : event) : is_console ev -> off_file ev.
Proof. destruct ev; simpl; intros H; (reflexivity || contradiction). Qed.

Lemma off_file_keeps_open (ev : event) : off_file ev -> keeps_open ev.
Proof. destruct ev; simpl; intros H; (exact I || discriminate H). Qed.

Lemma off_file_creates_nothing (ev : event) :
  off_file ev -> creates_nothing ev.
Proof. destruct ev; simpl; intros H; (exact I || discriminate H). Qed.

(** Start-up prints to the console only; when it returns, the log stream
    is open and the globals are the initial ones. *)
Lemma main_logging_cases (e : env) (o : opts) :
  Forall is_console (trace (main_logging e o)) /\
  (fails (main_logging e o) \/
   exists key file_prefix,
     result (main_logging e o)
     = Ret (key, file_prefix, set_runlog true globals0)).
Proof.
  unfold main_logging.
  destruct (key o) as [k|], (prefix o) as [p|], (logfile o) as [l|];
    try (split; [constructor | left; right; reflexivity]).
  destruct (env_logfile_ok e).
  - split; [repeat constructor | right; exists k, p; reflexivity].
  - split; [repeat constructor | left; right; reflexivity].
Qed.

Lemma main_startup_cases (e : env) (argv : list string) :
  Forall is_console (trace (main_startup e argv)) /\
  (fails (main_startup e argv) \/
   exists key file_prefix,
     result (main_startup e argv)
     = Ret (key, file_prefix, set_runlog true globals0)).
Proof.
  unfold main_startup, fails.
  destruct (parseOptions_ok argv) as [Ht [[o Hr]|Hr]].
  - rewrite (trace_bind_ret _ _ _ Hr), (result_bind_ret _ _ _ Hr).
    destruct (main_logging_cases e o) as [Hl Hres]. split.
    + apply Forall_app. split; [|exact Hl].
      eapply Forall_impl; [exact Ht | exact stderr_is_console].
    + exact Hres.
  - rewrite (trace_bind_exit _ _ _ Hr), (result_bind_exit _ _ _ Hr).
    split.
    + eapply Forall_impl; [exact Ht | exact stderr_is_console].
    + left. left. reflexivity.
Qed.

(** What a header that parses leaves in the globals. *)
Lemma parse_header_fits (h : header) (g : globals) :
  is_Some (parse_header h g) <->
  forall s, header_find h "SOURCE" = Some (HString s) ->
            (String.length s < 256)%nat.
Proof.
  unfold parse_header, ascii_header_get_s.
  destruct (header_find h "SOURCE") as [[z|f|s]|]; cbn [mbind option_bind].
  - split; [intros _ s' H; discriminate H | eauto].
  - split; [intros _ s' H; discriminate H | eauto].
  - destruct (Nat.ltb_spec (String.length s) 256) as [Hlt|Hge];
      cbn [mbind option_bind].
    + split; [|eauto]. intros _ s' H. now injection H as <-.
    + split.
      * intros [g1 H]. discriminate H.
      * intros H. specialize (H s eq_refl). lia.
  - split; [intros _ s' H; discriminate H | eauto].
Qed.

Lemma parse_header_fields (h : header) (g g1 : globals) :
  parse_header h g = Some g1 ->
  runlog g1 = runlog g /\ output g1 = output g /\
  science_case g1 = ascii_header_get_i h "SCIENCE_CASE" (science_case g) /\
  science_mode g1 = ascii_header_get_i h "SCIENCE_MODE" (science_mode g) /\
  padded_size g1 = ascii_header_get_i h "PADDED_SIZE" (padded_size g).
Proof.
  unfold parse_header. intros H.
  destruct (ascii_header_get_s h "SOURCE" 256 (source_name g)) as [name|];
    cbn [mbind option_bind] in H; [|discriminate H].
  injection H as <-. repeat split.
Qed.

Lemma parse_header_runlog (h : header) (g g1 : globals) :
  parse_header h g = Some g1 -> runlog g1 = runlog g.
Proof. intros H. apply (parse_header_fields h g g1 H). Qed.

(** [init_ringbuffer] leaves the files alone; it exits with failure, runs
    into the overflow of the source name, or returns the globals with the
    header parsed into them. *)
Lemma init_ringbuffer_cases (e : env) (key : string) (g : globals) :
  runlog g = true ->
  Forall off_file (trace (init_ringbuffer e key g)) /\
  (result (init_ringbuffer e key g) = Exit EXIT_FAILURE \/
   (exists h, env_header e = Some h /\
              env_connect_ok e = true /\ env_lock_ok e = true /\
              parse_header h g = None /\
              result (init_ringbuffer e key g) = Fault) \/
   exists h g1, env_header e = Some h /\
                env_connect_ok e = true /\ env_lock_ok e = true /\
                env_header_clear_ok e = true /\
                parse_header h g = Some g1 /\
                result (init_ringbuffer e key g) = Ret g1).
Proof.
  intros Hlog. unfold init_ringbuffer, LOG. rewrite Hlog.
  destruct (env_connect_ok e), (env_lock_ok e), (env_header e) as [h|];
    try (split; [repeat constructor | left; reflexivity]).
  destruct (parse_header h g) as [g1|] eqn:Hp.
  - rewrite (parse_header_runlog h g g1 Hp), Hlog.
    destruct (env_header_clear_ok e);
      (split; [repeat constructor|]).
    + right. right. exists h, g1.
      repeat split; first [exact Hp | reflexivity].
    + left. reflexivity.
  - split; [repeat constructor|]. right. left. exists h.
    repeat split; first [exact Hp | reflexivity].
Qed.

(** With every call succeeding, [init_ringbuffer] in full. *)
Lemma init_ringbuffer_run (e : env) (key : string) (g g1 : globals)
    (h : header) :
  runlog g = true ->
  env_connect_ok e = true -> env_lock_ok e = true ->
  env_header e = Some h -> env_header_clear_ok e = true ->
  parse_header h g = Some g1 ->
  init_ringbuffer e key g
  = ([Stdout "dadafilterbank SHMKEY: %s\n" [AStr key];
      Runlog "dadafilterbank SHMKEY: %s\n" [AStr key];
      HduConnect key; HduLockRead; HeaderCleared;
      Stdout "psrdada HEADER:\n%s\n" [AHeader h];
      Runlog "psrdada HEADER:\n%s\n" [AHeader h]],
     Ret g1).
Proof.
  intros Hlog Hc Hl Hh Hcl Hp. unfold init_ringbuffer, LOG.
  rewrite Hlog, Hc, Hl, Hh, Hp, Hcl, (parse_header_runlog h g g1 Hp), Hlog.
  reflexivity.
Qed.

(** The source name does not fit: the run ends in the scan, with the ring
    buffer connected and locked and the header block not yet marked. *)
Lemma init_ringbuffer_overflow (e : env) (key : string) (g : globals)
    (h : header) :
  runlog g = true ->
  env_connect_ok e = true -> env_lock_ok e = true ->
  env_header e = Some h -> parse_header h g = None ->
  init_ringbuffer e key g
  = ([Stdout "dadafilterbank SHMKEY: %s\n" [AStr key];
      Runlog "dadafilterbank SHMKEY: %s\n" [AStr key];
      HduConnect key; HduLockRead], Fault).
Proof.
  intros Hlog Hc Hl Hh Hp. unfold init_ringbuffer, LOG.
  rewrite Hlog, Hc, Hl, Hh, Hp. reflexivity.
Qed.

(** [main], from the test of the science case to that of the mode: it
    leaves the files alone, returns the derived parameters for a supported
    case and mode, and exits with failure otherwise. *)
Lemma main_resolve_cases (e : env) (file_prefix : string) (g : globals) :
  runlog g = true ->
  Forall off_file (trace (main_resolve e file_prefix g)) /\
  result (main_resolve e file_prefix g)
  = if (((science_case g =? 3) || (science_case g =? 4))
        && ((science_mode g =? 0) || (science_mode g =? 2)))%bool
    then Ret (set_ntabs (beams_for (science_mode g))
                (set_sampling (samples_for (science_case g))
                              (interval_for (science_case g)) g))
    else Exit EXIT_FAILURE.
Proof.
  intros Hlog. destruct g. cbn [runlog] in Hlog. subst.
  unfold main_resolve, main_science_case, main_science_mode, LOG,
    samples_for, interval_for, beams_for.
  cbn [science_case science_mode runlog set_sampling set_ntabs].
  destruct (science_case0 =? 3); [|destruct (science_case0 =? 4)];
    cbn [science_case science_mode runlog set_sampling set_ntabs
         mbind prog_bind mret prog_ret emit exit app];
    (destruct (science_mode0 =? 0);
     [|destruct (science_mode0 =? 2);
       [|destruct (science_mode0 =? 1); [|destruct (science_mode0 =? 3)]]]);
    (split; [repeat constructor | reflexivity]).
Qed.

(** The last thing a run prints when the case is supported and the mode is
    a polarization mode. *)
Lemma main_resolve_polarization (e : env) (file_prefix : string)
    (g : globals) :
  runlog g = true ->
  science_case g = 3 \/ science_case g = 4 ->
  science_mode g = 1 \/ science_mode g = 3 ->
  exists t,
    trace (main_resolve e file_prefix g)
    = t ++ [Stdout "Error: modes IQUV+TAB / IQUV+IAB not supported" [];
            Runlog "Error: modes IQUV+TAB / IQUV+IAB not supported" []].
Proof.
  intros Hlog Hcase Hmode. destruct g. cbn [runlog] in Hlog.
  cbn [science_case] in Hcase. cbn [science_mode] in Hmode. subst.
  unfold main_resolve, main_science_case, main_science_mode, LOG.
  cbn [science_case science_mode runlog set_sampling set_ntabs].
  destruct Hcase as [-> | ->]; destruct Hmode as [-> | ->];
    cbn [Z.eqb Pos.eqb orb];
    (eexists [_; _; _; _; _; _]; reflexivity).
Qed.

(** The last thing a run prints when the case is not supported. *)
Lemma main_resolve_illegal_case (e : env) (file_prefix : string)
    (g : globals) :
  runlog g = true ->
  science_case g <> 3 -> science_case g <> 4 ->
  main_resolve e file_prefix g
  = ([Stdout "Error: Illegal science case '%i'" [AInt (science_mode g)];
      Runlog "Error: Illegal science case '%i'" [AInt (science_mode g)]],
     Exit EXIT_FAILURE).
Proof.
  intros Hlog H3 H4. destruct g. cbn [runlog] in Hlog.
  cbn [science_case] in H3, H4. subst.
  unfold main_resolve, main_science_case, LOG.
  cbn [science_case science_mode runlog].
  apply Z.eqb_neq in H3 as ->. apply Z.eqb_neq in H4 as ->. reflexivity.
Qed.

Section OpenFiles.
Variable e : env.
Variable prefix : string.
Variable n : Z.

Lemma open_file_run (tab : Z) (g : globals) :
  tab < MAXTABS ->
  open_file e prefix n tab g
  = ([create_beam e prefix g n tab],
     Ret (set_output
            (<[Z.to_nat tab := env_fds e (Z.to_nat tab)]> (output g)) g)).
Proof.
  intros Htab. unfold open_file.
  replace (tab <? MAXTABS) with true by lia. reflexivity.
Qed.

Lemma open_files_from :
  forall (count : nat) (start : Z) (g : globals),
    0 <= start -> start + Z.of_nat count <= MAXTABS ->
    forM_from start count (open_file e prefix n) g
    = (List.map (create_beam e prefix g n) (seqZ start (Z.of_nat count)),
       Ret (set_output (outputs_from e start count (output g)) g)).
Proof.
  induction count as [|count IH]; intros start g H0 Hmax.
  - destruct g. reflexivity.
  - cbn [forM_from]. rewrite open_file_run by lia.
    rewrite bind_ret, IH by lia. cbn [trace result fst snd].
    rewrite Nat2Z.inj_succ.
    rewrite (seqZ_cons start (Z.succ (Z.of_nat count))) by lia.
    rewrite Z.pred_succ.
    replace (Z.succ start) with (start + 1) by lia.
    reflexivity.
Qed.

Lemma open_files_run (g : globals) :
  0 <= n <= MAXTABS ->
  open_files e prefix n g
  = (List.map (create_beam e prefix g n) (seqZ 0 n),
     Ret (set_output (outputs_from e 0 (Z.to_nat n) (output g)) g)).
Proof.
  intros Hn. unfold open_files, forM_lt.
  rewrite open_files_from by lia. now rewrite Z2Nat.id by lia.
Qed.

Lemma created_create_beam (g : globals) (tabs : list Z) :
  created (List.map (create_beam e prefix g n) tabs)
  = List.map (fname_of prefix n) tabs.
Proof. induction tabs as [|tab tabs IH]; simpl; congruence. Qed.
End OpenFiles.

(** Indices below [start] are not touched. *)
Lemma outputs_from_below (e : env) (i : nat) :
  forall count start out,
    0 <= start -> (i < Z.to_nat start)%nat ->
    outputs_from e start count out !! i = out !! i.
Proof.
  unfold outputs_from.
  induction count as [|count IH]; intros start out H0 Hi; simpl.
  - reflexivity.
  - rewrite IH by lia. apply list_lookup_insert_ne. lia.
Qed.

(** Each index of the range holds the descriptor handed out for it. *)
Lemma outputs_from_lookup (e : env) (tab : Z) :
  forall count start out,
    0 <= start -> start <= tab < start + Z.of_nat count ->
    (Z.to_nat (start + Z.of_nat count) <= length out)%nat ->
    outputs_from e start count out !! Z.to_nat tab
    = Some (env_fds e (Z.to_nat tab)).
Proof.
  induction count as [|count IH]; intros start out H0 Htab Hlen.
  - lia.
  - destruct (Z.eq_dec tab start) as [->|Hne].
    + change (outputs_from e start (Datatypes.S count) out)
        with (outputs_from e (start + 1) count
                (<[Z.to_nat start := env_fds e (Z.to_nat start)]> out)).
      rewrite outputs_from_below by lia.
      apply list_lookup_insert_eq. lia.
    + change (outputs_from e start (Datatypes.S count) out)
        with (outputs_from e (start + 1) count
                (<[Z.to_nat start := env_fds e (Z.to_nat start)]> out)).
      apply IH; [lia | lia |]. rewrite length_insert. lia.
Qed.

(** After [open_files], [output[tab]] is the descriptor handed out for
    beam [tab]; nothing else changes in the globals. *)
Lemma open_files_outputs (e : env) (prefix : string) (g : globals) :
  0 <= ntabs g <= MAXTABS ->
  (Z.to_nat (ntabs g) <= length (output g))%nat ->
  exists g',
    result (open_files e prefix (ntabs g) g) = Ret g' /\
    ntabs g' = ntabs g /\ ntimes g' = ntimes g /\ runlog g' = runlog g /\
    forall tab, 0 <= tab < ntabs g' ->
                output_at g' tab = env_fds e (Z.to_nat tab).
Proof.
  intros Hn Hlen. rewrite open_files_run by exact Hn.
  eexists. split; [reflexivity|]. repeat split.
  intros tab Htab. unfold output_at. cbn [output set_output ntabs] in *.
  rewrite outputs_from_lookup; [reflexivity | lia | lia | ].
  now rewrite Z.add_0_l, Nat2Z.id.
Qed.

(** When the writer hands out a different descriptor for each beam, the
    descriptors in [output] are pairwise distinct. *)
Lemma open_files_distinct (e : env) (prefix : string) (g g' : globals) :
  0 <= ntabs g <= MAXTABS ->
  (Z.to_nat (ntabs g) <= length (output g))%nat ->
  (forall i j, (i < Z.to_nat (ntabs g))%nat -> (j < Z.to_nat (ntabs g))%nat ->
               env_fds e i = env_fds e j -> i = j) ->
  result (open_files e prefix (ntabs g) g) = Ret g' ->
  distinct_outputs g'.
Proof.
  intros Hn Hlen Hinj Hres.
  destruct (open_files_outputs e prefix g Hn Hlen)
    as (g'' & Hres' & Hnt & _ & _ & Hout).
  rewrite Hres in Hres'. injection Hres' as <-.
  intros b b' Hb Hb' E. rewrite !Hout in E by assumption.
  apply Hinj in E; lia.
Qed.

(* ===================================================================== *)
(** * Output file names *)

Lemma string_take_all (s : string) :
  forall n, (String.length s <= n)%nat -> string_take n s = s.
Proof.
  induction s as [|c s IH]; intros [|n] H; simpl in *;
    try reflexivity; try lia.
  rewrite IH by lia. reflexivity.
Qed.

Lemma string_length_append (s1 s2 : string) :
  String.length (s1 +:+ s2) = (String.length s1 + String.length s2)%nat.
Proof.
  induction s1 as [|c s1 IH]; [reflexivity|].
  change (Datatypes.S (String.length (s1 +:+ s2))
          = Datatypes.S (String.length s1 + String.length s2)).
  now rewrite IH.
Qed.

(** [snprintf] stores the whole text when it fits the 256 bytes. *)
Lemma snprintf_suffix (prefix suffix : string) :
  (String.length prefix + String.length suffix <= 255)%nat ->
  snprintf 256 (prefix +:+ suffix) = prefix +:+ suffix.
Proof.
  intros H. unfold snprintf. apply string_take_all.
  rewrite string_length_append. change (Z.to_nat (256 - 1)) with 255%nat.
  exact H.
Qed.

(** C6 (as amended).  With one beam [open_files] creates exactly one file,
    named [<prefix>.fil], when the prefix has at most 251 characters; with
    twelve beams it creates exactly twelve, named [<prefix>_01.fil] to
    [<prefix>_12.fil] in this order, when the prefix has at most 248
    characters (the name is built in a buffer of 256 bytes). *)
Theorem output_file_names (e : env) (prefix : string) (g : globals) :
  ((String.length prefix <= 251)%nat ->
   created (trace (open_files e prefix 1 g)) = [prefix +:+ ".fil"]) /\
  ((String.length prefix <= 248)%nat ->
   created (trace (open_files e prefix 12 g))
   = [prefix +:+ "_01.fil"; prefix +:+ "_02.fil"; prefix +:+ "_03.fil";
      prefix +:+ "_04.fil"; prefix +:+ "_05.fil"; prefix +:+ "_06.fil";
      prefix +:+ "_07.fil"; prefix +:+ "_08.fil"; prefix +:+ "_09.fil";
      prefix +:+ "_10.fil"; prefix +:+ "_11.fil"; prefix +:+ "_12.fil"]).
Proof.
  split; intros Hlen.
  - rewrite open_files_run by (unfold MAXTABS; lia).
    cbn [trace fst]. rewrite created_create_beam.
    change (seqZ 0 1) with [0]. cbn [List.map].
    change (fname_of prefix 1 0) with (snprintf 256 (prefix +:+ ".fil")).
    rewrite snprintf_suffix by (simpl; lia). reflexivity.
  - rewrite open_files_run by (unfold MAXTABS; lia).
    cbn [trace fst]. rewrite created_create_beam.
    change (seqZ 0 12) with [0; 1; 2; 3; 4; 5; 6; 7; 8; 9; 10; 11].
    cbn [List.map].
    change (fname_of prefix 12 0) with (snprintf 256 (prefix +:+ "_01.fil")).
    change (fname_of prefix 12 1) with (snprintf 256 (prefix +:+ "_02.fil")).
    change (fname_of prefix 12 2) with (snprintf 256 (prefix +:+ "_03.fil")).
    change (fname_of prefix 12 3) with (snprintf 256 (prefix +:+ "_04.fil")).
    change (fname_of prefix 12 4) with (snprintf 256 (prefix +:+ "_05.fil")).
    change (fname_of prefix 12 5) with (snprintf 256 (prefix +:+ "_06.fil")).
    change (fname_of prefix 12 6) with (snprintf 256 (prefix +:+ "_07.fil")).
    change (fname_of prefix 12 7) with (snprintf 256 (prefix +:+ "_08.fil")).
    change (fname_of prefix 12 8) with (snprintf 256 (prefix +:+ "_09.fil")).
    change (fname_of prefix 12 9) with (snprintf 256 (prefix +:+ "_10.fil")).
    change (fname_of prefix 12 10) with (snprintf 256 (prefix +:+ "_11.fil")).
    change (fname_of prefix 12 11) with (snprintf 256 (prefix +:+ "_12.fil")).
    rewrite !snprintf_suffix by (simpl; lia). reflexivity.
Qed.

Lemma output_file_names_witness :
  (String.length "test" <= 251)%nat /\
  created (trace (open_files (sample_env bare_header RbEod) "test" 1
                             bare_globals))
  = ["test.fil"%string] /\
  (String.length "obs" <= 248)%nat /\
  created (trace (open_files (sample_env wide_header RbEod) "obs" 12
                             wide_globals))
  = ["obs_01.fil"; "obs_02.fil"; "obs_03.fil"; "obs_04.fil"; "obs_05.fil";
     "obs_06.fil"; "obs_07.fil"; "obs_08.fil"; "obs_09.fil"; "obs_10.fil";
     "obs_11.fil"; "obs_12.fil"]%string.
Proof.
  assert (H1 : (String.length "test" <= 251)%nat) by (vm_compute; lia).
  assert (H2 : (String.length "obs" <= 248)%nat) by (vm_compute; lia).
  split; [exact H1|]. split.
  - exact (proj1 (output_file_names (sample_env bare_header RbEod) "test"
                    bare_globals) H1).
  - split; [exact H2|].
    exact (proj2 (output_file_names (sample_env wide_header RbEod) "obs"
                    wide_globals) H2).
Defined.

(** C6 (as stated) fails for a long prefix: with 252 characters the name of
    the single file is cut after [.fi]. *)
Lemma output_file_names_counterexample :
  created (trace (open_files (sample_env bare_header RbEod)
                             (string_repeat "a" 252) 1 bare_globals))
  <> [string_repeat "a" 252 +:+ ".fil"].
Proof.
  rewrite open_files_run by (unfold MAXTABS; lia).
  cbn [trace fst]. rewrite created_create_beam.
  intros H. apply (f_equal (List.map String.length)) in H.
  vm_compute in H. discriminate H.
Qed.

(** With twelve beams and a prefix of 255 characters the twelve names are
    one and the same. *)
Lemma long_prefix_names_collide :
  created (trace (open_files (sample_env wide_header RbEod)
                             (string_repeat "a" 255) 12 wide_globals))
  = replicate 12 (string_repeat "a" 255).
Proof.
  rewrite open_files_run by (unfold MAXTABS; lia).
  cbn [trace fst]. rewrite created_create_beam.
  vm_compute. reflexivity.
Qed.

(* ===================================================================== *)
(** * The help flag *)

(** C7: the failing input.  ['h'] is missing from the option string, so
    [getopt] reports [-h] as an invalid option and returns ['?']; the
    [case 'h'] of the [switch] is never taken, [printOptions] is not
    called, and the program exits with failure. *)
Theorem help_flag_exits_with_failure :
  parseOptions ["dadafilterbank"; "-h"]%string
  = ([Stderr "%s: invalid option -- '%c'\n"
        [AStr "dadafilterbank"; AChar "h"];
      Stderr "Unknow option '%c'\n" [AChar "?"]],
     Exit EXIT_FAILURE) /\
  (forall e,
     main e ["dadafilterbank"; "-h"]%string
     = ([Stderr "%s: invalid option -- '%c'\n"
           [AStr "dadafilterbank"; AChar "h"];
         Stderr "Unknow option '%c'\n" [AChar "?"]],
        Exit EXIT_FAILURE)) /\
  (forall argv,
     result (parseOptions argv) <> Exit EXIT_SUCCESS /\
     Forall is_stderr (trace (parseOptions argv))).
Proof.
  split; [reflexivity|]. split; [intros e; reflexivity|].
  intros argv. destruct (parseOptions_ok argv) as [Ht [[o Hr]|Hr]].
  - split; [rewrite Hr; discriminate | exact Ht].
  - split; [rewrite Hr; discriminate | exact Ht].
Qed.

(* ===================================================================== *)
(** * Closing the output files *)

Ltac all_events :=
  repeat first
    [ apply all_mret
    | apply all_exit
    | apply all_fault
    | apply all_emit; exact I
    | apply all_LOG; exact I
    | apply all_bind; [|intros ? _]
    | match goal with
      | |- Forall _ (trace (if ?b then _ else _)) => destruct b
      | |- Forall _ (trace (match ?x with Some _ => _ | None => _ end)) =>
          destruct x
      end ].

Lemma parseOptions_keeps_open (argv : list string) :
  Forall keeps_open (trace (parseOptions argv)).
Proof.
  eapply Forall_impl; [apply parseOptions_ok|].
  intros ev H. now apply console_keeps_open, stderr_is_console.
Qed.

Lemma main_startup_keeps_open (e : env) (argv : list string) :
  Forall keeps_open (trace (main_startup e argv)).
Proof.
  eapply Forall_impl; [apply main_startup_cases|].
  exact console_keeps_open.
Qed.

Lemma main_setup_keeps_open (e : env) (key file_prefix : string)
    (g : globals) :
  Forall keeps_open (trace (main_setup e key file_prefix g)).
Proof.
  unfold main_setup. apply all_bind.
  { unfold init_ringbuffer. all_events. }
  intros g1 _. apply all_bind.
  { unfold main_resolve, main_science_case, main_science_mode.
    all_events. }
  intros g2 _. apply all_bind.
  { unfold open_files, forM_lt. apply all_forM_from.
    intros tab g'. unfold open_file. all_events. }
  intros g3 _. all_events.
Qed.

Lemma main_loop_events (g : globals) :
  forall script buffer page_count,
    Forall is_stream_event (trace (main_loop g script buffer page_count)).
Proof.
  induction script as [|eod|page rest IH]; intros buffer page_count;
    cbn [main_loop].
  - constructor.
  - constructor.
  - apply all_bind.
    { unfold process_page, forM_lt. apply all_forM_from.
      intros tab b. unfold process_tab. all_events. }
    intros buffer' _. apply all_bind; [now apply all_emit|].
    intros _ _. apply IH.
Qed.

Lemma main_stream_events (e : env) (g : globals) :
  Forall is_stream_event (trace (main_stream e g)).
Proof.
  unfold main_stream. apply all_bind; [apply main_loop_events|].
  intros st _. all_events.
Qed.

Lemma stream_event_keeps_open (ev : event) :
  is_stream_event ev -> keeps_open ev.
Proof. destruct ev; simpl; auto. Qed.

Lemma stream_event_creates_nothing (ev : event) :
  is_stream_event ev -> creates_nothing ev.
Proof. destruct ev; simpl; auto. Qed.

Lemma main_stream_keeps_open (e : env) (g : globals) :
  Forall keeps_open (trace (main_stream e g)).
Proof.
  eapply Forall_impl; [apply main_stream_events|].
  exact stream_event_keeps_open.
Qed.

(** No run of [main] that is not interrupted contains an [fsync] or a
    [filterbank_close]. *)
Lemma main_keeps_open (e : env) (argv : list string) :
  Forall keeps_open (trace (main e argv)).
Proof.
  unfold main. apply all_bind; [apply main_startup_keeps_open|].
  intros [[key file_prefix] g] _. unfold main_run.
  apply all_bind; [apply main_setup_keeps_open|].
  intros g' _. apply main_stream_keeps_open.
Qed.

(** C3: the failing input.  A run with one beam that reaches end of data
    at once opens [test.fil] on descriptor 4 and returns 0 without any
    [fsync] or [filterbank_close] on it: [close_files] is never called.
    The same holds of every run that is not interrupted.  On SIGINT the
    handler does synchronize and close the descriptor, once. *)
Theorem streams_left_open_at_end_of_data :
  let e := sample_env bare_header RbEod in
  result (main e sample_argv) = Ret 0 /\
  created (trace (main e sample_argv)) = ["test.fil"%string] /\
  opened (trace (main e sample_argv)) = [4] /\
  closes 4 (trace (main e sample_argv)) = O /\
  syncs 4 (trace (main e sample_argv)) = O /\
  (forall e' argv fd,
     closes fd (trace (main e' argv)) = O /\
     syncs fd (trace (main e' argv)) = O) /\
  closes 4 (trace (main_sigint e sample_argv 0)) = 1%nat /\
  syncs 4 (trace (main_sigint e sample_argv 0)) = 1%nat.
Proof.
  cbv zeta.
  split; [vm_compute; reflexivity|].
  split; [vm_compute; reflexivity|].
  split; [vm_compute; reflexivity|].
  split; [vm_compute; reflexivity|].
  split; [vm_compute; reflexivity|].
  split; [|split; vm_compute; reflexivity].
  intros e' argv fd. apply closes_nothing, main_keeps_open.
Qed.

(* ===================================================================== *)
(** * Parameter resolution *)

Lemma supported_test (g : globals) :
  supported g <->
  (((science_case g =? 3) || (science_case g =? 4))
   && ((science_mode g =? 0) || (science_mode g =? 2)))%bool = true.
Proof. unfold supported. lia. Qed.

(** C2.  In [main], once the log stream is open: science case 3 sets
    [ntimes = 12500] and [tsamp = 1.024/12500]; science case 4 sets
    [ntimes = 25000] and [tsamp = 1.024/25000]; science mode 0 sets
    [ntabs = 12] and science mode 2 sets [ntabs = 1]; a pair in
    {3,4} x {0,2} gets through with these three values, and every other
    pair ends in [exit(EXIT_FAILURE)] with no file created. *)
Theorem parameters_resolved (e : env) (file_prefix : string) (g : globals) :
  runlog g = true ->
  (science_case g = 3 ->
   exists g', main_science_case g = ([], Ret g') /\
              ntimes g' = 12500 /\ tsamp g' = (1.024 / 12500)%float) /\
  (science_case g = 4 ->
   exists g', main_science_case g = ([], Ret g') /\
              ntimes g' = 25000 /\ tsamp g' = (1.024 / 25000)%float) /\
  (science_mode g = 0 ->
   exists g', result (main_science_mode g) = Ret g' /\ ntabs g' = 12) /\
  (science_mode g = 2 ->
   exists g', result (main_science_mode g) = Ret g' /\ ntabs g' = 1) /\
  (supported g ->
   exists g', result (main_resolve e file_prefix g) = Ret g' /\
              ntimes g' = samples_for (science_case g) /\
              tsamp g' = interval_for (science_case g) /\
              ntabs g' = beams_for (science_mode g)) /\
  (~ supported g ->
   result (main_resolve e file_prefix g) = Exit EXIT_FAILURE /\
   created (trace (main_resolve e file_prefix g)) = []).
Proof.
  intros Hlog.
  destruct (main_resolve_cases e file_prefix g Hlog) as [Hoff Hres].
  split; [|split; [|split; [|split; [|split]]]].
  - intros H. unfold main_science_case. rewrite H. cbn [Z.eqb Pos.eqb].
    eexists. split; [reflexivity|]. split; reflexivity.
  - intros H. unfold main_science_case. rewrite H. cbn [Z.eqb Pos.eqb].
    eexists. split; [reflexivity|]. split; reflexivity.
  - intros H. unfold main_science_mode. rewrite H. cbn [Z.eqb].
    rewrite (LOG_open (set_ntabs 12 g)) by exact Hlog.
    eexists. split; reflexivity.
  - intros H. unfold main_science_mode. rewrite H. cbn [Z.eqb Pos.eqb].
    rewrite (LOG_open (set_ntabs 1 g)) by exact Hlog.
    eexists. split; reflexivity.
  - intros H. apply supported_test in H. rewrite H in Hres.
    eexists. split; [exact Hres|]. repeat split.
  - intros H. split.
    + rewrite Hres.
      destruct (((science_case g =? 3) || (science_case g =? 4))
                && ((science_mode g =? 0) || (science_mode g =? 2)))%bool
        eqn:E; [|reflexivity].
      apply supported_test in E. contradiction.
    + apply created_nothing.
      eapply Forall_impl; [exact Hoff | exact off_file_creates_nothing].
Qed.

Lemma parameters_resolved_witness :
  let g := default globals0
             (parse_header padded_header (set_runlog true globals0)) in
  runlog g = true /\
  exists g', main_science_case g = ([], Ret g') /\
             ntimes g' = 12500 /\ tsamp g' = (1.024 / 12500)%float.
Proof.
  cbv zeta. split; [reflexivity|].
  apply (proj1 (parameters_resolved (sample_env padded_header RbEod) "test"
                  (default globals0
                     (parse_header padded_header
                        (set_runlog true globals0)))
                  eq_refl)).
  reflexivity.
Defined.

(* ===================================================================== *)
(** * Unsupported modes *)

Lemma science_mode_parsed (h : header) (g g1 : globals) (m : Z) :
  parse_header h g = Some g1 ->
  header_find h "SCIENCE_MODE" = Some (HInt m) ->
  science_mode g1 = m.
Proof.
  intros Hp H.
  destruct (parse_header_fields h g g1 Hp) as (_ & _ & _ & -> & _).
  unfold ascii_header_get_i. now rewrite H.
Qed.

(** From the header on: a header with science mode 1 never gets to
    [open_files]. *)
Lemma main_setup_polarization (e : env) (key file_prefix : string)
    (g : globals) (h : header) :
  runlog g = true ->
  env_header e = Some h ->
  header_find h "SCIENCE_MODE" = Some (HInt 1) ->
  fails (main_setup e key file_prefix g) /\
  Forall off_file (trace (main_setup e key file_prefix g)) /\
  (forall g1,
     env_connect_ok e = true -> env_lock_ok e = true ->
     env_header_clear_ok e = true ->
     parse_header h g = Some g1 ->
     science_case g1 = 3 \/ science_case g1 = 4 ->
     result (main_setup e key file_prefix g) = Exit EXIT_FAILURE /\
     exists t,
       trace (main_setup e key file_prefix g)
       = t ++ [Stdout "Error: modes IQUV+TAB / IQUV+IAB not supported" [];
               Runlog "Error: modes IQUV+TAB / IQUV+IAB not supported" []]).
Proof.
  intros Hlog Hh Hmode. unfold main_setup, fails.
  destruct (init_ringbuffer_cases e key g Hlog)
    as [Hoff [Hexit | [(h' & Hh' & Hc & Hl & Hp & Hfault)
                      | (h' & g1 & Hh' & Hc & Hl & Hcl & Hp & Hret)]]].
  - rewrite (trace_bind_exit _ _ _ Hexit), (result_bind_exit _ _ _ Hexit).
    split; [now left|]. split; [exact Hoff|].
    intros g1 Hc Hl Hcl Hp _.
    rewrite (init_ringbuffer_run e key g g1 h Hlog Hc Hl Hh Hcl Hp)
      in Hexit.
    discriminate Hexit.
  - rewrite Hh in Hh'. injection Hh' as <-.
    rewrite (trace_bind_fault _ _ Hfault), (result_bind_fault _ _ Hfault).
    split; [now right|]. split; [exact Hoff|].
    intros g1 _ _ _ Hp' _. rewrite Hp in Hp'. discriminate Hp'.
  - rewrite Hh in Hh'. injection Hh' as <-.
    rewrite (trace_bind_ret _ _ _ Hret), (result_bind_ret _ _ _ Hret).
    pose proof (science_mode_parsed h g g1 1 Hp Hmode) as Hm.
    assert (Hlog' : runlog g1 = true)
      by (now rewrite (parse_header_runlog h g g1 Hp)).
    destruct (main_resolve_cases e file_prefix g1 Hlog') as [Hoff' Hres].
    rewrite Hm in Hres. cbn [Z.eqb orb] in Hres.
    rewrite andb_false_r in Hres.
    rewrite (trace_bind_exit _ _ _ Hres), (result_bind_exit _ _ _ Hres).
    split; [now left|]. split.
    + apply Forall_app. split; assumption.
    + intros g1' _ _ _ Hp' Hcase. rewrite Hp in Hp'. injection Hp' as <-.
      split; [reflexivity|].
      destruct (main_resolve_polarization e file_prefix g1
                  Hlog' Hcase (or_introl Hm)) as [t Ht].
      exists (trace (init_ringbuffer e key g) ++ t).
      rewrite Ht. now rewrite app_assoc.
Qed.

(** C8 (as amended).  When the header block carries science mode 1, [main]
    ends in failure and calls [filterbank_create] not once; when moreover
    the calls before the test of the mode succeed, the header is parsed
    (its source name fits [source_name]) and the science case is 3 or 4
    (given in the header, or 3 by default), the last thing the run does is
    print the diagnostic of the unsupported modes, and it exits with
    [EXIT_FAILURE]. *)
Theorem polarization_rejected (e : env) (argv : list string) (h : header) :
  env_header e = Some h ->
  header_find h "SCIENCE_MODE" = Some (HInt 1) ->
  fails (main e argv) /\
  created (trace (main e argv)) = [] /\
  (forall key file_prefix g g1,
     result (main_startup e argv) = Ret (key, file_prefix, g) ->
     env_connect_ok e = true -> env_lock_ok e = true ->
     env_header_clear_ok e = true ->
     parse_header h g = Some g1 ->
     science_case g1 = 3 \/ science_case g1 = 4 ->
     result (main e argv) = Exit EXIT_FAILURE /\
     exists t,
       trace (main e argv)
       = t ++ [Stdout "Error: modes IQUV+TAB / IQUV+IAB not supported" [];
               Runlog "Error: modes IQUV+TAB / IQUV+IAB not supported" []]).
Proof.
  intros Hh Hmode. unfold main, fails.
  destruct (main_startup_cases e argv)
    as [Hcons [[Hfail | Hfail] | (key & file_prefix & Hret)]].
  - rewrite (trace_bind_exit _ _ _ Hfail), (result_bind_exit _ _ _ Hfail).
    split; [now left|]. split.
    + apply created_nothing.
      eapply Forall_impl; [exact Hcons | exact console_creates_nothing].
    + intros k p g' g1 Hr. rewrite Hr in Hfail. discriminate Hfail.
  - rewrite (trace_bind_fault _ _ Hfail), (result_bind_fault _ _ Hfail).
    split; [now right|]. split.
    + apply created_nothing.
      eapply Forall_impl; [exact Hcons | exact console_creates_nothing].
    + intros k p g' g1 Hr. rewrite Hr in Hfail. discriminate Hfail.
  - rewrite (trace_bind_ret _ _ _ Hret), (result_bind_ret _ _ _ Hret).
    unfold main_run.
    destruct (main_setup_polarization e key file_prefix
                (set_runlog true globals0) h eq_refl Hh Hmode)
      as [Hres [Hoff Hlast]].
    assert (Hcreated : created (trace (main_startup e argv)
                                  ++ trace (main_setup e key file_prefix
                                              (set_runlog true globals0)))
                       = []).
    { apply created_nothing, Forall_app. split.
      - eapply Forall_impl; [exact Hcons | exact console_creates_nothing].
      - eapply Forall_impl; [exact Hoff | exact off_file_creates_nothing]. }
    destruct Hres as [Hres | Hres].
    + rewrite (trace_bind_exit _ _ _ Hres), (result_bind_exit _ _ _ Hres).
      split; [now left|]. split; [exact Hcreated|].
      intros k p g' g1 Hr Hc Hl Hcl Hp Hcase.
      rewrite Hret in Hr. injection Hr as <- <- <-.
      split; [reflexivity|].
      destruct (Hlast g1 Hc Hl Hcl Hp Hcase) as [_ [t Ht]].
      exists (trace (main_startup e argv) ++ t).
      rewrite Ht. now rewrite app_assoc.
    + rewrite (trace_bind_fault _ _ Hres), (result_bind_fault _ _ Hres).
      split; [now right|]. split; [exact Hcreated|].
      intros k p g' g1 Hr Hc Hl Hcl Hp Hcase.
      rewrite Hret in Hr. injection Hr as <- <- <-.
      destruct (Hlast g1 Hc Hl Hcl Hp Hcase) as [Hexit _].
      rewrite Hexit in Hres. discriminate Hres.
Qed.

Lemma polarization_rejected_witness :
  let e := sample_env polarization_header RbEod in
  env_header e = Some polarization_header /\
  header_find polarization_header "SCIENCE_MODE" = Some (HInt 1) /\
  fails (main e sample_argv) /\
  created (trace (main e sample_argv)) = [].
Proof.
  cbv zeta. split; [reflexivity|]. split; [reflexivity|].
  destruct (polarization_rejected (sample_env polarization_header RbEod)
              sample_argv polarization_header eq_refl eq_refl)
    as [Hfails [Hcreated _]].
  split; [exact Hfails | exact Hcreated].
Defined.

(** C8 (as stated) fails when the science case is not supported either:
    with science case 5 and science mode 1 the run ends on the diagnostic
    of the illegal science case, and the diagnostic of the unsupported
    modes is not printed. *)
Lemma polarization_rejected_counterexample :
  let e := sample_env illegal_case_header RbEod in
  header_find illegal_case_header "SCIENCE_MODE" = Some (HInt 1) /\
  result (main e sample_argv) = Exit EXIT_FAILURE /\
  ~ In (Stdout "Error: modes IQUV+TAB / IQUV+IAB not supported" [])
       (trace (main e sample_argv)) /\
  exists t,
    trace (main e sample_argv)
    = t ++ [Stdout "Error: Illegal science case '%i'" [AInt 1];
            Runlog "Error: Illegal science case '%i'" [AInt 1]].
Proof.
  cbv zeta. split; [reflexivity|]. split; [reflexivity|]. split.
  - intros H. vm_compute in H.
    repeat (destruct H as [H|H]; [discriminate H|]). exact H.
  - eexists [_; _; _; _; _; _; _; _; _]. vm_compute. reflexivity.
Qed.

(* ===================================================================== *)
(** * Fields missing from the header *)

Lemma bind_assoc {A B C} (m : prog A) (k1 : A -> prog B) (k2 : B -> prog C) :
  (m ≫= k1) ≫= k2 = m ≫= (fun a => k1 a ≫= k2).
Proof.
  destruct m as [t [a|c|]]; [|reflexivity|reflexivity].
  rewrite !bind_ret. destruct (k1 a) as [t1 [b|c|]]; cbn [trace result fst snd].
  - rewrite !bind_ret. cbn [trace result fst snd]. now rewrite app_assoc.
  - reflexivity.
  - reflexivity.
Qed.

Lemma header_find_app (h1 h2 : header) (k : string) :
  header_find (h1 ++ h2) k
  = match header_find h1 k with
    | Some v => Some v
    | None => header_find h2 k
    end.
Proof.
  induction h1 as [|[k' v] h1 IH]; cbn [app header_find].
  - reflexivity.
  - destruct (String.eqb k' k); [reflexivity | exact IH].
Qed.

(** Adding the default lines changes nothing of what the header parses
    to, so long as the three integers still hold their initial values. *)
Lemma parse_header_supply (h : header) (g : globals) :
  science_case g = 3 -> science_mode g = 2 -> padded_size g = 12500 ->
  parse_header (supply_defaults h) g = parse_header h g.
Proof.
  intros Hc Hm Hp. destruct g. cbn in Hc, Hm, Hp. subst.
  unfold parse_header, supply_defaults, ascii_header_get_i,
    ascii_header_get_lf, ascii_header_get_s.
  cbn [output runlog science_case science_mode padded_size min_frequency
       bandwidth ra dec source_name az_start za_start mjd_start tsamp
       ntimes ntabs].
  rewrite !header_find_app.
  change (header_find default_fields "SOURCE") with (@None hvalue).
  assert (Hname : match
                    match header_find h "SOURCE" with
                    | Some v => Some v
                    | None => None
                    end
                  with
                  | Some (HString s) =>
                      if (String.length s <? 256)%nat then Some s else None
                  | _ => Some source_name0
                  end
                  = match header_find h "SOURCE" with
                    | Some (HString s) =>
                        if (String.length s <? 256)%nat then Some s else None
                    | _ => Some source_name0
                    end).
  { destruct (header_find h "SOURCE") as [[z|f|s]|]; reflexivity. }
  rewrite Hname.
  destruct (match header_find h "SOURCE" with
            | Some (HString s) =>
                if (String.length s <? 256)%nat then Some s else None
            | _ => Some source_name0
            end) as [name|]; [|reflexivity].
  cbn [mbind option_bind]. f_equal.
  f_equal;
    match goal with
    | |- context [header_find h ?k] =>
        destruct (header_find h k) as [[z|f|s]|]; reflexivity
    end.
Qed.

Lemma process_page_returns (g : globals) (page : mem) :
  forall count start buffer,
  exists buffer',
    result (forM_from start count (process_tab g page) buffer)
    = Ret buffer'.
Proof.
  induction count as [|count IH]; intros start buffer.
  - now exists buffer.
  - cbn [forM_from].
    rewrite (result_bind_ret (process_tab g page start buffer) _
               (transcode g start page buffer) eq_refl).
    apply IH.
Qed.

Lemma main_loop_returns (g : globals) :
  forall script buffer page_count,
  exists st, result (main_loop g script buffer page_count) = Ret st.
Proof.
  induction script as [|eod|page rest IH]; intros buffer page_count;
    cbn [main_loop].
  - eexists. reflexivity.
  - eexists. reflexivity.
  - destruct (process_page_returns g page (Z.to_nat (ntabs g)) 0 buffer)
      as [buffer' Hr].
    unfold process_page, forM_lt.
    rewrite (result_bind_ret _ _ _ Hr), emit_bind. cbn [result snd].
    apply IH.
Qed.

(** Once the files are open and the log stream too, [main] goes through
    to its end whatever the ring buffer delivers. *)
Lemma main_stream_returns (e : env) (g : globals) :
  runlog g = true -> result (main_stream e g) = Ret 0.
Proof.
  intros Hlog. unfold main_stream.
  destruct (main_loop_returns g (env_script e) (env_heap e) 0) as [st Hr].
  rewrite (result_bind_ret _ _ _ Hr).
  destruct (ls_eod st).
  - rewrite (LOG_open g) by assumption. cbn [result snd].
    rewrite !emit_bind. cbn [result snd].
    rewrite (LOG_open g) by assumption. reflexivity.
  - rewrite mret_bind, !emit_bind. cbn [result snd].
    rewrite (LOG_open g) by assumption. reflexivity.
Qed.

Lemma file_events_app (t1 t2 : list event) :
  file_events (t1 ++ t2) = file_events t1 ++ file_events t2.
Proof. apply List.filter_app. Qed.

Lemma main_run_tail (e : env) (key file_prefix : string) (g : globals) :
  main_run e key file_prefix g
  = init_ringbuffer e key g ≫= main_tail e file_prefix.
Proof. unfold main_run, main_setup, main_tail. apply bind_assoc. Qed.

(** A run on the header with the default lines added ends as the run on
    the header itself and does the same to the output files. *)
Lemma main_run_supply (e : env) (key file_prefix : string) (g : globals)
    (h : header) :
  runlog g = true ->
  science_case g = 3 -> science_mode g = 2 -> padded_size g = 12500 ->
  env_header e = Some h ->
  result (main_run (with_header e (supply_defaults h)) key file_prefix g)
  = result (main_run e key file_prefix g) /\
  file_events
    (trace (main_run (with_header e (supply_defaults h)) key file_prefix g))
  = file_events (trace (main_run e key file_prefix g)).
Proof.
  intros Hlog Hc Hm Hp Hh. rewrite !main_run_tail.
  pose proof (parse_header_supply h g Hc Hm Hp) as Hsupply.
  destruct (env_connect_ok e) eqn:Ec; [destruct (env_lock_ok e) eqn:El;
    [destruct (parse_header h g) as [g1|] eqn:Hp1;
       [destruct (env_header_clear_ok e) eqn:Ecl|]|]|].
  - rewrite (init_ringbuffer_run e key g g1 h) by assumption.
    rewrite (init_ringbuffer_run (with_header e (supply_defaults h)) key g
               g1 (supply_defaults h))
      by first [exact Hlog | exact Ec | exact El | exact Ecl
               | exact Hsupply | reflexivity].
    rewrite !bind_ret. cbn [trace result fst snd].
    change (main_tail (with_header e (supply_defaults h)))
      with (main_tail e).
    split; [reflexivity|]. now rewrite !file_events_app.
  - unfold init_ringbuffer, LOG. cbn [runlog env_connect_ok
      env_lock_ok env_header env_header_clear_ok with_header].
    rewrite Hsupply, Hlog, Ec, El, Hh, Hp1, Ecl,
      (parse_header_runlog h g g1 Hp1), Hlog.
    split; reflexivity.
  - unfold init_ringbuffer, LOG. cbn [runlog env_connect_ok
      env_lock_ok env_header env_header_clear_ok with_header].
    rewrite Hsupply, Hlog, Ec, El, Hh, Hp1. split; reflexivity.
  - unfold init_ringbuffer, LOG. cbn [runlog env_connect_ok
      env_lock_ok env_header env_header_clear_ok with_header].
    rewrite Hlog, Ec, El. split; reflexivity.
  - unfold init_ringbuffer, LOG. cbn [runlog env_connect_ok
      env_lock_ok env_header env_header_clear_ok with_header].
    rewrite Hlog, Ec. split; reflexivity.
Qed.

Lemma created_app (t1 t2 : list event) :
  created (t1 ++ t2) = created t1 ++ created t2.
Proof.
  induction t1 as [|ev t1 IH]; [reflexivity|].
  destruct ev; cbn [app created]; congruence.
Qed.

(** [main] after the header, for a supported case and mode: it resolves
    the parameters, opens one file per beam, installs the handler, streams
    the pages and returns 0. *)
Lemma main_tail_supported (e : env) (file_prefix : string) (g : globals) :
  runlog g = true -> supported g ->
  let g2 := set_ntabs (beams_for (science_mode g))
              (set_sampling (samples_for (science_case g))
                            (interval_for (science_case g)) g) in
  let g3 := set_output
              (outputs_from e 0 (Z.to_nat (ntabs g2)) (output g2)) g2 in
  main_tail e file_prefix g
  = (trace (main_resolve e file_prefix g)
     ++ List.map (create_beam e file_prefix g2 (ntabs g2))
                 (seqZ 0 (ntabs g2))
     ++ [SignalInstall] ++ trace (main_stream e g3),
     Ret 0).
Proof.
  intros Hlog Hsup g2 g3.
  destruct (main_resolve_cases e file_prefix g Hlog) as [_ Hres].
  apply supported_test in Hsup as Htest. rewrite Htest in Hres.
  fold g2 in Hres.
  assert (Hn : 0 <= ntabs g2 <= MAXTABS).
  { unfold g2, beams_for, MAXTABS. cbn [ntabs set_ntabs].
    destruct (science_mode g =? 0); lia. }
  unfold main_tail.
  destruct (main_resolve e file_prefix g) as [tr r].
  cbn [result snd] in Hres. subst r. cbn [trace fst].
  rewrite bind_ret, open_files_run by exact Hn. fold g3.
  rewrite bind_ret, emit_bind. cbn [trace result fst snd mret prog_ret].
  rewrite bind_ret, (main_stream_returns e g3) by exact Hlog.
  now rewrite <- !app_assoc.
Qed.

(** C9.  A run on a header block ends as the run on the header with the
    lines SCIENCE_CASE 3, SCIENCE_MODE 2 and PADDED_SIZE 12500 supplied
    where it has none, and does the same to the output files.  When the
    source name of the header fits its array, a header without
    SCIENCE_CASE, SCIENCE_MODE or PADDED_SIZE leaves the corresponding
    variable at its initial value, 3, 2 and 12500; and with start-up and
    the ring buffer calls succeeding, no missing line makes [main] fail:
    whichever of the three lines are missing, [main] opens the files of
    its beams and returns 0 so long as the case and the mode that are given
    are supported ones. *)
Theorem defaults_for_missing_fields (e : env) (argv : list string)
    (h : header) :
  env_header e = Some h ->
  result (main (with_header e (supply_defaults h)) argv)
  = result (main e argv) /\
  file_events (trace (main (with_header e (supply_defaults h)) argv))
  = file_events (trace (main e argv)) /\
  (forall g,
     parse_header h (set_runlog true globals0) = Some g ->
     (omits h "SCIENCE_CASE" -> science_case g = 3) /\
     (omits h "SCIENCE_MODE" -> science_mode g = 2) /\
     (omits h "PADDED_SIZE" -> padded_size g = 12500) /\
     (transport_ready e ->
      forall key file_prefix g0,
        result (main_startup e argv) = Ret (key, file_prefix, g0) ->
        omits h "SCIENCE_CASE" \/ science_case g = 3 \/ science_case g = 4 ->
        omits h "SCIENCE_MODE" \/ science_mode g = 0 \/ science_mode g = 2 ->
        result (main e argv) = Ret 0 /\
        created (trace (main e argv))
        = List.map (fname_of file_prefix (beams_for (science_mode g)))
                   (seqZ 0 (beams_for (science_mode g))))).
Proof.
  intros Hh. unfold omits.
  assert (Hsame : result (main (with_header e (supply_defaults h)) argv)
                  = result (main e argv) /\
                  file_events
                    (trace (main (with_header e (supply_defaults h)) argv))
                  = file_events (trace (main e argv))).
  { unfold main.
    change (main_startup (with_header e (supply_defaults h)) argv)
      with (main_startup e argv).
    destruct (main_startup_cases e argv)
      as [_ [[Hfail | Hfail] | (key & file_prefix & Hret)]].
    - now rewrite !(trace_bind_exit _ _ _ Hfail),
        !(result_bind_exit _ _ _ Hfail).
    - now rewrite !(trace_bind_fault _ _ Hfail),
        !(result_bind_fault _ _ Hfail).
    - rewrite !(trace_bind_ret _ _ _ Hret), !(result_bind_ret _ _ _ Hret).
      destruct (main_run_supply e key file_prefix
                  (set_runlog true globals0) h
                  eq_refl eq_refl eq_refl eq_refl Hh) as [Er Et].
      split; [exact Er|]. rewrite !file_events_app. now rewrite Et. }
  split; [exact (proj1 Hsame)|]. split; [exact (proj2 Hsame)|].
  intros g Hparse.
  destruct (parse_header_fields h _ g Hparse)
    as (Hlog & _ & Ecase & Emode & Epad).
  cbn [runlog science_case science_mode padded_size set_runlog globals0]
    in Hlog, Ecase, Emode, Epad.
  unfold ascii_header_get_i in Ecase, Emode, Epad.
  assert (Hcase : header_find h "SCIENCE_CASE" = None -> science_case g = 3).
  { intros H. now rewrite H in Ecase. }
  assert (Hmode : header_find h "SCIENCE_MODE" = None -> science_mode g = 2).
  { intros H. now rewrite H in Emode. }
  split; [exact Hcase|]. split; [exact Hmode|]. split.
  { intros H. now rewrite H in Epad. }
  intros (Hc & Hl & Hcl) key file_prefix g0 Hret Hcs Hms.
  assert (Hg0 : g0 = set_runlog true globals0).
  { destruct (main_startup_cases e argv)
      as [_ [[Hfail | Hfail] | (k & p & Hret')]];
      rewrite Hret in *; try discriminate.
    now injection Hret' as _ _ ->. }
  subst g0.
  assert (Hsup : supported g).
  { split.
    - destruct Hcs as [H|H]; [left; exact (Hcase H) | exact H].
    - destruct Hms as [H|H]; [right; exact (Hmode H) | exact H]. }
  pose proof (main_tail_supported e file_prefix g Hlog Hsup) as Htail.
  cbv zeta in Htail.
  unfold main.
  rewrite (trace_bind_ret _ _ _ Hret), (result_bind_ret _ _ _ Hret).
  rewrite main_run_tail.
  rewrite (init_ringbuffer_run e key (set_runlog true globals0) g h
             eq_refl Hc Hl Hh Hcl Hparse).
  rewrite bind_ret, Htail. cbn [trace result fst snd].
  split; [reflexivity|].
  rewrite !created_app.
  rewrite (created_nothing (trace (main_startup e argv))).
  2:{ eapply Forall_impl; [apply main_startup_cases|].
      exact console_creates_nothing. }
  rewrite (created_nothing (trace (main_resolve e file_prefix g))).
  2:{ eapply Forall_impl; [apply (main_resolve_cases e file_prefix g Hlog)|].
      exact off_file_creates_nothing. }
  rewrite (created_nothing (trace (main_stream e _))).
  2:{ eapply Forall_impl; [apply main_stream_events|].
      exact stream_event_creates_nothing. }
  rewrite created_create_beam.
  cbn [created app ntabs set_ntabs]. now rewrite app_nil_r.
Qed.

Lemma defaults_for_missing_fields_witness :
  let h := [("SOURCE"%string, HString "B0329+54");
            ("SCIENCE_MODE"%string, HInt 0)] in
  let e := sample_env h RbEod in
  env_header e = Some h /\
  omits h "SCIENCE_CASE" /\ omits h "PADDED_SIZE" /\ transport_ready e /\
  exists g,
    parse_header h (set_runlog true globals0) = Some g /\
    science_case g = 3 /\ padded_size g = 12500 /\
    result (main e sample_argv) = Ret 0 /\
    created (trace (main e sample_argv))
    = ["test_01.fil"; "test_02.fil"; "test_03.fil"; "test_04.fil";
       "test_05.fil"; "test_06.fil"; "test_07.fil"; "test_08.fil";
       "test_09.fil"; "test_10.fil"; "test_11.fil"; "test_12.fil"]%string.
Proof.
  cbv zeta.
  destruct (defaults_for_missing_fields
              (sample_env [("SOURCE"%string, HString "B0329+54");
                           ("SCIENCE_MODE"%string, HInt 0)] RbEod)
              sample_argv
              [("SOURCE"%string, HString "B0329+54");
               ("SCIENCE_MODE"%string, HInt 0)] eq_refl)
    as (_ & _ & Hparsed).
  assert (Hready : transport_ready
                     (sample_env [("SOURCE"%string, HString "B0329+54");
                                  ("SCIENCE_MODE"%string, HInt 0)] RbEod)).
  { repeat split. }
  split; [reflexivity|]. split; [reflexivity|]. split; [reflexivity|].
  split; [exact Hready|].
  eexists. split; [reflexivity|].
  match goal with
  | |- science_case ?g = 3 /\ _ =>
      destruct (Hparsed g eq_refl) as (Hcase & _ & Hpad & Hrun)
  end.
  destruct (Hrun Hready "dada"%string "test"%string
              (set_runlog true globals0) eq_refl
              (or_introl eq_refl) (or_intror (or_introl eq_refl)))
    as [Hres Hcreated].
  split; [exact (Hcase eq_refl)|]. split; [exact (Hpad eq_refl)|].
  split; [exact Hres | exact Hcreated].
Defined.

(* ===================================================================== *)
(** * A run with twelve beams *)

(** The twelve-beam globals are those [main] has when its files are
    open. *)
Lemma wide_open_globals_reached :
  result (main_setup (sample_env wide_header RbEod) "dada" "obs"
            (set_runlog true globals0))
  = Ret wide_open_globals.
Proof. vm_compute. reflexivity. Qed.

Lemma wide_open_output_at (b : Z) :
  0 <= b < 12 -> output_at wide_open_globals b = 4 + b.
Proof.
  intros Hb.
  assert (H : b = 0 \/ b = 1 \/ b = 2 \/ b = 3 \/ b = 4 \/ b = 5 \/ b = 6
              \/ b = 7 \/ b = 8 \/ b = 9 \/ b = 10 \/ b = 11) by lia.
  repeat (destruct H as [-> | H]; [reflexivity|]).
  subst b. reflexivity.
Qed.

Lemma wide_open_distinct : distinct_outputs wide_open_globals.
Proof.
  intros b b' Hb Hb' H.
  change (ntabs wide_open_globals) with 12 in Hb, Hb'.
  rewrite !wide_open_output_at in H by assumption. lia.
Qed.

Lemma blocks_in_page_order_witness :
  let pages := [marked_page 1; blank_page; marked_page 2] in
  let e := sample_env wide_header (pages_then_eod pages) in
  ntimes wide_open_globals * nchannels <= 2 ^ 32 /\
  runlog wide_open_globals = true /\
  distinct_outputs wide_open_globals /\
  env_script e = pages_then_eod pages /\
  0 <= 3 < ntabs wide_open_globals /\
  result (main_stream e wide_open_globals) = Ret 0 /\
  writes_to (output_at wide_open_globals 3)
            (trace (main_stream e wide_open_globals))
  = List.map (beam_block wide_open_globals 3) pages.
Proof.
  cbv zeta.
  assert (H1 : ntimes wide_open_globals * nchannels <= 2 ^ 32)
    by (vm_compute; discriminate).
  assert (H2 : 0 <= 3 < ntabs wide_open_globals)
    by (vm_compute; split; [discriminate | reflexivity]).
  destruct (blocks_in_page_order
              (sample_env wide_header
                 (pages_then_eod [marked_page 1; blank_page; marked_page 2]))
              wide_open_globals [marked_page 1; blank_page; marked_page 2] 3
              H1 eq_refl wide_open_distinct eq_refl H2)
    as (Hres & Hwrites & _).
  split; [exact H1|]. split; [reflexivity|].
  split; [exact wide_open_distinct|]. split; [reflexivity|].
  split; [exact H2|]. split; [exact Hres | exact Hwrites].
Defined.

(* ===================================================================== *)
(** * The interrupt handler *)

Lemma closes_app (fd : Z) (t1 t2 : list event) :
  closes fd (t1 ++ t2) = (closes fd t1 + closes fd t2)%nat.
Proof.
  induction t1 as [|ev t1 IH]; [reflexivity|].
  destruct ev; cbn [app closes]; try exact IH.
  destruct (_ =? _); cbn [Nat.add]; congruence.
Qed.

Lemma syncs_app (fd : Z) (t1 t2 : list event) :
  syncs fd (t1 ++ t2) = (syncs fd t1 + syncs fd t2)%nat.
Proof.
  induction t1 as [|ev t1 IH]; [reflexivity|].
  destruct ev; cbn [app syncs]; try exact IH.
  destruct (_ =? _); cbn [Nat.add]; congruence.
Qed.

Section Handler.
Variable g : globals.
Variable b : Z.
Hypothesis b_beam : 0 <= b < ntabs g.
Hypothesis b_open : output_at g b <> 0.
Hypothesis outputs_distinct : distinct_outputs g.

(** The loop of the handler synchronizes and closes the descriptor of
    beam [b] when it comes to [b], and at no other turn. *)
Lemma sigint_loop_from :
  forall (count : nat) (start : Z),
    0 <= start -> start + Z.of_nat count <= ntabs g ->
    let run := forM_from start count (sigint_close g) tt in
    result run = Ret tt /\
    closes (output_at g b) (trace run)
    = (if ((start <=? b) && (b <? start + Z.of_nat count))%bool
       then 1%nat else 0%nat) /\
    syncs (output_at g b) (trace run)
    = (if ((start <=? b) && (b <? start + Z.of_nat count))%bool
       then 1%nat else 0%nat).
Proof.
  induction count as [|count IH]; intros start H0 Hn; cbv zeta.
  - replace ((start <=? b) && (b <? start + Z.of_nat 0))%bool
      with false by lia.
    repeat split.
  - destruct (IH (start + 1) ltac:(lia) ltac:(lia)) as (Hr & Hc & Hs).
    cbn [forM_from].
    assert (Hturn : exists t,
               sigint_close g start tt = (t, Ret tt) /\
               closes (output_at g b) t
               = (if start =? b then 1%nat else 0%nat) /\
               syncs (output_at g b) t
               = (if start =? b then 1%nat else 0%nat)).
    { unfold sigint_close.
      destruct (Z.eqb_spec start b) as [->|Hne].
      - apply Z.eqb_neq in b_open. rewrite b_open.
        eexists. split; [reflexivity|].
        cbn [app closes syncs]. now rewrite Z.eqb_refl.
      - destruct (output_at g start =? 0); [now exists []|].
        eexists. split; [reflexivity|]. cbn [app closes syncs].
        destruct (Z.eqb_spec (output_at g start) (output_at g b)) as [E|E];
          [|split; reflexivity].
        apply outputs_distinct in E; [contradiction | lia | lia]. }
    destruct Hturn as (t & -> & Hct & Hst).
    rewrite bind_ret. cbn [trace result fst snd].
    rewrite closes_app, syncs_app, Hc, Hs, Hct, Hst.
    split; [exact Hr|].
    destruct (Z.eqb_spec start b) as [->|Hne].
    + replace ((b + 1 <=? b) && (b <? b + 1 + Z.of_nat count))%bool
        with false by lia.
      replace ((b <=? b)
               && (b <? b + Z.of_nat (Datatypes.S count)))%bool
        with true by lia.
      split; reflexivity.
    + replace ((start <=? b)
               && (b <? start + Z.of_nat (Datatypes.S count)))%bool
        with ((start + 1 <=? b)
              && (b <? start + 1 + Z.of_nat count))%bool by lia.
      split; reflexivity.
Qed.

(** On SIGINT every open descriptor is synchronized once and closed
    once, and the process exits with failure. *)
Lemma sigint_handler_closes_once :
  runlog g = true ->
  result (sigint_handler g) = Exit EXIT_FAILURE /\
  closes (output_at g b) (trace (sigint_handler g)) = 1%nat /\
  syncs (output_at g b) (trace (sigint_handler g)) = 1%nat.
Proof.
  intros Hlog. unfold sigint_handler, forM_lt.
  destruct (sigint_loop_from (Z.to_nat (ntabs g)) 0 ltac:(lia) ltac:(lia))
    as (Hr & Hc & Hs).
  replace ((0 <=? b) && (b <? 0 + Z.of_nat (Z.to_nat (ntabs g))))%bool
    with true in Hc, Hs by lia.
  rewrite (LOG_open g) by exact Hlog. cbn [trace result fst snd].
  rewrite (trace_bind_ret _ _ _ Hr), (result_bind_ret _ _ _ Hr).
  cbn [exit trace result fst snd closes syncs].
  rewrite app_nil_r. auto.
Qed.
End Handler.

(* ===================================================================== *)
(** * More on the command line *)

Lemma returns_quietly_mret (o : opts) :
  opts_consistent o -> returns_quietly (mret o).
Proof. intros H o' E. injection E as <-. now split. Qed.

Lemma returns_quietly_exit (t : list event) (c : Z) :
  returns_quietly ((t, Exit c) : prog opts).
Proof. intros o E. discriminate E. Qed.

Lemma returns_quietly_bind (m : prog opts) (k : opts -> prog opts) :
  returns_quietly m ->
  (forall o, opts_consistent o -> returns_quietly (k o)) ->
  returns_quietly (m ≫= k).
Proof.
  intros Hm Hk o E. destruct m as [t [a|c|]].
  - destruct (Hm a eq_refl) as [Ha Ht]. cbn [trace fst] in Ht. subst t.
    rewrite bind_ret in *. cbn [trace result fst snd app] in *.
    now apply Hk.
  - discriminate E.
  - discriminate E.
Qed.

(** After a diagnostic on stderr the parser does not return. *)
Lemma returns_quietly_stderr fmt args (k : prog opts) :
  (forall o, result k <> Ret o) ->
  returns_quietly (emit (Stderr fmt args) ≫= (fun _ => k)).
Proof.
  intros Hk o E. rewrite emit_bind in E. cbn [result snd] in E.
  now apply Hk in E.
Qed.

Lemma parseOptions_switch_quiet (c : ascii) (optarg : string) (o : opts) :
  opts_consistent o -> returns_quietly (parseOptions_switch c optarg o).
Proof.
  intros (Hk & Hl & Hn). unfold parseOptions_switch.
  destruct (Ascii.eqb c "k");
    [apply returns_quietly_mret; repeat split; cbn; eauto|].
  destruct (Ascii.eqb c "l");
    [apply returns_quietly_mret; repeat split; cbn; eauto|].
  destruct (Ascii.eqb c "n");
    [apply returns_quietly_mret; repeat split; cbn; eauto|].
  destruct (Ascii.eqb c "h"); apply returns_quietly_exit.
Qed.

Lemma parseOptions_switch_question (o : opts) (k : opts -> prog opts) :
  forall o', result (parseOptions_switch "?" "" o ≫= k) <> Ret o'.
Proof. intros o' E. discriminate E. Qed.

Lemma getopt_cluster_quiet (argv0 : string) (rest_k : opts -> prog opts)
    (arg_k : option (string * (opts -> prog opts))) :
  (forall o, opts_consistent o -> returns_quietly (rest_k o)) ->
  (forall optarg after_k, arg_k = Some (optarg, after_k) ->
     forall o, opts_consistent o -> returns_quietly (after_k o)) ->
  forall s c o, opts_consistent o ->
                returns_quietly (getopt_cluster argv0 rest_k arg_k c s o).
Proof.
  intros Hrest Harg.
  induction s as [|c' s' IH]; intros c o Ho; cbn [getopt_cluster];
    destruct (optstring_find c optstring) as [[|]|] eqn:E.
  - destruct arg_k as [[optarg after_k]|].
    + apply returns_quietly_bind; [now apply parseOptions_switch_quiet|].
      now apply (Harg optarg after_k).
    + apply returns_quietly_stderr. intros o' E'. discriminate E'.
  - apply returns_quietly_bind; [now apply parseOptions_switch_quiet|].
    exact Hrest.
  - apply returns_quietly_stderr, parseOptions_switch_question.
  - apply returns_quietly_bind; [now apply parseOptions_switch_quiet|].
    exact Hrest.
  - apply returns_quietly_bind; [now apply parseOptions_switch_quiet|].
    apply IH.
  - apply returns_quietly_stderr, parseOptions_switch_question.
Qed.

Lemma getopt_loop_quiet (argv0 : string) :
  forall args o, opts_consistent o ->
                 returns_quietly (getopt_loop argv0 args o).
Proof.
  assert (H : forall n args, (length args <= n)%nat ->
                forall o, opts_consistent o ->
                          returns_quietly (getopt_loop argv0 args o)).
  { induction n as [|n IH]; intros args Hlen o Ho.
    - destruct args; [now apply returns_quietly_mret | simpl in Hlen; lia].
    - destruct args as [|a rest]; [now apply returns_quietly_mret|].
      simpl in Hlen. cbn [getopt_loop].
      destruct a as [|dash [|c s]]; try (apply IH; [lia | exact Ho]).
      destruct (negb (Ascii.eqb dash "-")); [apply IH; [lia | exact Ho]|].
      destruct (Ascii.eqb c "-" && String.eqb s "")%bool;
        [now apply returns_quietly_mret|].
      apply getopt_cluster_quiet; [| |exact Ho].
      + intros o' Ho'. apply IH; [lia | exact Ho'].
      + intros optarg after_k E o' Ho'.
        destruct rest as [|b rest']; [discriminate E|].
        injection E as _ <-. apply IH; [simpl in Hlen; lia | exact Ho']. }
  intros args o. now apply (H (length args)).
Qed.

Lemma parseOptions_returns_set (argv : list string) (o : opts) :
  result (parseOptions argv) = Ret o ->
  is_Some (key o) /\ is_Some (prefix o) /\ is_Some (logfile o) /\
  setk o = true /\ setl o = true /\ setn o = true /\
  trace (parseOptions argv) = [].
Proof.
  unfold parseOptions. intros E.
  assert (H0 : opts_consistent opts0) by (repeat split; discriminate).
  assert (Hloop : returns_quietly
            match argv with
            | [] => mret opts0
            | argv0 :: args => getopt_loop argv0 args opts0
            end).
  { destruct argv; [now apply returns_quietly_mret|].
    now apply getopt_loop_quiet. }
  destruct (match argv with
            | [] => mret opts0
            | argv0 :: args => getopt_loop argv0 args opts0
            end) as [t [o1|c|]]; try discriminate E.
  destruct (Hloop o1 eq_refl) as [(Hk & Hl & Hn) Ht].
  cbn [trace fst] in Ht. subst t.
  rewrite bind_ret in *. cbn [trace result fst snd app] in *.
  destruct (setk o1) eqn:Ek, (setl o1) eqn:El, (setn o1) eqn:En;
    cbn [negb orb] in E; try discriminate E.
  injection E as <-. rewrite Ek, El, En. cbn [negb orb].
  repeat split; auto.
Qed.

(** X1.  When [parseOptions] returns, the key, the file prefix and the log
    file name are all set, and nothing has been printed: [main] never reads
    one of the three pointers uninitialised. *)
Theorem parseOptions_returns_all_set (argv : list string) (o : opts) :
  result (parseOptions argv) = Ret o ->
  is_Some (key o) /\ is_Some (prefix o) /\ is_Some (logfile o) /\
  setk o = true /\ setl o = true /\ setn o = true /\
  trace (parseOptions argv) = [].
Proof. apply parseOptions_returns_set. Qed.

Lemma parseOptions_returns_all_set_witness :
  result (parseOptions sample_argv)
  = Ret {| key := Some "dada"; prefix := Some "test";
           logfile := Some "log.txt";
           setk := true; setl := true; setn := true |}%string /\
  trace (parseOptions sample_argv) = [].
Proof.
  split; [reflexivity|].
  exact (proj2 (proj2 (proj2 (proj2 (proj2 (proj2
           (parseOptions_returns_all_set sample_argv _ eq_refl))))))).
Defined.

(** X2.  The three options come back as given, whatever the strings: each
    value is the element after its flag, or the rest of the flag's own
    element when that is not empty; the order of the options is free, and
    of an option given twice the last value is kept. *)
Theorem parseOptions_round_trip (argv0 k l n k0 : string) (c : ascii) :
  let given k l n :=
    ([], Ret {| key := Some k; prefix := Some n; logfile := Some l;
                setk := true; setl := true; setn := true |}) : prog opts in
  parseOptions [argv0; "-k"; k; "-l"; l; "-n"; n]%string = given k l n /\
  parseOptions [argv0; "-n"; n; "-k"; k; "-l"; l]%string = given k l n /\
  parseOptions [argv0; "-k"; k0; "-l"; l; "-n"; n; "-k"; k]%string
  = given k l n /\
  parseOptions [argv0; String "-" (String "k" (String c k));
                String "-" (String "l" (String c l));
                String "-" (String "n" (String c n))]
  = given (String c k) (String c l) (String c n).
Proof. cbv zeta. repeat split; reflexivity. Qed.

Lemma getopt_loop_operands (argv0 : string) (rest : list string) (o : opts) :
  forall ops,
    Forall (fun a => is_operand a = true) ops ->
    getopt_loop argv0 (ops ++ rest) o = getopt_loop argv0 rest o.
Proof.
  induction 1 as [|a ops Ha _ IH]; [reflexivity|].
  cbn [app getopt_loop]. destruct a as [|dash [|c s]]; try exact IH.
  cbn [is_operand] in Ha. now rewrite Ha.
Qed.

(** X3.  A command line without options (none at all, or only elements
    that do not start with a dash, followed or not by [--] and anything)
    is refused: the three diagnostics of the missing options go to stderr,
    the third repeating the text of the first, and the program exits with
    failure. *)
Theorem parseOptions_without_options (argv0 : string)
    (ops rest : list string) :
  Forall (fun a => is_operand a = true) ops ->
  let refused :=
    ([Stderr "Error: DADA key not set\n" [];
      Stderr "Error: Log file not set\n" [];
      Stderr "Error: DADA key not set\n" []], Exit EXIT_FAILURE)
    : prog opts in
  parseOptions [] = refused /\
  parseOptions (argv0 :: ops) = refused /\
  parseOptions (argv0 :: ops ++ "--"%string :: rest) = refused.
Proof.
  intros Hops. cbv zeta. split; [reflexivity|]. split.
  - unfold parseOptions.
    rewrite <- (app_nil_r ops), getopt_loop_operands by exact Hops.
    reflexivity.
  - unfold parseOptions. rewrite getopt_loop_operands by exact Hops.
    reflexivity.
Qed.

Lemma parseOptions_without_options_witness :
  Forall (fun a => is_operand a = true) ["obs"; "-"; ""; "k"]%string /\
  parseOptions ("dadafilterbank" :: ["obs"; "-"; ""; "k"]
                ++ "--" :: ["-k"; "dada"; "-h"])%string
  = ([Stderr "Error: DADA key not set\n" [];
      Stderr "Error: Log file not set\n" [];
      Stderr "Error: DADA key not set\n" []], Exit EXIT_FAILURE).
Proof.
  assert (H : Forall (fun a => is_operand a = true)
                     ["obs"; "-"; ""; "k"]%string)
    by (repeat constructor).
  split; [exact H|].
  exact (proj2 (proj2 (parseOptions_without_options "dadafilterbank"
                         ["obs"; "-"; ""; "k"]%string
                         ["-k"; "dada"; "-h"]%string H))).
Defined.

(** X4.  The options [-b], [-c] and [-m] are in the option string, each
    with an argument, but the [switch] has no case for them: the first one
    met ends the program with [Unknow option] and a failure status,
    whatever comes with it or after it.  An option left without its
    argument at the end of the command line is reported by [getopt] and
    ends the program the same way, under the character ['?']. *)
Theorem parseOptions_unhandled_options (argv0 value value' : string)
    (rest : list string) :
  parseOptions (argv0 :: "-b"%string :: value :: rest)
  = ([Stderr "Unknow option '%c'\n" [AChar "b"]], Exit EXIT_FAILURE) /\
  parseOptions (argv0 :: "-c"%string :: value :: rest)
  = ([Stderr "Unknow option '%c'\n" [AChar "c"]], Exit EXIT_FAILURE) /\
  parseOptions (argv0 :: "-m"%string :: value :: rest)
  = ([Stderr "Unknow option '%c'\n" [AChar "m"]], Exit EXIT_FAILURE) /\
  parseOptions (argv0 :: "-k"%string :: value :: "-b"%string :: value'
                :: rest)
  = ([Stderr "Unknow option '%c'\n" [AChar "b"]], Exit EXIT_FAILURE) /\
  parseOptions [argv0; "-l"; value; "-k"]%string
  = ([Stderr "%s: option requires an argument -- '%c'\n"
        [AStr argv0; AChar "k"];
      Stderr "Unknow option '%c'\n" [AChar "?"]], Exit EXIT_FAILURE).
Proof.
  split; [destruct rest; reflexivity|].
  split; [destruct rest; reflexivity|].
  split; [destruct rest; reflexivity|].
  split; [destruct rest; reflexivity|].
  reflexivity.
Qed.

(* ===================================================================== *)
(** * How a run ends *)

(** An event is not in a list of events that are spelled out. *)
Ltac in_list H :=
  cbn [In] in H; repeat (destruct H as [H|H]; [discriminate H|]);
  contradiction.

(** An event is in a list of events that are spelled out. *)
Ltac in_list_solve :=
  cbn [In]; repeat (first [left; reflexivity | right]).

(** The source name of a header does not fit when the word under SOURCE
    has 256 characters or more. *)
Lemma parse_header_overflows (h : header) (g : globals) :
  parse_header h g = None <->
  exists s, header_find h "SOURCE" = Some (HString s) /\
            (256 <= String.length s)%nat.
Proof.
  unfold parse_header, ascii_header_get_s.
  destruct (header_find h "SOURCE") as [[z|f|s]|]; cbn [mbind option_bind];
    try (split; [intros H; discriminate H
                |intros (s' & H & _); discriminate H]).
  destruct (Nat.ltb_spec (String.length s) 256) as [Hlt|Hge];
    cbn [mbind option_bind].
  - split; [intros H; discriminate H|].
    intros (s' & H & Hlen). injection H as <-. lia.
  - split; [|reflexivity]. intros _. now exists s.
Qed.

(** [init_ringbuffer] case by case. *)
Lemma init_ringbuffer_by_cases (e : env) (key : string) (g : globals) :
  runlog g = true ->
  let run := init_ringbuffer e key g in
  (forall g', result run = Ret g' <->
     exists h, env_header e = Some h /\ transport_ready e /\
               parse_header h g = Some g') /\
  (result run = Fault <->
     exists h, env_header e = Some h /\ env_connect_ok e = true /\
               env_lock_ok e = true /\ parse_header h g = None) /\
  ((exists g', result run = Ret g') \/ result run = Exit EXIT_FAILURE
   \/ result run = Fault) /\
  (In HduLockRead (trace run) <-> env_connect_ok e = true) /\
  (In HeaderCleared (trace run) <->
   env_connect_ok e = true /\ env_lock_ok e = true /\
   exists h, env_header e = Some h /\ is_Some (parse_header h g)) /\
  Forall off_file (trace run).
Proof.
  intros Hlog. cbv zeta. unfold init_ringbuffer, LOG, transport_ready.
  rewrite Hlog.
  destruct (env_connect_ok e), (env_lock_ok e), (env_header e) as [h|];
    try destruct (parse_header h g) as [g1|] eqn:Hp;
    try rewrite (parse_header_runlog h g g1 Hp), Hlog;
    destruct (env_header_clear_ok e);
    cbn [mbind prog_bind mret prog_ret emit exit fault app trace result
         fst snd];
    (split;
     [intros g'; split;
      [intros E;
       first [discriminate E
             | injection E as <-; exists h; repeat split; exact Hp]
      |intros (h' & E1 & (E2 & E3 & E4) & E5);
       first [discriminate E1 | discriminate E2 | discriminate E3
             | discriminate E4
             | injection E1 as <-; rewrite Hp in E5;
               first [discriminate E5 | injection E5 as <-; reflexivity]]]|]);
    (split;
     [split;
      [intros E;
       first [discriminate E | exists h; repeat split; exact Hp]
      |intros (h' & E1 & E2 & E3 & E4);
       first [discriminate E1 | discriminate E2 | discriminate E3
             | reflexivity
             | injection E1 as <-; rewrite Hp in E4; discriminate E4]]|]);
    (split;
     [first [left; eexists; reflexivity | right; left; reflexivity
            | right; right; reflexivity]|]);
    (split;
     [split;
      [intros H; first [reflexivity | in_list H]
      |intros H; first [discriminate H | solve [in_list_solve]]]|]);
    (split;
     [split;
      [intros H;
       first [in_list H
             | split; [reflexivity|]; split; [reflexivity|];
               exists h; split; [reflexivity|]; rewrite Hp;
               eexists; reflexivity]
      |intros (H1 & H2 & h' & H3 & [g' H4]);
       first [discriminate H1 | discriminate H2 | discriminate H3
             | injection H3 as <-; rewrite Hp in H4; discriminate H4
             | solve [in_list_solve]]]
     |repeat constructor]).
Qed.

(** X5.  [init_ringbuffer] attempts its calls in order and stops at the
    first that fails: the lock is attempted only after a successful
    connection, and the header block is marked cleared only once
    connection, lock and header are there and the header is parsed.  It
    returns, with the header parsed into the globals, exactly when the
    four calls succeed and the word under SOURCE fits [source_name]; with
    connection, lock and header there and a word of 256 characters or more
    under SOURCE the scan writes past the array and the behaviour is
    undefined; in every other case it exits with failure.  It never
    touches an output file. *)
Theorem init_ringbuffer_outcome (e : env) (key : string) (g : globals) :
  runlog g = true ->
  let run := init_ringbuffer e key g in
  (forall g', result run = Ret g' <->
     exists h, env_header e = Some h /\ transport_ready e /\
               parse_header h g = Some g') /\
  (result run = Fault <->
     exists h s, env_header e = Some h /\ env_connect_ok e = true /\
                 env_lock_ok e = true /\
                 header_find h "SOURCE" = Some (HString s) /\
                 (256 <= String.length s)%nat) /\
  ((exists g', result run = Ret g') \/ result run = Exit EXIT_FAILURE
   \/ result run = Fault) /\
  (In HduLockRead (trace run) <-> env_connect_ok e = true) /\
  (In HeaderCleared (trace run) <->
   env_connect_ok e = true /\ env_lock_ok e = true /\
   exists h, env_header e = Some h /\ is_Some (parse_header h g)) /\
  Forall off_file (trace run).
Proof.
  intros Hlog. cbv zeta.
  destruct (init_ringbuffer_by_cases e key g Hlog)
    as (Hret & Hfault & Hends & Hlock & Hclear & Hoff).
  split; [exact Hret|]. split; [|auto].
  rewrite Hfault. split.
  - intros (h & Hh & Hc & Hl & Hp).
    apply parse_header_overflows in Hp as (s & Hs & Hlen).
    now exists h, s.
  - intros (h & s & Hh & Hc & Hl & Hs & Hlen).
    exists h. repeat split; try assumption.
    apply parse_header_overflows. now exists s.
Qed.

Lemma init_ringbuffer_outcome_witness :
  let e := sample_env bare_header RbEod in
  runlog (set_runlog true globals0) = true /\
  exists g',
    parse_header bare_header (set_runlog true globals0) = Some g' /\
    source_name g' = "B0329+54"%string /\
    result (init_ringbuffer e "dada" (set_runlog true globals0)) = Ret g'.
Proof.
  cbv zeta. split; [reflexivity|].
  eexists. split; [reflexivity|]. split; [reflexivity|].
  apply (proj1 (init_ringbuffer_outcome (sample_env bare_header RbEod) "dada"
                  (set_runlog true globals0) eq_refl)).
  exists bare_header. repeat split.
Defined.

(** How start-up ends, from how the parser ends and whether the log file
    opens. *)
Lemma main_startup_outcome (e : env) (argv : list string) :
  match result (parseOptions argv) with
  | Ret o =>
      exists k p l,
        key o = Some k /\ prefix o = Some p /\ logfile o = Some l /\
        main_startup e argv
        = if env_logfile_ok e
          then ([Stdout "Logging to logfile: %s\n" [AStr l];
                 Runlog "Logging to logfile: %s\n" [AStr l]],
                Ret (k, p, set_runlog true globals0))
          else ([Stdout "ERROR opening logfile: %s\n" [AStr l]], Fault)
  | Exit c =>
      main_startup e argv = (trace (parseOptions argv), Exit EXIT_FAILURE)
  | Fault => False
  end.
Proof.
  unfold main_startup.
  destruct (parseOptions_ok argv) as [_ Hres].
  destruct (parseOptions argv) as [t [o|c|]] eqn:E; cbn [result snd] in *.
  - assert (Er : result (parseOptions argv) = Ret o) by now rewrite E.
    destruct (parseOptions_returns_set argv o Er)
      as ([k Hk] & [p Hp] & [l Hl] & _ & _ & _ & Ht).
    rewrite E in Ht. cbn [trace fst] in Ht. subst t.
    exists k, p, l. repeat (split; [assumption|]).
    rewrite bind_ret. unfold main_logging. rewrite Hk, Hp, Hl.
    destruct (env_logfile_ok e); reflexivity.
  - destruct Hres as [[a Ha]|Hc]; [discriminate Ha|].
    injection Hc as ->. reflexivity.
  - destruct Hres as [[a Ha]|Hc]; discriminate.
Qed.

(** X6.  When the command line is accepted but the log file cannot be
    opened, the diagnostic reaches stdout only and the same [LOG] then
    prints to the null log stream: the run ends there, in undefined
    behaviour, and [exit(EXIT_FAILURE)] is not reached. *)
Theorem log_file_failure (e : env) (argv : list string) (o : opts) :
  result (parseOptions argv) = Ret o ->
  env_logfile_ok e = false ->
  exists l,
    logfile o = Some l /\
    main e argv = ([Stdout "ERROR opening logfile: %s\n" [AStr l]], Fault).
Proof.
  intros Hr Hlog. pose proof (main_startup_outcome e argv) as H.
  rewrite Hr, Hlog in H. destruct H as (k & p & l & _ & _ & Hl & Hs).
  exists l. split; [exact Hl|]. unfold main. now rewrite Hs.
Qed.

Lemma log_file_failure_witness :
  result (parseOptions sample_argv)
  = Ret {| key := Some "dada"; prefix := Some "test";
           logfile := Some "log.txt";
           setk := true; setl := true; setn := true |}%string /\
  env_logfile_ok no_log_env = false /\
  exists l,
    Some "log.txt"%string = Some l /\
    main no_log_env sample_argv
    = ([Stdout "ERROR opening logfile: %s\n" [AStr l]], Fault).
Proof.
  split; [reflexivity|]. split; [reflexivity|].
  exact (log_file_failure no_log_env sample_argv
           {| key := Some "dada"; prefix := Some "test";
              logfile := Some "log.txt";
              setk := true; setl := true; setn := true |}%string
           eq_refl eq_refl).
Defined.

(** [main] after the header, for a case or mode that is not supported. *)
Lemma main_tail_unsupported (e : env) (file_prefix : string) (g : globals) :
  runlog g = true -> ~ supported g ->
  main_tail e file_prefix g
  = (trace (main_resolve e file_prefix g), Exit EXIT_FAILURE).
Proof.
  intros Hlog Hsup.
  destruct (main_resolve_cases e file_prefix g Hlog) as [_ Hres].
  destruct (((science_case g =? 3) || (science_case g =? 4))
            && ((science_mode g =? 0) || (science_mode g =? 2)))%bool eqn:E.
  - apply supported_test in E. contradiction.
  - unfold main_tail. destruct (main_resolve e file_prefix g) as [t r].
    cbn [result snd] in Hres. subst r. reflexivity.
Qed.

(** X7.  Once the log stream is open, [main] ends in one of three ways.
    It returns 0 exactly when the ring buffer calls succeed, the header
    block is there, the word under SOURCE fits [source_name] and the
    science case and mode are supported, whatever the data pages and
    however the stream of pages ends.  It runs into undefined behaviour
    exactly when connection, lock and header are there and the word under
    SOURCE has 256 characters or more.  Otherwise it calls
    [exit(EXIT_FAILURE)]. *)
Theorem main_run_exit_status (e : env) (key file_prefix : string)
    (g : globals) :
  runlog g = true ->
  (result (main_run e key file_prefix g) = Ret 0 \/
   result (main_run e key file_prefix g) = Exit EXIT_FAILURE \/
   result (main_run e key file_prefix g) = Fault) /\
  (result (main_run e key file_prefix g) = Ret 0 <->
   transport_ready e /\
   exists h g1, env_header e = Some h /\ parse_header h g = Some g1 /\
                supported g1) /\
  (result (main_run e key file_prefix g) = Fault <->
   exists h s, env_header e = Some h /\ env_connect_ok e = true /\
               env_lock_ok e = true /\
               header_find h "SOURCE" = Some (HString s) /\
               (256 <= String.length s)%nat).
Proof.
  intros Hlog. rewrite main_run_tail.
  destruct (init_ringbuffer_by_cases e key g Hlog)
    as (Hret & Hfault & _).
  destruct (init_ringbuffer_cases e key g Hlog)
    as [_ [Hexit | [(h & Hh & Hc & Hl & Hp & Hf)
                   | (h & g1 & Hh & Hc & Hl & Hcl & Hp & Hr)]]].
  - rewrite (result_bind_exit _ _ _ Hexit).
    split; [right; now left|]. split; split.
    + discriminate.
    + intros (Hready & h & g1 & Hh & Hp & _).
      assert (Hr : result (init_ringbuffer e key g) = Ret g1).
      { apply Hret. now exists h. }
      rewrite Hr in Hexit. discriminate Hexit.
    + discriminate.
    + intros (h & s & Hh & Hc & Hl & Hs & Hlen).
      assert (Hf : result (init_ringbuffer e key g) = Fault).
      { apply Hfault. exists h. repeat split; try assumption.
        apply parse_header_overflows. now exists s. }
      rewrite Hf in Hexit. discriminate Hexit.
  - rewrite (result_bind_fault _ _ Hf).
    split; [right; now right|]. split; split.
    + discriminate.
    + intros (_ & h' & g1 & Hh' & Hp' & _).
      rewrite Hh in Hh'. injection Hh' as <-. rewrite Hp in Hp'.
      discriminate Hp'.
    + intros _. apply parse_header_overflows in Hp as (s & Hs & Hlen).
      now exists h, s.
    + reflexivity.
  - rewrite (result_bind_ret _ _ _ Hr).
    assert (Hlog' : runlog g1 = true)
      by (now rewrite (parse_header_runlog h g g1 Hp)).
    assert (Hfits : forall h' s,
               env_header e = Some h' ->
               header_find h' "SOURCE" = Some (HString s) ->
               (256 <= String.length s)%nat -> False).
    { intros h' s Hh' Hs Hlen. rewrite Hh in Hh'. injection Hh' as <-.
      assert (Hnone : parse_header h g = None)
        by (apply parse_header_overflows; now exists s).
      rewrite Hp in Hnone. discriminate Hnone. }
    destruct (supported_test g1) as [Hto Hfrom].
    destruct (((science_case g1 =? 3) || (science_case g1 =? 4))
              && ((science_mode g1 =? 0) || (science_mode g1 =? 2)))%bool
      eqn:E.
    + specialize (Hfrom eq_refl).
      rewrite (main_tail_supported e file_prefix _ Hlog' Hfrom).
      cbn [result snd]. split; [now left|]. split; split.
      * intros _. split; [repeat split; assumption|]. now exists h, g1.
      * reflexivity.
      * discriminate.
      * intros (h' & s & Hh' & _ & _ & Hs & Hlen).
        now contradiction (Hfits h' s).
    + assert (Hns : ~ supported g1).
      { intros H. apply Hto in H. discriminate H. }
      rewrite (main_tail_unsupported e file_prefix _ Hlog' Hns).
      cbn [result snd]. split; [right; now left|]. split; split.
      * discriminate.
      * intros (_ & h' & g1' & Hh' & Hp' & Hs). rewrite Hh in Hh'.
        injection Hh' as <-. rewrite Hp in Hp'. injection Hp' as <-.
        contradiction.
      * discriminate.
      * intros (h' & s & Hh' & _ & _ & Hs & Hlen).
        now contradiction (Hfits h' s).
Qed.

Lemma main_run_exit_status_witness :
  let e := sample_env padded_header
             (RbPage blank_page (RbPage (marked_page 5) (RbNull false))) in
  runlog (set_runlog true globals0) = true /\
  result (main_run e "dada" "test" (set_runlog true globals0)) = Ret 0.
Proof.
  cbv zeta. split; [reflexivity|].
  apply (proj1 (proj2 (main_run_exit_status
                  (sample_env padded_header
                     (RbPage blank_page
                        (RbPage (marked_page 5) (RbNull false))))
                  "dada" "test" (set_runlog true globals0) eq_refl))).
  split; [repeat split|].
  exists padded_header. eexists. split; [reflexivity|].
  split; [reflexivity|].
  unfold supported. cbn. lia.
Defined.

(* ===================================================================== *)
(** * More on the output files *)

Lemma outputs_from_length (e : env) :
  forall count start out,
    length (outputs_from e start count out) = length out.
Proof.
  unfold outputs_from.
  induction count as [|count IH]; intros start out; simpl.
  - reflexivity.
  - now rewrite IH, length_insert.
Qed.

(** Indices from [start + count] on are not touched. *)
Lemma outputs_from_above (e : env) (i : nat) :
  forall count start out,
    0 <= start -> (Z.to_nat (start + Z.of_nat count) <= i)%nat ->
    outputs_from e start count out !! i = out !! i.
Proof.
  unfold outputs_from.
  induction count as [|count IH]; intros start out H0 Hi; simpl.
  - reflexivity.
  - rewrite IH by lia. apply list_lookup_insert_ne. lia.
Qed.

(** X8.  [open_files] for [n] beams, [n] within the array: it calls
    [filterbank_create] [n] times and returns; afterwards [output[tab]] is
    the descriptor handed out for beam [tab] for every [tab < n], the
    elements from [n] on are as before, and no other global has
    changed. *)
Theorem open_files_stores_descriptors (e : env) (prefix : string) (n : Z)
    (g : globals) :
  0 <= n <= MAXTABS ->
  length (output g) = Z.to_nat MAXTABS ->
  exists g',
    result (open_files e prefix n g) = Ret g' /\
    length (trace (open_files e prefix n g)) = Z.to_nat n /\
    opened (trace (open_files e prefix n g))
    = List.map (fun tab => env_fds e (Z.to_nat tab)) (seqZ 0 n) /\
    (forall tab, 0 <= tab < n ->
                 output_at g' tab = env_fds e (Z.to_nat tab)) /\
    (forall tab, n <= tab -> output_at g' tab = output_at g tab) /\
    length (output g') = length (output g) /\
    g' = set_output (output g') g.
Proof.
  intros Hn Hlen. rewrite open_files_run by exact Hn.
  cbn [trace result fst snd].
  eexists. split; [reflexivity|]. cbn [output set_output].
  split; [now rewrite length_map, length_seqZ|].
  split.
  { generalize (seqZ 0 n). intros tabs.
    induction tabs as [|tab tabs IH]; cbn [List.map opened create_beam];
      congruence. }
  split.
  { intros tab Htab. unfold output_at. cbn [output set_output].
    rewrite outputs_from_lookup; [reflexivity | lia | lia |].
    unfold MAXTABS in *. lia. }
  split.
  { intros tab Htab. unfold output_at. cbn [output set_output].
    rewrite outputs_from_above; [reflexivity | lia | lia]. }
  split; [apply outputs_from_length | reflexivity].
Qed.

Lemma open_files_stores_descriptors_witness :
  0 <= 12 <= MAXTABS /\
  length (output wide_globals) = Z.to_nat MAXTABS /\
  exists g',
    result (open_files (sample_env wide_header RbEod) "obs" 12 wide_globals)
    = Ret g' /\
    output_at g' 3 = 7.
Proof.
  assert (H1 : 0 <= 12 <= MAXTABS) by (unfold MAXTABS; lia).
  assert (H2 : length (output wide_globals) = Z.to_nat MAXTABS)
    by reflexivity.
  split; [exact H1|]. split; [exact H2|].
  destruct (open_files_stores_descriptors (sample_env wide_header RbEod)
              "obs" 12 wide_globals H1 H2)
    as (g' & Hres & _ & _ & Hout & _).
  exists g'. split; [exact Hres|].
  exact (Hout 3 ltac:(lia)).
Defined.

(** X9.  The file created at turn [tab] of [open_files] has the name of
    beam [tab], gets the descriptor handed out at that turn, and its header
    announces beam [tab + 1] of [n], 1536 channels of 8 bits, one IF,
    telescope 10 and machine 15, with the sampling time, first frequency,
    channel width [-bandwidth/1536], position and start time of the
    globals: the same in every file of the run but for the beam number. *)
Theorem open_files_headers (e : env) (prefix : string) (n : Z) (g : globals)
    (tab : Z) :
  0 <= n <= MAXTABS -> 0 <= tab < n ->
  exists hdr,
    trace (open_files e prefix n g) !! Z.to_nat tab
    = Some (FbCreate (fname_of prefix n tab) hdr (env_fds e (Z.to_nat tab)))
    /\ fb_ibeam hdr = tab + 1 /\ fb_nbeams hdr = n /\
    fb_nchans hdr = 1536 /\ fb_nbits hdr = 8 /\ fb_nifs hdr = 1 /\
    fb_telescope_id hdr = 10 /\ fb_machine_id hdr = 15 /\
    fb_tsamp hdr = tsamp g /\ fb_fch1 hdr = min_frequency g /\
    fb_foff hdr = (-1 * bandwidth g / 1536)%float /\
    fb_source_name hdr = source_name g /\
    fb_src_raj hdr = ra g /\ fb_src_dej hdr = dec g /\
    fb_az_start hdr = az_start g /\ fb_za_start hdr = za_start g /\
    fb_tstart hdr = mjd_start g.
Proof.
  intros Hn Htab. rewrite open_files_run by exact Hn. cbn [trace fst].
  exists (fb_header_of g n tab). split; [|repeat split].
  change List.map with (@fmap list _). rewrite list_lookup_fmap.
  rewrite (lookup_seqZ_lt 0 n (Z.to_nat tab)) by lia.
  cbn [fmap option_fmap option_map]. unfold create_beam.
  now replace (0 + Z.of_nat (Z.to_nat tab)) with tab by lia.
Qed.

Lemma open_files_headers_witness :
  0 <= 12 <= MAXTABS /\ 0 <= 11 < 12 /\
  exists hdr,
    trace (open_files (sample_env wide_header RbEod) "obs" 12 wide_globals)
      !! Z.to_nat 11
    = Some (FbCreate "obs_12.fil" hdr 15) /\
    fb_ibeam hdr = 12 /\ fb_nbeams hdr = 12.
Proof.
  assert (H1 : 0 <= 12 <= MAXTABS) by (unfold MAXTABS; lia).
  assert (H2 : 0 <= 11 < 12) by lia.
  split; [exact H1|]. split; [exact H2|].
  destruct (open_files_headers (sample_env wide_header RbEod) "obs" 12
              wide_globals 11 H1 H2) as (hdr & Hat & Hi & Hb & _).
  exists hdr. split; [exact Hat|]. split; [exact Hi | exact Hb].
Defined.

Lemma string_take_length (s : string) :
  forall n, String.length (string_take n s)
            = Nat.min n (String.length s).
Proof.
  induction s as [|c s IH]; intros [|n]; cbn [string_take]; try reflexivity.
  change (Datatypes.S (String.length (string_take n s))
          = Datatypes.S (Nat.min n (String.length s))).
  now rewrite IH.
Qed.

Lemma string_take_starts (s : string) :
  forall n, exists rest, s = string_take n s +:+ rest.
Proof.
  induction s as [|c s IH]; intros [|n]; cbn [string_take].
  - now exists EmptyString.
  - now exists EmptyString.
  - now exists (String c s).
  - destruct (IH n) as [rest E]. exists rest.
    change (String c s = String c (string_take n s +:+ rest)).
    now rewrite <- E.
Qed.

(** X10.  Whatever the prefix and the number of beams, the file name built
    by [open_files] has at most 255 characters, so it fits the 256 bytes
    of [fname] with its terminator, and it is the beginning of the full
    text [<prefix>.fil] or [<prefix>_<NN>.fil]: a long prefix is cut, never
    written past the buffer. *)
Theorem fname_fits_buffer (prefix : string) (ntabs tab : Z) :
  (String.length (fname_of prefix ntabs tab) <= 255)%nat /\
  exists rest,
    (if ntabs =? 1 then prefix +:+ ".fil"
     else prefix +:+ "_" +:+ fmt_02i (tab + 1) +:+ ".fil")
    = fname_of prefix ntabs tab +:+ rest.
Proof.
  unfold fname_of, snprintf. change (Z.to_nat (256 - 1)) with 255%nat.
  destruct (ntabs =? 1).
  - split; [rewrite string_take_length; lia | apply string_take_starts].
  - split; [rewrite string_take_length; lia | apply string_take_starts].
Qed.

(** From the header on, a run either fails without creating a file, or
    returns 0 having created the files of its beams. *)
Lemma main_run_created (e : env) (key file_prefix : string) (g : globals) :
  runlog g = true ->
  (fails (main_run e key file_prefix g) /\
   created (trace (main_run e key file_prefix g)) = []) \/
  (exists h g1,
     env_header e = Some h /\ parse_header h g = Some g1 /\
     supported g1 /\
     result (main_run e key file_prefix g) = Ret 0 /\
     created (trace (main_run e key file_prefix g))
     = List.map (fname_of file_prefix (beams_for (science_mode g1)))
                (seqZ 0 (beams_for (science_mode g1)))).
Proof.
  intros Hlog. rewrite main_run_tail. unfold fails.
  destruct (init_ringbuffer_cases e key g Hlog)
    as [Hoff [Hexit | [(h & Hh & Hc & Hl & Hp & Hf)
                      | (h & g1 & Hh & Hc & Hl & Hcl & Hp & Hret)]]].
  - left. rewrite (result_bind_exit _ _ _ Hexit),
      (trace_bind_exit _ _ _ Hexit).
    split; [now left|]. apply created_nothing.
    eapply Forall_impl; [exact Hoff | exact off_file_creates_nothing].
  - left. rewrite (result_bind_fault _ _ Hf), (trace_bind_fault _ _ Hf).
    split; [now right|]. apply created_nothing.
    eapply Forall_impl; [exact Hoff | exact off_file_creates_nothing].
  - rewrite (result_bind_ret _ _ _ Hret), (trace_bind_ret _ _ _ Hret).
    assert (Hlog' : runlog g1 = true)
      by (now rewrite (parse_header_runlog h g g1 Hp)).
    assert (Hinit : created (trace (init_ringbuffer e key g)) = []).
    { apply created_nothing.
      eapply Forall_impl; [exact Hoff | exact off_file_creates_nothing]. }
    assert (Hres : created (trace (main_resolve e file_prefix g1)) = []).
    { apply created_nothing.
      eapply Forall_impl;
        [apply (main_resolve_cases e file_prefix _ Hlog')
        |exact off_file_creates_nothing]. }
    destruct (supported_test g1) as [Hto Hfrom].
    destruct (((science_case g1 =? 3) || (science_case g1 =? 4))
              && ((science_mode g1 =? 0) || (science_mode g1 =? 2)))%bool
      eqn:E.
    + right. exists h, g1. specialize (Hfrom eq_refl).
      split; [exact Hh|]. split; [exact Hp|]. split; [exact Hfrom|].
      rewrite (main_tail_supported e file_prefix _ Hlog' Hfrom).
      cbn [trace result fst snd]. split; [reflexivity|].
      rewrite !created_app, Hinit, Hres, created_create_beam.
      rewrite (created_nothing (trace (main_stream e _))).
      2:{ eapply Forall_impl; [apply main_stream_events|].
          exact stream_event_creates_nothing. }
      cbn [created app ntabs set_ntabs]. now rewrite app_nil_r.
    + left.
      assert (Hns : ~ supported g1).
      { intros H. apply Hto in H. discriminate H. }
      rewrite (main_tail_unsupported e file_prefix _ Hlog' Hns).
      cbn [trace result fst snd]. split; [now left|].
      now rewrite created_app, Hinit, Hres.
Qed.

(** X11.  Every failure of [main] comes before the first file: a run that
    creates a file returns 0, and a run that returns 0 has parsed the
    header and created the one file of science mode 2 or the twelve files
    of science mode 0, named after the prefix given with [-n]; every other
    run creates none. *)
Theorem files_created_only_on_success (e : env) (argv : list string) :
  (created (trace (main e argv)) <> [] -> result (main e argv) = Ret 0) /\
  (result (main e argv) = Ret 0 ->
   exists h g o file_prefix,
     env_header e = Some h /\
     parse_header h (set_runlog true globals0) = Some g /\
     result (parseOptions argv) = Ret o /\ prefix o = Some file_prefix /\
     let n := beams_for (science_mode g) in
     (n = 1 \/ n = 12) /\
     created (trace (main e argv))
     = List.map (fname_of file_prefix n) (seqZ 0 n)).
Proof.
  pose proof (main_startup_outcome e argv) as Hs.
  pose proof (parseOptions_ok argv) as [Hq _].
  unfold main.
  destruct (result (parseOptions argv)) as [o|c|] eqn:Er; [| |contradiction].
  - destruct Hs as (k & p & l & Hk & Hp & Hl & Hs). rewrite Hs.
    destruct (env_logfile_ok e).
    + rewrite bind_ret. cbn [trace result fst snd app created].
      destruct (main_run_created e k p (set_runlog true globals0) eq_refl)
        as [[[Hres | Hres] Hnone] | (h & g & Hh & Hparse & Hsup & Hres
                                     & Hfiles)].
      * rewrite Hres, Hnone. split; [intros H; now contradiction H|].
        discriminate.
      * rewrite Hres, Hnone. split; [intros H; now contradiction H|].
        discriminate.
      * rewrite Hres, Hfiles. split; [reflexivity|]. intros _.
        exists h, g, o, p. split; [exact Hh|]. split; [exact Hparse|].
        split; [reflexivity|].
        split; [exact Hp|]. cbv zeta. split; [|reflexivity].
        unfold beams_for.
        destruct (science_mode _ =? 0); [now right | now left].
    + rewrite bind_fault. cbn [trace result fst snd created].
      split; [intros H; now contradiction H | discriminate].
  - rewrite Hs, bind_exit. cbn [trace result fst snd].
    rewrite (created_nothing (trace (parseOptions argv))).
    + split; [intros H; now contradiction H | discriminate].
    + eapply Forall_impl; [exact Hq|]. intros ev H.
      now apply console_creates_nothing, stderr_is_console.
Qed.

Lemma files_created_only_on_success_witness :
  result (main (sample_env wide_header RbEod) sample_argv) = Ret 0 /\
  exists h g o file_prefix,
    env_header (sample_env wide_header RbEod) = Some h /\
    parse_header h (set_runlog true globals0) = Some g /\
    result (parseOptions sample_argv) = Ret o /\
    prefix o = Some file_prefix /\
    let n := beams_for (science_mode g) in
    (n = 1 \/ n = 12) /\
    created (trace (main (sample_env wide_header RbEod) sample_argv))
    = List.map (fname_of file_prefix n) (seqZ 0 n).
Proof.
  assert (H : result (main (sample_env wide_header RbEod) sample_argv)
              = Ret 0) by (vm_compute; reflexivity).
  split; [exact H|].
  exact (proj2 (files_created_only_on_success
                  (sample_env wide_header RbEod) sample_argv) H).
Defined.

(* ===================================================================== *)
(** * More on the loop over the pages *)

Section Script.
Variable g : globals.
Hypothesis ntimes_fits : ntimes g * nchannels <= 2 ^ 32.

(** The loop of [main] on any script of the ring buffer. *)
Lemma main_loop_script :
  forall (script : rb_script) (buffer : mem) (page_count : Z),
  exists buffer',
    main_loop g script buffer page_count
    = (flat_map (page_events g) (pages_of script),
       Ret {| ls_buffer := buffer';
              ls_page_count
              := page_count + Z.of_nat (length (pages_of script));
              ls_eod := ends_with_eod script |}).
Proof.
  induction script as [|eod|page rest IH]; intros buffer page_count.
  - exists buffer. cbn. now rewrite Z.add_0_r.
  - exists buffer. cbn. now rewrite Z.add_0_r.
  - destruct (process_page_run g ntimes_fits page buffer) as [buffer1 E1].
    destruct (IH buffer1 (page_count + 1)) as [buffer' E].
    exists buffer'. cbn [main_loop pages_of ends_with_eod flat_map length].
    rewrite E1, bind_ret. cbn [trace result fst snd].
    rewrite emit_bind, E. cbn [trace result fst snd].
    unfold page_events at 2. rewrite <- app_assoc. cbn [app].
    now replace (page_count + 1 + Z.of_nat (length (pages_of rest)))
      with (page_count + Z.of_nat (Datatypes.S (length (pages_of rest))))
      by lia.
Qed.

(** [main] from the loop to its end, on any script. *)
Lemma main_stream_script (e : env) :
  runlog g = true ->
  main_stream e g
  = (flat_map (page_events g) (pages_of (env_script e))
     ++ closing_events (ends_with_eod (env_script e))
          (Z.of_nat (length (pages_of (env_script e)))),
     Ret 0).
Proof.
  intros Hlog. unfold main_stream.
  destruct (main_loop_script (env_script e) (env_heap e) 0) as [buffer' ->].
  rewrite bind_ret. cbn [ls_eod ls_page_count]. rewrite Z.add_0_l.
  unfold closing_events. destruct (ends_with_eod (env_script e)).
  - rewrite (LOG_open g) by assumption.
    rewrite emit_bind, emit_bind, (LOG_open g) by assumption.
    reflexivity.
  - rewrite mret_bind, emit_bind, emit_bind, (LOG_open g) by assumption.
    reflexivity.
Qed.

Lemma cleared_app (t1 t2 : list event) :
  cleared (t1 ++ t2) = (cleared t1 + cleared t2)%nat.
Proof.
  induction t1 as [|ev t1 IH]; [reflexivity|].
  destruct ev; cbn [app cleared Nat.add]; congruence.
Qed.

Lemma cleared_write_beams (page : mem) (tabs : list Z) :
  cleared (List.map (write_beam g page) tabs) = O.
Proof. induction tabs as [|tab tabs IH]; [reflexivity | exact IH]. Qed.

Lemma cleared_pages (pages : list mem) :
  cleared (flat_map (page_events g) pages) = length pages.
Proof.
  induction pages as [|page pages IH]; [reflexivity|].
  cbn [flat_map length]. unfold page_events at 1.
  rewrite !cleared_app, cleared_write_beams, IH. reflexivity.
Qed.
End Script.

(** X12.  In the loop of [main] every page obtained from the ring buffer
    is handled in one piece: the blocks of its beams are written, beam 0
    first, then the page is marked cleared, and only then is the next page
    asked for.  Pages are marked cleared exactly once each, and the
    counter the loop returns has grown by the number of pages. *)
Theorem page_loop_releases_each_page (g : globals) (script : rb_script)
    (buffer : mem) (page_count : Z) :
  ntimes g * nchannels <= 2 ^ 32 ->
  let run := main_loop g script buffer page_count in
  trace run = flat_map (page_events g) (pages_of script) /\
  cleared (trace run) = length (pages_of script) /\
  exists st,
    result run = Ret st /\
    ls_page_count st = page_count + Z.of_nat (length (pages_of script)) /\
    ls_eod st = ends_with_eod script.
Proof.
  intros Hfit. cbv zeta.
  destruct (main_loop_script g Hfit script buffer page_count)
    as [buffer' ->].
  cbn [trace result fst snd]. split; [reflexivity|].
  split; [apply cleared_pages|].
  eexists. split; [reflexivity|]. split; reflexivity.
Qed.

Lemma page_loop_releases_each_page_witness :
  let script := RbPage blank_page (RbPage (marked_page 7) (RbNull false)) in
  ntimes wide_open_globals * nchannels <= 2 ^ 32 /\
  cleared (trace (main_loop wide_open_globals script blank_page 0))
  = 2%nat.
Proof.
  cbv zeta.
  assert (H : ntimes wide_open_globals * nchannels <= 2 ^ 32)
    by (vm_compute; discriminate).
  split; [exact H|].
  exact (proj1 (proj2 (page_loop_releases_each_page wide_open_globals
                         (RbPage blank_page
                            (RbPage (marked_page 7) (RbNull false)))
                         blank_page 0 H))).
Defined.

(** X13.  After the loop [main] always unlocks and disconnects the ring
    buffer, in this order, logs the number of pages read and returns 0,
    whether the loop ended on end of data or on a null page; [End of data
    received] is logged first exactly when [ipcbuf_eod] holds after the
    loop, so a null page without end of data ends the run with status 0
    and no diagnostic. *)
Theorem stream_ending (e : env) (g : globals) :
  ntimes g * nchannels <= 2 ^ 32 ->
  runlog g = true ->
  main_stream e g
  = (flat_map (page_events g) (pages_of (env_script e))
     ++ closing_events (ends_with_eod (env_script e))
          (Z.of_nat (length (pages_of (env_script e)))),
     Ret 0).
Proof. intros Hfit Hlog. now apply main_stream_script. Qed.

Lemma stream_ending_witness :
  let e := sample_env wide_header
             (RbPage blank_page (RbPage (marked_page 7) (RbNull false))) in
  ntimes wide_open_globals * nchannels <= 2 ^ 32 /\
  runlog wide_open_globals = true /\
  main_stream e wide_open_globals
  = (page_events wide_open_globals blank_page
     ++ page_events wide_open_globals (marked_page 7)
     ++ [HduUnlockRead; HduDisconnect;
         Stdout "Read %i pages\n" [AInt 2];
         Runlog "Read %i pages\n" [AInt 2]],
     Ret 0).
Proof.
  cbv zeta.
  assert (H : ntimes wide_open_globals * nchannels <= 2 ^ 32)
    by (vm_compute; discriminate).
  split; [exact H|]. split; [reflexivity|].
  rewrite (stream_ending
             (sample_env wide_header
                (RbPage blank_page (RbPage (marked_page 7) (RbNull false))))
             wide_open_globals H eq_refl).
  cbn [env_script sample_env pages_of ends_with_eod flat_map length
       closing_events app].
  now rewrite app_nil_r, <- app_assoc.
Defined.

(* ===================================================================== *)
(** * More on the interrupt handler *)

Lemma sigint_loop_trace (g : globals) :
  forall (count : nat) (start : Z),
    forM_from start count (sigint_close g) tt
    = (flat_map (handler_events g) (seqZ start (Z.of_nat count)), Ret tt).
Proof.
  induction count as [|count IH]; intros start.
  - reflexivity.
  - cbn [forM_from].
    assert (E : sigint_close g start tt = (handler_events g start, Ret tt)).
    { unfold sigint_close, handler_events.
      destruct (output_at g start =? 0); reflexivity. }
    rewrite E, bind_ret, IH. cbn [trace result fst snd].
    rewrite Nat2Z.inj_succ.
    rewrite (seqZ_cons start (Z.succ (Z.of_nat count))) by lia.
    rewrite Z.pred_succ. cbn [flat_map].
    now replace (Z.succ start) with (start + 1) by lia.
Qed.

Lemma sigint_handler_run (g : globals) :
  runlog g = true ->
  sigint_handler g
  = (Stdout "SIGINT received, aborting\n" []
     :: Runlog "SIGINT received, aborting\n" []
     :: flat_map (handler_events g) (seqZ 0 (ntabs g)),
     Exit EXIT_FAILURE).
Proof.
  intros Hlog. unfold sigint_handler, forM_lt.
  rewrite (LOG_open g) by exact Hlog.
  rewrite sigint_loop_trace, bind_ret. cbn [trace result fst snd exit].
  rewrite app_nil_r. do 3 f_equal.
  destruct (Z_le_gt_dec 0 (ntabs g)).
  - now rewrite Z2Nat.id.
  - unfold seqZ. rewrite Nat2Z.id.
    now rewrite (Z2Nat.nonpos (ntabs g)) by lia.
Qed.

Lemma handler_events_spare_zero (g : globals) (tabs : list Z) :
  closes 0 (flat_map (handler_events g) tabs) = O /\
  syncs 0 (flat_map (handler_events g) tabs) = O.
Proof.
  induction tabs as [|tab tabs [IH1 IH2]]; [now split|].
  cbn [flat_map]. rewrite closes_app, syncs_app, IH1, IH2.
  unfold handler_events.
  destruct (output_at g tab =? 0) eqn:E; [now split|].
  cbn [closes syncs]. rewrite E. now split.
Qed.

Lemma handler_events_connected (g : globals) (tabs : list Z) :
  Forall stays_connected (flat_map (handler_events g) tabs) /\
  Forall writes_nothing (flat_map (handler_events g) tabs).
Proof.
  induction tabs as [|tab tabs [IH1 IH2]]; [split; constructor|].
  cbn [flat_map]. unfold handler_events at 1 3.
  destruct (output_at g tab =? 0); [now split|].
  split; repeat constructor; assumption.
Qed.

(** X14.  The handler of SIGINT logs the abort, then goes through the
    beams in order: a beam whose descriptor is 0 is skipped, for any other
    the descriptor is synchronized and then closed; then it exits with
    failure.  It never calls [fsync] or [filterbank_close] on descriptor 0,
    writes no data, and leaves the ring buffer locked and connected. *)
Theorem sigint_handler_events (g : globals) :
  runlog g = true ->
  sigint_handler g
  = (Stdout "SIGINT received, aborting\n" []
     :: Runlog "SIGINT received, aborting\n" []
     :: flat_map (handler_events g) (seqZ 0 (ntabs g)),
     Exit EXIT_FAILURE) /\
  closes 0 (trace (sigint_handler g)) = O /\
  syncs 0 (trace (sigint_handler g)) = O /\
  Forall stays_connected (trace (sigint_handler g)) /\
  Forall writes_nothing (trace (sigint_handler g)).
Proof.
  intros Hlog. rewrite (sigint_handler_run g Hlog).
  cbn [trace fst closes syncs].
  destruct (handler_events_spare_zero g (seqZ 0 (ntabs g))) as [Hc Hs].
  destruct (handler_events_connected g (seqZ 0 (ntabs g))) as [Hk Hw].
  split; [reflexivity|]. split; [exact Hc|]. split; [exact Hs|].
  split; repeat constructor; assumption.
Qed.

Lemma sigint_handler_events_witness :
  runlog (set_output [4; 0; 6] (set_ntabs 3 bare_globals)) = true /\
  trace (sigint_handler (set_output [4; 0; 6] (set_ntabs 3 bare_globals)))
  = [Stdout "SIGINT received, aborting\n" [];
     Runlog "SIGINT received, aborting\n" [];
     Fsync 4; FbClose 4; Fsync 6; FbClose 6].
Proof.
  split; [reflexivity|].
  rewrite (proj1 (sigint_handler_events
                    (set_output [4; 0; 6] (set_ntabs 3 bare_globals))
                    eq_refl)).
  reflexivity.
Defined.

Section HandlerCounts.
Variable g : globals.
Variable fd : Z.
Hypothesis outputs_distinct : distinct_outputs g.

Lemma handler_events_closes (i : Z) :
  closes fd (handler_events g i)
  = if ((output_at g i =? fd) && negb (fd =? 0))%bool then 1%nat else 0%nat.
Proof.
  unfold handler_events.
  destruct (Z.eqb_spec (output_at g i) 0) as [E0|E0].
  - rewrite E0. destruct (Z.eqb_spec 0 fd) as [<-|]; reflexivity.
  - cbn [closes]. destruct (Z.eqb_spec (output_at g i) fd) as [<-|];
      [|reflexivity].
    apply Z.eqb_neq in E0. now rewrite E0.
Qed.

(** Beams with another descriptor contribute no [filterbank_close]. *)
Lemma handler_events_closes_none :
  forall (count : nat) (start : Z),
    (forall j, start <= j < start + Z.of_nat count -> output_at g j <> fd) ->
    closes fd (flat_map (handler_events g) (seqZ start (Z.of_nat count)))
    = O.
Proof.
  induction count as [|count IH]; intros start Hne; [reflexivity|].
  rewrite Nat2Z.inj_succ.
  rewrite (seqZ_cons start (Z.succ (Z.of_nat count))) by lia.
  rewrite Z.pred_succ. cbn [flat_map].
  rewrite closes_app, handler_events_closes.
  replace (Z.succ start) with (start + 1) by lia.
  rewrite IH by (intros j Hj; apply Hne; lia).
  assert (H : output_at g start <> fd) by (apply Hne; lia).
  apply Z.eqb_neq in H. now rewrite H.
Qed.

(** No descriptor is closed twice by the handler. *)
Lemma handler_events_closes_le :
  forall (count : nat) (start : Z),
    0 <= start -> start + Z.of_nat count <= ntabs g ->
    (closes fd (flat_map (handler_events g) (seqZ start (Z.of_nat count)))
     <= 1)%nat.
Proof.
  induction count as [|count IH]; intros start H0 Hn;
    [exact (Nat.le_0_l 1)|].
  rewrite Nat2Z.inj_succ.
  rewrite (seqZ_cons start (Z.succ (Z.of_nat count))) by lia.
  rewrite Z.pred_succ. cbn [flat_map].
  rewrite closes_app, handler_events_closes.
  replace (Z.succ start) with (start + 1) by lia.
  destruct (Z.eqb_spec (output_at g start) fd) as [E|E].
  - rewrite handler_events_closes_none.
    + destruct (negb (fd =? 0)); cbn; lia.
    + intros j Hj Ej. rewrite <- E in Ej.
      apply outputs_distinct in Ej; lia.
  - specialize (IH (start + 1) ltac:(lia) ltac:(lia)). cbn. lia.
Qed.
End HandlerCounts.

(** X15.  A SIGINT that arrives while [main] is streaming stops it there:
    the run is what [main] had done so far followed by the handler, and it
    exits with failure.  With pairwise distinct descriptors every beam
    whose descriptor is not 0 is synchronized once and closed once, and no
    descriptor at all is closed twice. *)
Theorem interrupt_closes_each_stream_once (e : env) (g : globals) (k : nat) :
  runlog g = true ->
  distinct_outputs g ->
  (k < length (trace (main_stream e g)))%nat ->
  let run := interrupted k (main_stream e g) (sigint_handler g) in
  result run = Exit EXIT_FAILURE /\
  trace run = take k (trace (main_stream e g)) ++ trace (sigint_handler g) /\
  (forall b, 0 <= b < ntabs g -> output_at g b <> 0 ->
     closes (output_at g b) (trace run) = 1%nat /\
     syncs (output_at g b) (trace run) = 1%nat) /\
  (forall fd, (closes fd (trace run) <= 1)%nat).
Proof.
  intros Hlog Hd Hk. cbv zeta. unfold interrupted.
  apply Nat.ltb_lt in Hk. rewrite Hk.
  pose proof (sigint_handler_run g Hlog) as Hrun.
  destruct (sigint_handler g) as [th r] eqn:Eh.
  injection Hrun as Hth Hr. subst r. cbn [trace result fst snd].
  assert (Hopen : Forall keeps_open (take k (trace (main_stream e g)))).
  { apply Forall_take, main_stream_keeps_open. }
  split; [reflexivity|]. split; [reflexivity|]. split.
  - intros b Hb Hnz.
    destruct (sigint_handler_closes_once g b Hb Hnz Hd Hlog)
      as (_ & Hc & Hs).
    rewrite Eh in Hc, Hs. cbn [trace fst] in Hc, Hs.
    rewrite closes_app, syncs_app, Hc, Hs.
    destruct (closes_nothing (output_at g b) _ Hopen) as [-> ->].
    now split.
  - intros fd. rewrite closes_app.
    destruct (closes_nothing fd _ Hopen) as [-> _].
    rewrite Hth. cbn [closes Nat.add].
    destruct (Z_le_gt_dec 0 (ntabs g)) as [Hn|Hn].
    + rewrite <- (Z2Nat.id (ntabs g)) by exact Hn.
      apply handler_events_closes_le; [exact Hd | lia |].
      rewrite Z2Nat.id by exact Hn. lia.
    + unfold seqZ. rewrite (Z2Nat.nonpos (ntabs g)) by lia. cbn. lia.
Qed.

Lemma interrupt_closes_each_stream_once_witness :
  let e := sample_env wide_header (RbPage blank_page RbEod) in
  runlog wide_open_globals = true /\
  distinct_outputs wide_open_globals /\
  (5 < length (trace (main_stream e wide_open_globals)))%nat /\
  closes (output_at wide_open_globals 11)
    (trace (interrupted 5 (main_stream e wide_open_globals)
              (sigint_handler wide_open_globals)))
  = 1%nat.
Proof.
  cbv zeta.
  assert (Hfit : ntimes wide_open_globals * nchannels <= 2 ^ 32)
    by (vm_compute; discriminate).
  assert (Hk : (5 < length (trace (main_stream
                   (sample_env wide_header (RbPage blank_page RbEod))
                   wide_open_globals)))%nat).
  { rewrite (main_stream_script wide_open_globals Hfit _ eq_refl).
    cbn [trace fst env_script sample_env pages_of flat_map].
    rewrite !length_app. unfold page_events.
    rewrite length_app, length_map, length_seqZ. cbn. lia. }
  split; [reflexivity|]. split; [exact wide_open_distinct|].
  split; [exact Hk|].
  destruct (interrupt_closes_each_stream_once
              (sample_env wide_header (RbPage blank_page RbEod))
              wide_open_globals 5 eq_refl wide_open_distinct Hk)
    as (_ & _ & Hbeams & _).
  apply (Hbeams 11).
  - vm_compute. split; [discriminate | reflexivity].
  - vm_compute. discriminate.
Defined.

(* ===================================================================== *)
(** * What an interrupted run has written *)

Lemma writes_to_nothing (fd : Z) (tr : list event) :
  Forall writes_nothing tr -> writes_to fd tr = [].
Proof.
  induction 1 as [|ev tr Hev _ IH]; [reflexivity|].
  destruct ev; cbn [writes_to]; try exact IH. contradiction.
Qed.

Lemma closing_events_write_nothing (eod : bool) (page_count : Z) :
  Forall writes_nothing (closing_events eod page_count).
Proof. destruct eod; repeat constructor. Qed.

Lemma take_seqZ_0 (k : nat) (n : Z) :
  take k (seqZ 0 n) = seqZ 0 (Z.of_nat (Nat.min k (Z.to_nat n))).
Proof.
  unfold seqZ. now rewrite <- fmap_take, take_seq, Nat2Z.id.
Qed.

Section Interrupted.
Variable g : globals.
Hypothesis outputs_distinct : distinct_outputs g.

(** The first [k] events of a page: the blocks of the beams below [k]. *)
Lemma writes_to_page_prefix (page : mem) (b : Z) (k : nat) :
  0 <= b < ntabs g ->
  writes_to (output_at g b) (take k (page_events g page))
  = if b <? Z.of_nat k then [beam_block g b page] else [].
Proof.
  intros Hb. unfold page_events.
  rewrite take_app, writes_to_app.
  rewrite (writes_to_nothing _ (take _ [PageCleared])).
  2:{ apply Forall_take. repeat constructor. }
  rewrite app_nil_r.
  change (take k (List.map (write_beam g page) (seqZ 0 (ntabs g))))
    with (take k (write_beam g page <$> seqZ 0 (ntabs g))).
  rewrite <- fmap_take, take_seqZ_0.
  change (write_beam g page <$> ?l) with (List.map (write_beam g page) l).
  rewrite (writes_to_beams g page b) by (assumption || lia).
  destruct (Z.ltb_spec b (Z.of_nat k));
    [replace ((0 <=? b)
              && (b <? 0 + Z.of_nat (Nat.min k (Z.to_nat (ntabs g)))))%bool
       with true by lia
    |replace ((0 <=? b)
              && (b <? 0 + Z.of_nat (Nat.min k (Z.to_nat (ntabs g)))))%bool
       with false by lia];
    reflexivity.
Qed.

Lemma page_events_length (page : mem) :
  length (page_events g page) = Datatypes.S (Z.to_nat (ntabs g)).
Proof.
  unfold page_events.
  rewrite length_app, length_map, length_seqZ. cbn. lia.
Qed.

(** The first [k] events of the pages: [c] whole pages, and of one more
    page the beams below [r]. *)
Lemma writes_to_pages_prefix (tail : list event) :
  Forall writes_nothing tail ->
  forall (pages : list mem) (k : nat),
  exists (c : nat) (r : Z),
    forall b, 0 <= b < ntabs g ->
      writes_to (output_at g b)
        (take k (flat_map (page_events g) pages ++ tail))
      = List.map (beam_block g b) (take (c + one_if_below b r) pages).
Proof.
  intros Htail. induction pages as [|page pages IH]; intros k.
  - exists O, 0. intros b Hb. cbn [flat_map app].
    rewrite writes_to_nothing by now apply Forall_take.
    now rewrite take_nil.
  - cbn [flat_map]. rewrite <- app_assoc.
    destruct (le_lt_dec k (length (page_events g page))) as [Hk|Hk].
    + exists O, (Z.of_nat k). intros b Hb.
      rewrite take_app_le by exact Hk.
      rewrite writes_to_page_prefix by exact Hb.
      unfold one_if_below. destruct (b <? Z.of_nat k); reflexivity.
    + destruct (IH (k - length (page_events g page))%nat) as (c & r & Hc).
      exists (Datatypes.S c), r. intros b Hb.
      rewrite take_app_ge by lia. rewrite writes_to_app, Hc by exact Hb.
      rewrite <- (take_ge (page_events g page)
                    (length (page_events g page))) at 1 by lia.
      rewrite writes_to_page_prefix by exact Hb.
      rewrite page_events_length.
      replace (b <? Z.of_nat (Datatypes.S (Z.to_nat (ntabs g))))
        with true by lia.
      reflexivity.
Qed.
End Interrupted.

(** X16.  Whenever SIGINT arrives (or if it never does), each beam's
    descriptor has received the blocks of the first pages, in order and
    whole: some number [c] of pages for every beam, and one page more for
    the beams below some [r].  So no block is skipped, repeated or cut, and
    two beams are never more than one block apart, the lower beam being
    the one ahead. *)
Theorem interrupt_leaves_block_prefixes (e : env) (g : globals) (k : nat) :
  ntimes g * nchannels <= 2 ^ 32 ->
  runlog g = true ->
  distinct_outputs g ->
  let run := interrupted k (main_stream e g) (sigint_handler g) in
  let pages := pages_of (env_script e) in
  (exists (c : nat) (r : Z),
     forall b, 0 <= b < ntabs g ->
       writes_to (output_at g b) (trace run)
       = List.map (beam_block g b) (take (c + one_if_below b r) pages)) /\
  (forall b b', 0 <= b <= b' -> b' < ntabs g ->
     (length (writes_to (output_at g b') (trace run))
      <= length (writes_to (output_at g b) (trace run))
      <= Datatypes.S (length (writes_to (output_at g b') (trace run))))%nat).
Proof.
  intros Hfit Hlog Hd. cbv zeta.
  assert (Hpre : exists (c : nat) (r : Z),
            forall b, 0 <= b < ntabs g ->
              writes_to (output_at g b)
                (trace (interrupted k (main_stream e g) (sigint_handler g)))
              = List.map (beam_block g b)
                  (take (c + one_if_below b r) (pages_of (env_script e)))).
  { unfold interrupted.
    pose proof (sigint_handler_run g Hlog) as Hrun.
    destruct (handler_events_connected g (seqZ 0 (ntabs g))) as [_ Hw].
    rewrite (main_stream_script g Hfit e Hlog). cbn [trace fst].
    destruct (writes_to_pages_prefix g Hd _
                (closing_events_write_nothing
                   (ends_with_eod (env_script e))
                   (Z.of_nat (length (pages_of (env_script e)))))
                (pages_of (env_script e)) k) as (c & r & Hc).
    exists c, r. intros b Hb.
    destruct (Nat.ltb_spec k
                (length (flat_map (page_events g) (pages_of (env_script e))
                         ++ closing_events (ends_with_eod (env_script e))
                              (Z.of_nat
                                 (length (pages_of (env_script e))))))).
    - rewrite Hrun. cbn [trace fst]. rewrite writes_to_app, Hc by exact Hb.
      cbn [writes_to]. rewrite (writes_to_nothing _ _ Hw).
      now rewrite app_nil_r.
    - cbn [trace fst]. rewrite <- Hc by exact Hb. now rewrite take_ge. }
  split; [exact Hpre|].
  destruct Hpre as (c & r & Hc). intros b b' Hbb Hb'.
  rewrite !Hc by lia. rewrite !length_map, !length_take.
  unfold one_if_below.
  destruct (Z.ltb_spec b r), (Z.ltb_spec b' r); lia.
Qed.

Lemma interrupt_leaves_block_prefixes_witness :
  let e := sample_env wide_header
             (RbPage blank_page (RbPage (marked_page 7) RbEod)) in
  ntimes wide_open_globals * nchannels <= 2 ^ 32 /\
  runlog wide_open_globals = true /\
  distinct_outputs wide_open_globals /\
  (length (writes_to (output_at wide_open_globals 11)
             (trace (interrupted 17 (main_stream e wide_open_globals)
                       (sigint_handler wide_open_globals))))
   <= length (writes_to (output_at wide_open_globals 0)
                (trace (interrupted 17 (main_stream e wide_open_globals)
                          (sigint_handler wide_open_globals))))
   <= Datatypes.S
        (length (writes_to (output_at wide_open_globals 11)
                   (trace (interrupted 17 (main_stream e wide_open_globals)
                             (sigint_handler wide_open_globals))))))%nat.
Proof.
  cbv zeta.
  assert (Hfit : ntimes wide_open_globals * nchannels <= 2 ^ 32)
    by (vm_compute; discriminate).
  split; [exact Hfit|]. split; [reflexivity|].
  split; [exact wide_open_distinct|].
  apply (proj2 (interrupt_leaves_block_prefixes
                  (sample_env wide_header
                     (RbPage blank_page (RbPage (marked_page 7) RbEod)))
                  wide_open_globals 17 Hfit eq_refl wide_open_distinct)).
  - lia.
  - vm_compute. reflexivity.
Defined.

(* ===================================================================== *)
(** * Bounds of the transcoder *)

(** X17.  The loops for one beam write inside the block and nowhere else:
    a byte of [buffer] before offset 0 or from [ntimes*nchannels] on, the
    size given to [malloc], is left as it was. *)
Theorem transcode_writes_inside_block (g : globals) (tab : Z)
    (page buffer : mem) (j : Z) :
  ntimes g * nchannels <= 2 ^ 32 ->
  j < 0 \/ ntimes g * nchannels <= j ->
  transcode g tab page buffer j = buffer j.
Proof.
  intros Hfit Hj. unfold transcode, for_lt.
  apply for_from_frame. intros c b Hc.
  apply for_from_frame. intros t b' Ht.
  apply store_ne.
  rewrite (buffer_index_exact (ntimes g)) by (unfold nchannels in *; lia).
  unfold nchannels in *. lia.
Qed.

Lemma transcode_writes_inside_block_witness :
  ntimes bare_globals * nchannels <= 2 ^ 32 /\
  (-1 < 0 \/ ntimes bare_globals * nchannels <= -1) /\
  transcode bare_globals 0 blank_page (marked_page 19200000) 19200000 = x01.
Proof.
  assert (H : ntimes bare_globals * nchannels <= 2 ^ 32)
    by (vm_compute; discriminate).
  split; [exact H|]. split; [left; lia|].
  rewrite (transcode_writes_inside_block bare_globals 0 blank_page
             (marked_page 19200000) 19200000 H).
  - reflexivity.
  - right. vm_compute. discriminate.
Defined.

(** X18.  When the rows are at least [ntimes] long and the page of
    [ntabs*nchannels*padded_size] bytes is at most 2^32 bytes, every read
    of the loops is the byte of its own cell, inside the page. *)
Theorem reads_stay_in_page (g : globals) (b c t : Z) :
  ntimes g <= padded_size g ->
  ntabs g * nchannels * padded_size g <= 2 ^ 32 ->
  0 <= b < ntabs g -> 0 <= c < nchannels -> 0 <= t < ntimes g ->
  page_index g b c t = (b * nchannels + c) * padded_size g + t /\
  0 <= page_index g b c t < ntabs g * nchannels * padded_size g.
Proof.
  intros Hrow Hsize Hb Hc Ht.
  assert (Hp : 0 <= padded_size g) by lia.
  assert (H1 : 0 <= (b * nchannels + c) * padded_size g).
  { apply Z.mul_nonneg_nonneg; unfold nchannels in *; lia. }
  assert (H2 : (b * nchannels + c + 1) * padded_size g
               <= ntabs g * nchannels * padded_size g).
  { apply Z.mul_le_mono_nonneg_r; unfold nchannels in *; lia. }
  rewrite page_index_exact by lia. lia.
Qed.

Lemma reads_stay_in_page_witness :
  ntimes padded_globals <= padded_size padded_globals /\
  ntabs padded_globals * nchannels * padded_size padded_globals <= 2 ^ 32 /\
  0 <= 0 < ntabs padded_globals /\ 0 <= 1535 < nchannels /\
  0 <= 12499 < ntimes padded_globals /\
  page_index padded_globals 0 1535 12499 = 38522579.
Proof.
  assert (H1 : ntimes padded_globals <= padded_size padded_globals)
    by (vm_compute; discriminate).
  assert (H2 : ntabs padded_globals * nchannels * padded_size padded_globals
               <= 2 ^ 32) by (vm_compute; discriminate).
  assert (H3 : 0 <= 0 < ntabs padded_globals)
    by (vm_compute; split; [discriminate | reflexivity]).
  assert (H4 : 0 <= 1535 < nchannels)
    by (vm_compute; split; [discriminate | reflexivity]).
  assert (H5 : 0 <= 12499 < ntimes padded_globals)
    by (vm_compute; split; [discriminate | reflexivity]).
  split; [exact H1|]. split; [exact H2|]. split; [exact H3|].
  split; [exact H4|]. split; [exact H5|].
  rewrite (proj1 (reads_stay_in_page padded_globals 0 1535 12499
                    H1 H2 H3 H4 H5)).
  reflexivity.
Defined.

(** X19.  The code does not compare [padded_size] with [ntimes].  The
    index read for time [t] of a channel is the one read for time
    [t - padded_size] of the next channel, always; so with rows shorter
    than [ntimes] the end of each channel is read from the rows that
    follow, and for the last channel of the last beam from behind the
    page.  This is the case of science case 4 with PADDED_SIZE left at its
    default. *)
Theorem short_rows_read_past_page (g : globals) :
  (forall b c t,
     page_index g b c t = page_index g b (c + 1) (t - padded_size g)) /\
  (0 <= padded_size g < ntimes g -> 1 <= ntabs g ->
   (ntabs g * nchannels - 1) * padded_size g + ntimes g <= 2 ^ 32 ->
   ntabs g * nchannels * padded_size g
   <= page_index g (ntabs g - 1) (nchannels - 1) (ntimes g - 1)).
Proof.
  split.
  - intros b c t. rewrite !page_index_mod. f_equal. lia.
  - intros Hp Hn Hfit.
    assert (H : 0 <= (ntabs g * nchannels - 1) * padded_size g).
    { apply Z.mul_nonneg_nonneg; unfold nchannels; lia. }
    rewrite page_index_exact.
    + unfold nchannels in *. lia.
    + replace ((ntabs g - 1) * nchannels + (nchannels - 1))
        with (ntabs g * nchannels - 1) by lia.
      lia.
Qed.

Lemma short_rows_read_past_page_witness :
  let g := resolved [("SCIENCE_CASE"%string, HInt 4)] 25000
             (1.024 / 25000)%float 1 in
  0 <= padded_size g < ntimes g /\ 1 <= ntabs g /\
  (ntabs g * nchannels - 1) * padded_size g + ntimes g <= 2 ^ 32 /\
  ntabs g * nchannels * padded_size g
  <= page_index g (ntabs g - 1) (nchannels - 1) (ntimes g - 1).
Proof.
  cbv zeta.
  assert (H1 : 0 <= padded_size
                      (resolved [("SCIENCE_CASE"%string, HInt 4)] 25000
                         (1.024 / 25000)%float 1)
               < ntimes
                   (resolved [("SCIENCE_CASE"%string, HInt 4)] 25000
                      (1.024 / 25000)%float 1))
    by (vm_compute; split; [discriminate | reflexivity]).
  assert (H2 : 1 <= ntabs
                      (resolved [("SCIENCE_CASE"%string, HInt 4)] 25000
                         (1.024 / 25000)%float 1))
    by (vm_compute; discriminate).
  assert (H3 : (ntabs
                  (resolved [("SCIENCE_CASE"%string, HInt 4)] 25000
                     (1.024 / 25000)%float 1) * nchannels - 1)
               * padded_size
                   (resolved [("SCIENCE_CASE"%string, HInt 4)] 25000
                      (1.024 / 25000)%float 1)
               + ntimes
                   (resolved [("SCIENCE_CASE"%string, HInt 4)] 25000
                      (1.024 / 25000)%float 1) <= 2 ^ 32)
    by (vm_compute; discriminate).
  split; [exact H1|]. split; [exact H2|]. split; [exact H3|].
  exact (proj2 (short_rows_read_past_page
                  (resolved [("SCIENCE_CASE"%string, HInt 4)] 25000
                     (1.024 / 25000)%float 1)) H1 H2 H3).
Defined.

(* ===================================================================== *)
(** * Closing the files *)

Lemma close_files_from (g : globals) :
  forall (count : nat) (start : Z),
    forM_from start count
      (fun tab (_ : unit) => emit (FbClose (output_at g tab))) tt
    = (List.map (fun tab => FbClose (output_at g tab))
         (seqZ start (Z.of_nat count)), Ret tt).
Proof.
  induction count as [|count IH]; intros start.
  - reflexivity.
  - cbn [forM_from].
    change (emit (FbClose (output_at g start)))
      with (([FbClose (output_at g start)], Ret tt) : prog unit).
    rewrite bind_ret, IH.
    cbn [trace result fst snd app].
    rewrite Nat2Z.inj_succ.
    rewrite (seqZ_cons start (Z.succ (Z.of_nat count))) by lia.
    rewrite Z.pred_succ. cbn [List.map].
    now replace (Z.succ start) with (start + 1) by lia.
Qed.

Lemma close_files_run (g : globals) :
  close_files g
  = (List.map (fun tab => FbClose (output_at g tab)) (seqZ 0 (ntabs g)),
     Ret tt).
Proof.
  unfold close_files, forM_lt. rewrite close_files_from. do 2 f_equal.
  destruct (Z_le_gt_dec 0 (ntabs g)).
  - now rewrite Z2Nat.id.
  - unfold seqZ. rewrite Nat2Z.id.
    now rewrite (Z2Nat.nonpos (ntabs g)) by lia.
Qed.

Section CloseCounts.
Variable g : globals.
Variable fd : Z.

Lemma closes_map_none :
  forall (count : nat) (start : Z),
    (forall j, start <= j < start + Z.of_nat count -> output_at g j <> fd) ->
    closes fd (List.map (fun tab => FbClose (output_at g tab))
                 (seqZ start (Z.of_nat count))) = O.
Proof.
  induction count as [|count IH]; intros start Hne; [reflexivity|].
  rewrite Nat2Z.inj_succ.
  rewrite (seqZ_cons start (Z.succ (Z.of_nat count))) by lia.
  rewrite Z.pred_succ. cbn [List.map closes].
  replace (Z.succ start) with (start + 1) by lia.
  rewrite IH by (intros j Hj; apply Hne; lia).
  assert (H : output_at g start <> fd) by (apply Hne; lia).
  apply Z.eqb_neq in H. now rewrite H.
Qed.

Lemma closes_map_one :
  distinct_outputs g ->
  forall (count : nat) (start b : Z),
    0 <= start -> start + Z.of_nat count <= ntabs g ->
    start <= b < start + Z.of_nat count -> output_at g b = fd ->
    closes fd (List.map (fun tab => FbClose (output_at g tab))
                 (seqZ start (Z.of_nat count))) = 1%nat.
Proof.
  intros Hd. induction count as [|count IH]; intros start b H0 Hn Hb Hfd;
    [lia|].
  rewrite Nat2Z.inj_succ.
  rewrite (seqZ_cons start (Z.succ (Z.of_nat count))) by lia.
  rewrite Z.pred_succ. cbn [List.map closes].
  replace (Z.succ start) with (start + 1) by lia.
  destruct (Z.eqb_spec (output_at g start) fd) as [E|E].
  - rewrite closes_map_none; [reflexivity|].
    intros j Hj Ej. rewrite <- E in Ej. apply Hd in Ej; lia.
  - assert (Hne : b <> start) by (intros ->; contradiction).
    apply (IH (start + 1) b); lia.
Qed.
End CloseCounts.

Lemma syncs_map_close (g : globals) (fd : Z) (tabs : list Z) :
  syncs fd (List.map (fun tab => FbClose (output_at g tab)) tabs) = O.
Proof. induction tabs as [|tab tabs IH]; [reflexivity | exact IH]. Qed.

(** X20.  [close_files] calls [filterbank_close] on [output[0]] up to
    [output[ntabs-1]], in this order, and does nothing else: unlike the
    handler of SIGINT it does not skip a descriptor that is 0 and it does
    not call [fsync].  With pairwise distinct descriptors each one is
    closed once. *)
Theorem close_files_closes_each_once (g : globals) :
  close_files g
  = (List.map (fun tab => FbClose (output_at g tab)) (seqZ 0 (ntabs g)),
     Ret tt) /\
  (forall fd, syncs fd (trace (close_files g)) = O) /\
  (distinct_outputs g ->
   forall b, 0 <= b < ntabs g ->
             closes (output_at g b) (trace (close_files g)) = 1%nat).
Proof.
  split; [apply close_files_run|]. rewrite close_files_run.
  cbn [trace fst]. split; [intros fd; apply syncs_map_close|].
  intros Hd b Hb.
  replace (ntabs g) with (Z.of_nat (Z.to_nat (ntabs g)))
    by (apply Z2Nat.id; lia).
  apply (closes_map_one g (output_at g b) Hd (Z.to_nat (ntabs g)) 0 b);
    try reflexivity; rewrite ?Z2Nat.id; lia.
Qed.

Lemma close_files_closes_each_once_witness :
  distinct_outputs wide_open_globals /\
  0 <= 11 < ntabs wide_open_globals /\
  closes 15 (trace (close_files wide_open_globals)) = 1%nat.
Proof.
  split; [exact wide_open_distinct|].
  assert (Hb : 0 <= 11 < ntabs wide_open_globals)
    by (vm_compute; split; [discriminate | reflexivity]).
  split; [exact Hb|].
  exact (proj2 (proj2 (close_files_closes_each_once wide_open_globals))
           wide_open_distinct 11 Hb).
Defined.

(* ===================================================================== *)
(** * Leaving the ring buffer *)

Lemma init_ringbuffer_connected (e : env) (key : string) (g : globals) :
  Forall stays_connected (trace (init_ringbuffer e key g)).
Proof. unfold init_ringbuffer. all_events. Qed.

Lemma main_resolve_connected (e : env) (file_prefix : string) (g : globals) :
  Forall stays_connected (trace (main_resolve e file_prefix g)).
Proof.
  unfold main_resolve, main_science_case, main_science_mode. all_events.
Qed.

Lemma main_loop_connected (g : globals) :
  forall script buffer page_count,
    Forall stays_connected (trace (main_loop g script buffer page_count)).
Proof.
  induction script as [|eod|page rest IH]; intros buffer page_count;
    cbn [main_loop].
  - constructor.
  - constructor.
  - apply all_bind.
    { unfold process_page, forM_lt. apply all_forM_from.
      intros tab b. unfold process_tab. all_events. }
    intros buffer' _. apply all_bind; [now apply all_emit|].
    intros _ _. apply IH.
Qed.

Lemma sigint_handler_connected (g : globals) :
  Forall stays_connected (trace (sigint_handler g)).
Proof.
  unfold sigint_handler. apply all_bind; [now apply all_LOG|].
  intros _ _. apply all_bind.
  - unfold forM_lt. apply all_forM_from. intros i s.
    unfold sigint_close. all_events.
  - intros _ _. apply all_exit.
Qed.

Lemma sigint_handler_no_return (g : globals) (u : unit) :
  result (sigint_handler g) <> Ret u.
Proof.
  destruct (runlog g) eqn:Hlog.
  - rewrite (sigint_handler_run g Hlog). discriminate.
  - unfold sigint_handler, LOG. rewrite Hlog. discriminate.
Qed.

(** Once the log stream is open, [main] after the handler is installed
    ends with the release of the ring buffer and the count of pages. *)
Lemma main_stream_released (e : env) (g : globals) :
  runlog g = true ->
  exists pre n,
    main_stream e g
    = (pre ++ [HduUnlockRead; HduDisconnect;
               Stdout "Read %i pages\n" [AInt n];
               Runlog "Read %i pages\n" [AInt n]], Ret 0) /\
    Forall stays_connected pre.
Proof.
  intros Hlog. unfold main_stream.
  destruct (main_loop_returns g (env_script e) (env_heap e) 0) as [st Hr].
  pose proof (main_loop_connected g (env_script e) (env_heap e) 0) as Hc.
  destruct (main_loop g (env_script e) (env_heap e) 0) as [t r].
  cbn [result snd] in Hr. cbn [trace fst] in Hc. subst r.
  rewrite bind_ret. destruct (ls_eod st).
  - exists (t ++ [Stdout "End of data received\n" [];
                  Runlog "End of data received\n" []]), (ls_page_count st).
    rewrite (LOG_open g) by assumption.
    rewrite emit_bind, emit_bind, (LOG_open g) by assumption.
    cbn [trace result fst snd]. rewrite <- app_assoc.
    split; [reflexivity|]. apply Forall_app. split; [exact Hc|].
    repeat constructor.
  - exists t, (ls_page_count st).
    rewrite mret_bind, emit_bind, emit_bind, (LOG_open g) by assumption.
    split; [reflexivity | exact Hc].
Qed.

Lemma main_run_released (e : env) (key file_prefix : string) (g : globals) :
  runlog g = true ->
  (fails (main_run e key file_prefix g) /\
   Forall stays_connected (trace (main_run e key file_prefix g))) \/
  (exists pre n,
     main_run e key file_prefix g
     = (pre ++ [HduUnlockRead; HduDisconnect;
                Stdout "Read %i pages\n" [AInt n];
                Runlog "Read %i pages\n" [AInt n]], Ret 0) /\
     Forall stays_connected pre).
Proof.
  intros Hlog. rewrite main_run_tail. unfold fails.
  pose proof (init_ringbuffer_connected e key g) as Hinit.
  destruct (init_ringbuffer_cases e key g Hlog)
    as [_ [Hexit | [(h & Hh & Hc & Hl & Hp & Hf)
                   | (h & g1 & Hh & Hc & Hl & Hcl & Hp & Hret)]]].
  - left. rewrite (result_bind_exit _ _ _ Hexit),
      (trace_bind_exit _ _ _ Hexit). split; [now left | exact Hinit].
  - left. rewrite (result_bind_fault _ _ Hf), (trace_bind_fault _ _ Hf).
    split; [now right | exact Hinit].
  - assert (Hlog' : runlog g1 = true)
      by (now rewrite (parse_header_runlog h g g1 Hp)).
    pose proof (main_resolve_connected e file_prefix g1) as Hres.
    destruct (supported_test g1) as [Hto Hfrom].
    destruct (((science_case g1 =? 3) || (science_case g1 =? 4))
              && ((science_mode g1 =? 0) || (science_mode g1 =? 2)))%bool
      eqn:E.
    + right. specialize (Hfrom eq_refl).
      destruct (init_ringbuffer e key g) as [ti ri].
      cbn [result snd] in Hret. cbn [trace fst] in Hinit. subst ri.
      rewrite bind_ret.
      rewrite (main_tail_supported e file_prefix _ Hlog' Hfrom).
      cbn [trace result fst snd].
      match goal with
      | |- context [?a ++ ?b ++ [SignalInstall]
                    ++ trace (main_stream e ?g3)] =>
          set (ta := a) in *; set (tb := b);
          destruct (main_stream_released e g3 Hlog') as (pre & n & Es & Hpre)
      end.
      rewrite Es. cbn [trace fst].
      exists (ti ++ ta ++ tb ++ SignalInstall :: pre), n.
      split.
      * rewrite <- !app_assoc. reflexivity.
      * apply Forall_app. split; [exact Hinit|].
        apply Forall_app. split; [exact Hres|].
        apply Forall_app. split.
        { apply Forall_forall. intros ev Hev.
          apply list_elem_of_In, in_map_iff in Hev.
          destruct Hev as (tab & <- & _). exact I. }
        constructor; [exact I | exact Hpre].
    + left.
      assert (Hns : ~ supported g1).
      { intros H. apply Hto in H. discriminate H. }
      rewrite (result_bind_ret _ _ _ Hret), (trace_bind_ret _ _ _ Hret).
      rewrite (main_tail_unsupported e file_prefix _ Hlog' Hns).
      cbn [trace result fst snd]. split; [now left|].
      apply Forall_app. now split.
Qed.

(** X21.  [main] leaves the ring buffer on one path only, the one that
    returns 0: there it calls [dada_hdu_unlock_read] and then
    [dada_hdu_disconnect], once each, after the last page and before the
    count of pages is logged.  Every other run ends without either call,
    also those that fail after [dada_hdu_lock_read] has succeeded. *)
Theorem ring_buffer_released_on_return (e : env) (argv : list string) :
  (result (main e argv) = Ret 0 /\
   exists pre n,
     trace (main e argv)
     = pre ++ [HduUnlockRead; HduDisconnect;
               Stdout "Read %i pages\n" [AInt n];
               Runlog "Read %i pages\n" [AInt n]] /\
     Forall stays_connected pre) \/
  (result (main e argv) <> Ret 0 /\
   Forall stays_connected (trace (main e argv))).
Proof.
  pose proof (main_startup_outcome e argv) as Hs.
  pose proof (parseOptions_ok argv) as [Hq _].
  unfold main.
  destruct (result (parseOptions argv)) as [o|c|] eqn:Er; [| |contradiction].
  - destruct Hs as (k & p & l & Hk & Hp & Hl & Hs). rewrite Hs.
    destruct (env_logfile_ok e).
    + rewrite bind_ret. cbn [trace result fst snd].
      destruct (main_run_released e k p (set_runlog true globals0) eq_refl)
        as [[Hres Hall] | (pre & n & Erun & Hpre)].
      * right. split.
        { destruct Hres as [Hres | Hres]; rewrite Hres; discriminate. }
        constructor; [exact I|]. constructor; [exact I | exact Hall].
      * left. rewrite Erun. cbn [trace result fst snd].
        split; [reflexivity|].
        exists (Stdout "Logging to logfile: %s\n" [AStr l]
                :: Runlog "Logging to logfile: %s\n" [AStr l] :: pre), n.
        split; [reflexivity|].
        constructor; [exact I|]. constructor; [exact I | exact Hpre].
    + right. rewrite bind_fault. cbn [trace result fst snd].
      split; [discriminate | repeat constructor].
  - right. rewrite Hs, bind_exit. cbn [trace result fst snd].
    split; [discriminate|].
    eapply Forall_impl; [exact Hq|]. intros ev H. now destruct ev.
Qed.

(** X22.  The handler of SIGINT does not leave the ring buffer: when the
    signal arrives before [main] has called [dada_hdu_unlock_read], the
    interrupted run ends without [dada_hdu_unlock_read] and without
    [dada_hdu_disconnect]. *)
Theorem interrupt_keeps_ring_buffer (e : env) (g : globals) (k : nat) :
  Forall stays_connected (take k (trace (main_stream e g))) ->
  Forall stays_connected
    (trace (interrupted k (main_stream e g) (sigint_handler g))).
Proof.
  intros Hk. unfold interrupted.
  pose proof (sigint_handler_connected g) as Hh.
  pose proof (sigint_handler_no_return g) as Hn.
  destruct (Nat.ltb_spec k (length (trace (main_stream e g)))) as [Hlt|Hge].
  - destruct (sigint_handler g) as [th [u|c|]]; cbn [trace result fst snd] in *.
    + now contradiction (Hn u).
    + apply Forall_app. now split.
    + apply Forall_app. now split.
  - now rewrite take_ge in Hk by lia.
Qed.

Lemma interrupt_keeps_ring_buffer_witness :
  let e := sample_env bare_header RbEod in
  Forall stays_connected (take 2 (trace (main_stream e bare_globals))) /\
  Forall stays_connected
    (trace (interrupted 2 (main_stream e bare_globals)
              (sigint_handler bare_globals))).
Proof.
  cbv zeta.
  assert (H : Forall stays_connected
                (take 2 (trace (main_stream (sample_env bare_header RbEod)
                                  bare_globals))))
    by (vm_compute; repeat constructor).
  split; [exact H|].
  exact (interrupt_keeps_ring_buffer (sample_env bare_header RbEod)
           bare_globals 2 H).
Defined.

(* ===================================================================== *)
(** * The diagnostic for the science case *)

(** X23.  For a header that is parsed to a science case other than 3 and
    4 the run stops right after the header: the diagnostic [Illegal science
    case] is the first thing logged after it, and the number it shows is
    the science mode, not the science case; then [exit(EXIT_FAILURE)].  The
    science mode is not tested on this path. *)
Theorem illegal_case_reports_mode (e : env) (key file_prefix : string)
    (g g1 : globals) (h : header) :
  runlog g = true -> transport_ready e -> env_header e = Some h ->
  parse_header h g = Some g1 ->
  science_case g1 <> 3 -> science_case g1 <> 4 ->
  main_run e key file_prefix g
  = (trace (init_ringbuffer e key g)
     ++ [Stdout "Error: Illegal science case '%i'" [AInt (science_mode g1)];
         Runlog "Error: Illegal science case '%i'" [AInt (science_mode g1)]],
     Exit EXIT_FAILURE).
Proof.
  intros Hlog (Hc & Hl & Hcl) Hh Hp H3 H4. rewrite main_run_tail.
  rewrite (init_ringbuffer_run e key g g1 h Hlog Hc Hl Hh Hcl Hp), bind_ret.
  assert (Hlog' : runlog g1 = true)
    by (now rewrite (parse_header_runlog h g g1 Hp)).
  unfold main_tail.
  rewrite (main_resolve_illegal_case e file_prefix _ Hlog' H3 H4).
  reflexivity.
Qed.

Lemma illegal_case_reports_mode_witness :
  let h := [("SCIENCE_CASE"%string, HInt 5)] in
  let e := sample_env h RbEod in
  let g := set_runlog true globals0 in
  exists g1,
    runlog g = true /\ transport_ready e /\ env_header e = Some h /\
    parse_header h g = Some g1 /\
    science_case g1 <> 3 /\ science_case g1 <> 4 /\
    last (trace (main_run e "dada" "test" g))
    = Some (Runlog "Error: Illegal science case '%i'" [AInt 2]).
Proof.
  cbv zeta. eexists.
  assert (Ht : transport_ready
                 (sample_env [("SCIENCE_CASE"%string, HInt 5)] RbEod))
    by (repeat split).
  split; [reflexivity|]. split; [exact Ht|]. split; [reflexivity|].
  split; [reflexivity|].
  match goal with
  | |- science_case ?g1 <> 3 /\ _ =>
      assert (H3 : science_case g1 <> 3) by (vm_compute; discriminate);
      assert (H4 : science_case g1 <> 4) by (vm_compute; discriminate);
      split; [exact H3|]; split; [exact H4|];
      rewrite (illegal_case_reports_mode
                 (sample_env [("SCIENCE_CASE"%string, HInt 5)] RbEod)
                 "dada" "test" (set_runlog true globals0) g1
                 [("SCIENCE_CASE"%string, HInt 5)] eq_refl Ht eq_refl
                 eq_refl H3 H4)
  end.
  reflexivity.
Defined.
